(** * vidstream-server: session orchestration, modelled and verified

    A shallow embedding of the most recent variant of the server
    (the websocket server with username validation, the helper module
    with [getBestQuality]/[killStream], the security module with
    [RegexCheck] and the utilities module with [resolutions]).

    Conventions of the embedding:
    - JavaScript [Map]s keyed by stream ids are [gmap string _];
      the connection table is keyed by an abstract connection name;
    - a handler returns an [Outcome]: either it returned, or it threw,
      with the world reached so far.  The handlers of the first parts
      are taken to their end before the next one starts; the last part
      cuts the subscription at its awaits and lets other events fall
      in between;
    - exceptions that follow from the language semantics alone (reading
      a property of [undefined], an argument of the wrong type given to
      a [node:fs] function) are modelled; of the failures of the
      environment, the ones the handlers are written around are inputs
      (a [rename] that rejects, an ffprobe that fails, an address
      lookup that rejects), the others (disk full, missing binary) are
      not modelled;
    - [Date.now()] is an input of each handler. *)

From Stdlib Require Import ZArith String Ascii List Lia Bool.
From stdpp Require Import gmap strings list fin_maps.

Local Open Scope string_scope.
Local Open Scope list_scope.
Local Open Scope Z_scope.

(** ** utilities.js *)

Module Utilities.

(** [const resolutions = { "8k": 7680 * 4320, ... }] *)
Definition resolutions (key : string) : option Z :=
  if String.eqb key "8k" then Some (7680 * 4320)
  else if String.eqb key "4k" then Some (3840 * 2160)
  else if String.eqb key "1440p" then Some (2560 * 1440)
  else if String.eqb key "1080p" then Some (1920 * 1080)
  else if String.eqb key "720p" then Some (1280 * 720)
  else None.

(** [const framerates = { "240fps": 240, ... }] *)
Definition framerates (key : string) : option Z :=
  if String.eqb key "240fps" then Some 240
  else if String.eqb key "120fps" then Some 120
  else if String.eqb key "60fps" then Some 60
  else if String.eqb key "30fps" then Some 30
  else None.

(** [table[process.env.X] || fallback]: the variable may be unset, the
    key may be absent from the table, and a zero entry would be falsy.
    Only the table's own keys are looked up here.  For a name that the
    table inherits from [Object.prototype] ([constructor], [toString]
    and the like) the code finds a function, which is truthy and not a
    number: the fallback is not taken and every comparison with the
    limit is false, so the helpers answer with their lowest tier, which
    is within what is proved below for every limit. *)
Definition lookup_or (table : string -> option Z) (env : option string)
    (fallback : Z) : Z :=
  match env with
  | Some key =>
      match table key with
      | Some v => if Z.eqb v 0 then fallback else v
      | None => fallback
      end
  | None => fallback
  end.

(** [const maxResolution = resolutions[process.env.MAX_RESOLUTION] || resolutions["1080p"]] *)
Definition maxResolution (env : option string) : Z :=
  lookup_or resolutions env (1920 * 1080).

(** [const maxFramerate = framerates[process.env.MAX_FRAMERATE] || framerates["60fps"]] *)
Definition maxFramerate (env : option string) : Z :=
  lookup_or framerates env 60.

End Utilities.

(** ** functions.js, the pure helpers *)

(** [{ width, height }] *)
Record Resolution := mkResolution { width : Z; height : Z }.

(** [{ width: resolution.height, height: resolution.width }] *)
Definition swap (r : Resolution) : Resolution :=
  {| width := height r; height := width r |}.

(** The five landscape tiers [getBestQuality] can select. *)
Definition tiers : list Resolution :=
  [ mkResolution 7680 4320; mkResolution 3840 2160; mkResolution 2560 1440;
    mkResolution 1920 1080; mkResolution 1280 720 ].

Section Functions.

(** [maxResolution] and [maxFramerate] are imported from utilities.js;
    the functions below only compare against them. *)
Variable maxResolution : Z.
Variable maxFramerate : Z.

(** [async function getBestQuality(width, height)] *)
Definition getBestQuality (width height : Z) : Resolution :=
  let isPortrait := width <? height in
  let '(width, height) :=
    if isPortrait then (height, width) else (width, height) in
  let resolution :=
    if (maxResolution >=? 7680 * 4320) && (width >=? 7680) && (height >=? 4320)
    then mkResolution 7680 4320
    else if (maxResolution >=? 3840 * 2160) && (width >=? 3840) && (height >=? 2160)
    then mkResolution 3840 2160
    else if (maxResolution >=? 2560 * 1440) && (width >=? 2560) && (height >=? 1440)
    then mkResolution 2560 1440
    else if (maxResolution >=? 1920 * 1080) && (width >=? 1920) && (height >=? 1080)
    then mkResolution 1920 1080
    else mkResolution 1280 720 in
  if isPortrait then swap resolution else resolution.

(** [async function getBestFramerate(framerate)] (integral rates) *)
Definition getBestFramerate (framerate : Z) : Z :=
  if (maxFramerate >=? 240) && (framerate >=? 240) then 240
  else if (maxFramerate >=? 120) && (framerate >=? 120) then 120
  else if (maxFramerate >=? 60) && (framerate >=? 60) then 60
  else 30.

End Functions.

(** [crypto.randomBytes(n)]: the first [n] bytes of the entropy source. *)
Definition randomBytes (rng : nat -> Byte.byte) (n : nat) : list Byte.byte :=
  map rng (seq 0 n).

Definition charset : string :=
  "ABCDEFGHIJKLMNOPQRSTUVWXYZabcdefghijklmnopqrstuvwxyz0123456789".

(** [charset[index]]; out of range JavaScript yields [undefined], which
    [+=] would append as the text "undefined". *)
Definition charAt (s : string) (index : nat) : string :=
  match String.get index s with
  | Some c => String c EmptyString
  | None => "undefined"
  end.

(** One turn of the loop body:
    [const index = bytes[i] % charsetLength; auth += charset[index];] *)
Definition appendRandomChar (bytes : list Byte.byte) (auth : string) (i : nat) : string :=
  let charsetLength := String.length charset in
  match bytes !! i with
  | Some b => auth +:+ charAt charset (N.to_nat (Byte.to_N b) mod charsetLength)
  | None => auth +:+ "undefined"
  end.

(** [async function generateRandomString(length = 32)] *)
Definition generateRandomString (rng : nat -> Byte.byte) (length : nat) : string :=
  let bytes := randomBytes rng length in
  foldl (appendRandomChar bytes) "" (seq 0 length).

(** [async function getBestBitrate(width, height, framerate)] *)
Definition getBestBitrate (width height framerate : Z) : string :=
  if framerate >=? 240 then
    if (width >=? 7680) && (height >=? 4320) then "960000k"
    else if (width >=? 3840) && (height >=? 2160) then "272000k"
    else if (width >=? 2560) && (height >=? 1440) then "96000k"
    else if (width >=? 1920) && (height >=? 1080) then "48000k"
    else "30000k"
  else if framerate >=? 120 then
    if (width >=? 7680) && (height >=? 4320) then "480000k"
    else if (width >=? 3840) && (height >=? 2160) then "136000k"
    else if (width >=? 2560) && (height >=? 1440) then "48000k"
    else if (width >=? 1920) && (height >=? 1080) then "24000k"
    else "15000k"
  else if framerate >=? 60 then
    if (width >=? 7680) && (height >=? 4320) then "240000k"
    else if (width >=? 3840) && (height >=? 2160) then "68000k"
    else if (width >=? 2560) && (height >=? 1440) then "24000k"
    else if (width >=? 1920) && (height >=? 1080) then "12000k"
    else "7500k"
  else
    if (width >=? 7680) && (height >=? 4320) then "160000k"
    else if (width >=? 3840) && (height >=? 2160) then "45000k"
    else if (width >=? 2560) && (height >=? 1440) then "16000k"
    else if (width >=? 1920) && (height >=? 1080) then "8000k"
    else "5000k".

(** ** security.js *)

(** A string as the [u]-flagged regular expression reads it: a sequence
    of Unicode code points. *)
Definition ustring := list N.

Module RegexCheck.
Section Security.

(** The Unicode general categories Letter ([\p{L}]) and Number
    ([\p{N}]) come from the runtime's character database. *)
Variable unicode_L : N -> bool.
Variable unicode_N : N -> bool.

(** The character class between the brackets: [\p{L}\p{N} .\-@_] *)
Definition username_class (c : N) : bool :=
  unicode_L c || unicode_N c
  || N.eqb c 32 (* space *) || N.eqb c 46 (* . *) || N.eqb c 45 (* - *)
  || N.eqb c 64 (* @ *) || N.eqb c 95 (* _ *).

(** Greedy, backtracking match of [cls{lo,lo+extra}] followed by the
    rest of the pattern [k]. *)
Fixpoint match_repeat (cls : N -> bool) (lo extra : nat)
    (k : ustring -> bool) (s : ustring) : bool :=
  match lo with
  | S lo' =>
      match s with
      | c :: s' => cls c && match_repeat cls lo' extra k s'
      | [] => false
      end
  | O =>
      match extra with
      | S extra' =>
          match s with
          | c :: s' => (cls c && match_repeat cls O extra' k s') || k s
          | [] => k s
          end
      | O => k s
      end
  end.

(** [$] without the [m] flag: only the end of the input. *)
Definition match_end (s : ustring) : bool :=
  match s with [] => true | _ => false end.

(** [/^[\p{L}\p{N} .\-@_]{3,20}$/u.test(username)]: because of [^]
    the match can only start at the first code point. *)
Definition username (u : ustring) : bool :=
  match_repeat username_class 3 17 match_end u.

End Security.
End RegexCheck.

(** ** The data of the server *)

Inductive StreamState := stopped | started.

#[global] Instance StreamState_eq_dec : EqDecision StreamState.
Proof. solve_decision. Defined.

(** An entry of [global.streams]. *)
Module Stream.
Record t := mk {
  id : string;
  token : string;
  state : StreamState;
  width : Z;
  height : Z;
  fps : Z;
  bitrate : string;
  directory : string;
  video : string;
  keepAlive : Z;
  timestamp : Z
}.

(** [stream.state = "started"; stream.keepAlive = now] and the like:
    assignments to the fields of the object held by the map. *)
Definition set_state (v : StreamState) (s : t) : t :=
  mk (id s) (token s) v (width s) (height s) (fps s) (bitrate s)
     (directory s) (video s) (keepAlive s) (timestamp s).

Definition set_keepAlive (v : Z) (s : t) : t :=
  mk (id s) (token s) (state s) (width s) (height s) (fps s) (bitrate s)
     (directory s) (video s) v (timestamp s).
End Stream.

(** An entry of [websocketClients]. *)
Module Client.
Record t := mk {
  username : ustring;
  ip : string;
  country : option string;
  stream : string;
  host : bool
}.
End Client.

(** The object a client message parses to.  The protocol's fields are
    strings; [None] is an absent field ([undefined]). *)
Module Data.
Record t := mk {
  stream : option string;
  username : option ustring;
  token : option string;
  type : option string;
  message : option string
}.
End Data.

(** What [JSON.parse(message)] does: it throws, or yields [null], or
    yields a value whose properties can be read (for a number, a string
    or a boolean every field below is absent). *)
Inductive Parsed :=
  | SyntaxError
  | JsonNull
  | Json (data : Data.t).

(** The objects handed to [JSON.stringify]; a field whose value is
    [undefined] is left out of the text, hence the options. *)
Module Payload.
Record t := mk {
  success : bool;
  type : option string;
  cause : option string;
  message : option string;
  username : option ustring;
  host : option bool;
  country : option string;
  stream : option string;
  state : option StreamState;
  viewers : option nat
}.

(** [{ success: false, type, cause }] *)
Definition failure (ty : option string) (cause : string) : t :=
  mk false ty (Some cause) None None None None None None None.

(** [{ success: true, type, message }] *)
Definition ok (ty : option string) (msg : string) : t :=
  mk true ty None (Some msg) None None None None None None.

(** [{ success: true, type, username, host, country, message }] *)
Definition chat (ty : option string) (user : ustring) (h : bool)
    (ctry : option string) (msg : option string) : t :=
  mk true ty None msg (Some user) (Some h) ctry None None None.

(** [{ success: true, type: "info", stream, state, viewers }] *)
Definition info (id : string) (st : StreamState) (n : nat) : t :=
  mk true (Some "info") None None None None None (Some id) (Some st) (Some n).
End Payload.

(** A websocket connection is named by a number. *)
Definition conn := nat.

(** The runtime's side of a connection: [ws.data.ip], the topics it is
    subscribed to, the frames delivered to it, and whether it is open. *)
Record Socket := mkSocket {
  data_ip : string;
  topics : gset string;
  inbox : list Payload.t;
  isOpen : bool
}.

(** The handle returned by [Bun.spawn]. *)
Record Subprocess := mkSubprocess { pid : nat }.

#[global] Instance Subprocess_eq_dec : EqDecision Subprocess.
Proof. solve_decision. Defined.

Record World := mkWorld {
  streams : gmap string Stream.t;            (* global.streams *)
  ffmpegProcesses : gmap string Subprocess;  (* global.ffmpegProcesses *)
  websocketClients : gmap conn Client.t;     (* websocketClients *)
  sockets : gmap conn Socket;                (* connections known to the runtime *)
  dirs : gset string;                        (* directories on disk *)
  alive : gset nat;                          (* running transcoder processes *)
  spawned : nat                              (* processes spawned so far *)
}.

Definition with_streams (f : gmap string Stream.t -> gmap string Stream.t) (w : World) :=
  mkWorld (f (streams w)) (ffmpegProcesses w) (websocketClients w) (sockets w)
          (dirs w) (alive w) (spawned w).
Definition with_ffmpegProcesses (f : gmap string Subprocess -> gmap string Subprocess) (w : World) :=
  mkWorld (streams w) (f (ffmpegProcesses w)) (websocketClients w) (sockets w)
          (dirs w) (alive w) (spawned w).
Definition with_websocketClients (f : gmap conn Client.t -> gmap conn Client.t) (w : World) :=
  mkWorld (streams w) (ffmpegProcesses w) (f (websocketClients w)) (sockets w)
          (dirs w) (alive w) (spawned w).
Definition with_sockets (f : gmap conn Socket -> gmap conn Socket) (w : World) :=
  mkWorld (streams w) (ffmpegProcesses w) (websocketClients w) (f (sockets w))
          (dirs w) (alive w) (spawned w).
Definition with_dirs (f : gset string -> gset string) (w : World) :=
  mkWorld (streams w) (ffmpegProcesses w) (websocketClients w) (sockets w)
          (f (dirs w)) (alive w) (spawned w).
Definition with_alive (f : gset nat -> gset nat) (w : World) :=
  mkWorld (streams w) (ffmpegProcesses w) (websocketClients w) (sockets w)
          (dirs w) (f (alive w)) (spawned w).
Definition with_spawned (f : nat -> nat) (w : World) :=
  mkWorld (streams w) (ffmpegProcesses w) (websocketClients w) (sockets w)
          (dirs w) (alive w) (f (spawned w)).

(** ** Exceptions *)

Inductive Exn :=
  | TypeError (what : string).

Inductive Outcome :=
  | Returned (w : World)
  | Threw (e : Exn) (w : World).

Definition world_of (o : Outcome) : World :=
  match o with Returned w => w | Threw _ w => w end.

(** Sequencing: a statement that threw ends the function. *)
Definition andThen (o : Outcome) (k : World -> Outcome) : Outcome :=
  match o with
  | Returned w => k w
  | Threw e w => Threw e w
  end.

Notation "o >>> k" := (andThen o k) (at level 65, right associativity).

(** [for (const x of xs) body]: the loop stops at the first exception. *)
Fixpoint forOf {A} (body : A -> World -> Outcome) (xs : list A) (w : World) : Outcome :=
  match xs with
  | [] => Returned w
  | x :: rest => body x w >>> forOf body rest
  end.

(** ** Runtime primitives *)

(** JavaScript truthiness of a string-or-undefined value. *)
Definition truthy (v : option string) : bool :=
  match v with
  | Some s => negb (String.eqb s "")
  | None => false
  end.

(** The same for a username, a string seen as code points. *)
Definition truthy_u (v : option ustring) : bool :=
  match v with
  | Some (_ :: _) => true
  | _ => false
  end.

(** A template literal prints an absent value as "undefined". *)
Definition show (v : option string) : string :=
  match v with Some s => s | None => "undefined" end.

(** [path.join(a, b)] *)
Definition join (a b : string) : string := a +:+ "/" +:+ b.

(** The values that reach a [Map] as a key in this program: a string,
    [undefined], or a process handle.  The keys stored in both maps are
    strings, so no other value is ever found. *)
Inductive Key :=
  | KString (s : string)
  | KUndefined
  | KSubprocess (p : Subprocess).

Definition Map_get {V} (m : gmap string V) (k : Key) : option V :=
  match k with
  | KString s => m !! s
  | _ => None
  end.

Definition Map_has {V} (m : gmap string V) (k : Key) : bool :=
  match Map_get m k with Some _ => true | None => false end.

Definition Map_delete {V} (m : gmap string V) (k : Key) : gmap string V :=
  match k with
  | KString s => delete s m
  | _ => m
  end.

(** [global.ffmpegProcesses.get(id)] as a value: the handle or [undefined]. *)
Definition handle_or_undefined (o : option Subprocess) : Key :=
  match o with
  | Some p => KSubprocess p
  | None => KUndefined
  end.

Definition deliver (p : Payload.t) (s : Socket) : Socket :=
  if isOpen s then mkSocket (data_ip s) (topics s) (inbox s ++ [p]) (isOpen s) else s.

(** [ws.send(JSON.stringify(p))] *)
Definition ws_send (ws : conn) (p : Payload.t) : World -> World :=
  with_sockets (alter (deliver p) ws).

(** [server.publish(topic, JSON.stringify(p))]: every connection
    subscribed to the topic receives the frame. *)
Definition server_publish (topic : string) (p : Payload.t) : World -> World :=
  with_sockets (fmap (fun s => if decide (topic ∈ topics s) then deliver p s else s)).

(** [ws.subscribe(topic)] *)
Definition ws_subscribe (ws : conn) (topic : string) : World -> World :=
  with_sockets (alter (fun s => mkSocket (data_ip s) ({[topic]} ∪ topics s) (inbox s) (isOpen s)) ws).

(** [ws.unsubscribe(topic)] *)
Definition ws_unsubscribe (ws : conn) (topic : string) : World -> World :=
  with_sockets (alter (fun s => mkSocket (data_ip s) (topics s ∖ {[topic]}) (inbox s) (isOpen s)) ws).

(** [fs.mkdir(path, { recursive: true })] *)
Definition mkdir (path : string) : World -> World :=
  with_dirs (fun d => {[path]} ∪ d).

(** [fs.rmdir(path, { recursive: true, force: true })].  The path must
    be a string: [null] is refused with a [TypeError] before the file
    system is touched.  A directory that is not there is not an error
    for the recursive removal. *)
Definition rmdir (path : option string) (w : World) : Outcome :=
  match path with
  | Some p => Returned (with_dirs (fun d => d ∖ {[p]}) w)
  | None => Threw (TypeError "The path argument must be of type string. Received null") w
  end.

(** An [async] function called without [await] gives its caller a
    promise, whatever the promise will resolve to. *)
Inductive Promise (A : Type) :=
  | resolvesTo (v : A).
Arguments resolvesTo {A} v.

(** A promise is an object, and every object is truthy. *)
Definition ToBoolean {A} (p : Promise A) : bool := true.

(** [async function exists(path)]: whether [stat(path)] succeeds. *)
Definition exists_ (path : option string) (w : World) : Promise bool :=
  resolvesTo
    match path with
    | Some p => bool_decide (p ∈ dirs w)
    | None => false
    end.

(** [ffmpeg.kill("SIGKILL")] *)
Definition kill (ffmpeg : Subprocess) : World -> World :=
  with_alive (fun a => a ∖ {[pid ffmpeg]}).

(** [ffmpeg.killed] *)
Definition killed (ffmpeg : Subprocess) (w : World) : bool :=
  bool_decide (pid ffmpeg ∉ alive w).

(** [Bun.spawn({ cmd: [...] })]: a new process with the next free number. *)
Definition spawn (w : World) : Subprocess * World :=
  let p := mkSubprocess (spawned w) in
  (p, with_spawned S (with_alive (fun a => {[pid p]} ∪ a) w)).

(** ** functions.js, the supervisor *)

(** [async function startStream(stream)].  The reader of the process's
    diagnostics has no effect on the state; the callback registered on
    [ffmpeg.exited] is [exited] below and runs when the runtime reports
    the exit. *)
Definition startStream (stream : Stream.t) (w : World) : World :=
  let w := mkdir (Stream.directory stream) w in
  let '(ffmpeg, w) := spawn w in
  with_ffmpegProcesses (insert (Stream.id stream) ffmpeg) w.

(** The callback of [ffmpeg.exited.then], after its delay:
    [rmdir(directory); streams.delete(id); ffmpegProcesses.delete(id)]. *)
Definition exited (id directory : string) (w : World) : Outcome :=
  rmdir (Some directory) w >>> fun w =>
  Returned (with_ffmpegProcesses (delete id) (with_streams (delete id) w)).

(** [async function killStream(id, streamPath = null)] *)
Definition killStream (id : Key) (streamPath : option string) (w : World) : Outcome :=
  (* Try to kill ffmpeg and delete it from the ffmpegProcesses *)
  let w :=
    match Map_get (ffmpegProcesses w) id with
    | Some ffmpeg => with_ffmpegProcesses (fun m => Map_delete m id) (kill ffmpeg w)
    | None => w
    end in
  (* If streamPath is not supplied, try to get the path from the streams object *)
  let streamPath :=
    if negb (truthy streamPath) then
      match Map_get (streams w) id with
      | Some stream => Some (Stream.directory stream)
      | None => streamPath
      end
    else streamPath in
  (* Try to delete the stream's directory and also from the streams object *)
  (if ToBoolean (exists_ streamPath w) then rmdir streamPath w else Returned w) >>> fun w =>
  Returned (if Map_has (streams w) id then with_streams (fun m => Map_delete m id) w else w).

(** ** The websocket server *)

Section Server.

(** The Unicode tables used by [RegexCheck.username]. *)
Variable unicode_L : N -> bool.
Variable unicode_N : N -> bool.

(** [MAX_KEEP_ALIVE], in milliseconds, and the [streams] directory. *)
Variable MAX_KEEP_ALIVE : Z.
Variable streamsDirectory : string.

(** The limits of utilities.js. *)
Variable maxResolution : Z.
Variable maxFramerate : Z.

(** The body shared by the [open(ws)] and [close(ws)] handlers:
    unsubscribe the client and delete it from [websocketClients]. *)
Definition forget (ws : conn) (w : World) : World :=
  match websocketClients w !! ws with
  | Some client =>
      with_websocketClients (delete ws) (ws_unsubscribe ws (Client.stream client) w)
  | None => w
  end.

(** A new connection: the runtime creates the socket with the address
    found by [getClientIP], then calls [open(ws)]. *)
Definition open (ws : conn) (address : string) (w : World) : World :=
  forget ws (with_sockets (insert ws (mkSocket address ∅ [] true)) w).

(** The end of a connection: the runtime drops the socket from every
    topic, then calls [close(ws)]. *)
Definition close (ws : conn) (w : World) : World :=
  forget ws
    (with_sockets (alter (fun s => mkSocket (data_ip s) ∅ (inbox s) false) ws) w).

(** [ws.close()] inside a handler. *)
Definition ws_close (ws : conn) (w : World) : World := close ws w.

(** [ws.send(failure); ws.close(); return;] *)
Definition reject (ws : conn) (ty : option string) (cause : string) (w : World) : Outcome :=
  Returned (ws_close ws (ws_send ws (Payload.failure ty cause) w)).

(** The part of [message] run for a connection that is not in
    [websocketClients] yet.  [geo] is the country code found by the
    address lookup, if any.  This is the subscription taken to its end
    before any other handler starts.  The source awaits twice on the
    way, and [subscribe_begin], [subscribe_checked] and
    [subscribe_register] below are its parts between the awaits. *)
Definition subscribe (ws : conn) (data : Data.t) (geo : option string)
    (w : World) : Outcome :=
  let id := default "" (Data.stream data) in
  (* Check if the client is trying to watch a stream that doesn't exist *)
  if negb (truthy (Data.stream data)) then
    reject ws (Data.type data)
      ("Stream " +:+ show (Data.stream data) +:+ " doesn't exist!") w
  else
    match streams w !! id with
    | None =>
        reject ws (Data.type data)
          ("Stream " +:+ show (Data.stream data) +:+ " doesn't exist!") w
    | Some stream =>
        (* Check if the client supplied a username *)
        if negb (truthy_u (Data.username data)) then
          reject ws (Data.type data) "No username supplied!" w
        (* Check if the username supplied is valid *)
        else if negb (RegexCheck.username unicode_L unicode_N
                        (default [] (Data.username data))) then
          reject ws (Data.type data)
            "Only alphabetical characters, numbers, spaces and the characters '.-_@' are allowed in a username (minimum 3 characters, maximum 20 characters)!" w
        else
          (* Get the stream's token *)
          let streamToken := Stream.token stream in
          let w := ws_subscribe ws id w in
          let client :=
            Client.mk (default [] (Data.username data))
              (from_option data_ip "" (sockets w !! ws))
              geo id
              (bool_decide (Some streamToken = Data.token data)) in
          let w := with_websocketClients (insert ws client) w in
          Returned (ws_send ws
            (Payload.ok (Data.type data) ("Now watching stream " +:+ id +:+ "!")) w)
    end.

(** [case "start"] *)
Definition command_start (ws : conn) (data : Data.t) (client : Client.t)
    (stream : Stream.t) (now : Z) (w : World) : Outcome :=
  if bool_decide (Stream.state stream = started)
     || bool_decide (is_Some (ffmpegProcesses w !! Client.stream client)) then
    Returned (ws_send ws (Payload.failure (Data.type data) "This stream has already started!") w)
  else if negb (Client.host client) then
    Returned (ws_send ws (Payload.failure (Data.type data) "You're not the host!") w)
  else
    let w := startStream stream w in
    let stream := Stream.set_keepAlive now (Stream.set_state started stream) in
    let w := with_streams (insert (Client.stream client) stream) w in
    Returned (ws_send ws (Payload.ok (Data.type data) "Stream started!") w).

(** [case "keepAlive"] *)
Definition command_keepAlive (ws : conn) (data : Data.t) (client : Client.t)
    (stream : Stream.t) (now : Z) (w : World) : Outcome :=
  if negb (bool_decide (Stream.state stream = started))
     || negb (bool_decide (is_Some (ffmpegProcesses w !! Client.stream client))) then
    Returned (ws_send ws (Payload.failure (Data.type data) "This stream hasn't even started yet!") w)
  else
    let stream := Stream.set_keepAlive now stream in
    let w := with_streams (insert (Client.stream client) stream) w in
    Returned (ws_send ws (Payload.ok (Data.type data) "Keep alive registered!") w).

(** [case "message"] *)
Definition command_message (ws : conn) (data : Data.t) (client : Client.t)
    (stream : Stream.t) (now : Z) (w : World) : Outcome :=
  if negb (truthy (Data.message data)) then
    Returned (ws_send ws (Payload.failure (Data.type data) "No message!") w)
  else
    let stream := Stream.set_keepAlive now stream in
    let w := with_streams (insert (Client.stream client) stream) w in
    Returned (server_publish (Client.stream client)
      (Payload.chat (Data.type data) (Client.username client) (Client.host client)
         (Client.country client) (Data.message data)) w).

(** [default:] *)
Definition command_default (ws : conn) (data : Data.t) (w : World) : Outcome :=
  Returned (ws_send ws (Payload.failure (Data.type data) "This type doesn't exist!") w).

(** [async message(ws, message)], given what [JSON.parse] did with
    the text, the result of the address lookup and the clock, and
    taken to its end before any other handler starts; [message_begin]
    below is the handler up to its first await. *)
Definition message (ws : conn) (parsed : Parsed) (geo : option string) (now : Z)
    (w : World) : Outcome :=
  match parsed with
  | SyntaxError =>
      (* catch { ... data.type ... }: [data] was never assigned *)
      Threw (TypeError "undefined is not an object (evaluating 'data.type')") w
  | JsonNull =>
      (* if (!data.stream) *)
      Threw (TypeError "null is not an object (evaluating 'data.stream')") w
  | Json data =>
      (* Check if a stream ID's been supplied *)
      if negb (truthy (Data.stream data)) then
        reject ws (Data.type data) "No stream supplied!" w
      else
        match websocketClients w !! ws with
        | None => subscribe ws data geo w
        | Some client =>
            match streams w !! Client.stream client with
            | None =>
                reject ws (Data.type data)
                  ("Stream " +:+ show (Data.stream data) +:+ " ended!") w
            | Some stream =>
                if decide (Data.type data = Some "start") then
                  command_start ws data client stream now w
                else if decide (Data.type data = Some "keepAlive") then
                  command_keepAlive ws data client stream now w
                else if decide (Data.type data = Some "message") then
                  command_message ws data client stream now w
                else
                  command_default ws data w
            end
        end
  end.

(** The viewers of a stream, as the keep-alive sweep counts them. *)
Definition viewers (id : string) (w : World) : nat :=
  length (filter (fun entry => Client.stream entry.2 = id)
                 (map_to_list (websocketClients w))).

(** The body of the keep-alive sweep for one entry of [global.streams]. *)
Definition sweep_stream (now : Z) (entry : string * Stream.t) (w : World) : Outcome :=
  let '(id, stream) := entry in
  let n := viewers id w in
  (* If the stream has been inactive for more time than the allowed keep alive, delete it *)
  (if now - Stream.keepAlive stream >? MAX_KEEP_ALIVE then
     killStream (handle_or_undefined (ffmpegProcesses w !! id))
                (Some (Stream.directory stream)) w
   else Returned w) >>> fun w =>
  (* Publish info to the viewers of that stream if there are people watching *)
  Returned (if (0 <? n)%nat
            then server_publish id (Payload.info id (Stream.state stream) n) w
            else w).

(** The keep-alive sweep, every 10 seconds. *)
Definition reaper (now : Z) (w : World) : Outcome :=
  forOf (sweep_stream now) (map_to_list (streams w)) w.

(** [try { ... } catch (error) { log.error(...) }] *)
Definition caught (o : Outcome) : Outcome := Returned (world_of o).

(** The body of the sweep over [global.ffmpegProcesses], every minute. *)
Definition sweep_process (entry : string * Subprocess) (w : World) : Outcome :=
  let '(id, ffmpeg) := entry in
  if negb (bool_decide (is_Some (streams w !! id))) then
    caught
      (if negb (killed ffmpeg w)
       then killStream (KString id) (Some (join streamsDirectory id)) w
       else Returned (with_ffmpegProcesses (delete id) w))
  else Returned w.

Definition orphans (w : World) : Outcome :=
  forOf sweep_process (map_to_list (ffmpegProcesses w)) w.

(** The end of the upload handler, once the file is on disk and has
    been probed: two random strings, the encoding parameters and the
    new entry of [global.streams]. *)
Definition upload (rngId rngToken : nat -> Byte.byte) (ext : string)
    (metaWidth metaHeight metaFramerate : Z) (now : Z) (w : World) : World :=
  let id := generateRandomString rngId 32 in
  let token := generateRandomString rngToken 16 in
  let directoryPath := join streamsDirectory id in
  let w := mkdir directoryPath w in
  let finalVideoPath := join directoryPath ("video." +:+ ext) in
  let quality := getBestQuality maxResolution metaWidth metaHeight in
  let framerate := getBestFramerate maxFramerate metaFramerate in
  let bitrate := getBestBitrate (width quality) (height quality) framerate in
  with_streams
    (insert id (Stream.mk id token stopped (width quality) (height quality)
                  framerate bitrate directoryPath finalVideoPath now now)) w.

(** ** The server as a transition system *)

Inductive Event :=
  | EvUpload (rngId rngToken : nat -> Byte.byte) (ext : string)
             (metaWidth metaHeight metaFramerate : Z) (now : Z)
  | EvOpen (ws : conn) (address : string)
  | EvMessage (ws : conn) (parsed : Parsed) (geo : option string) (now : Z)
  | EvClose (ws : conn)
  | EvReaper (now : Z)
  | EvOrphans
  | EvProcessEnds (p : nat)
  | EvExited (id directory : string).

(** The runtime calls [open] once, for a connection it has not seen,
    and delivers messages only on open connections. *)
Definition step (ev : Event) (w : World) : World :=
  match ev with
  | EvUpload rngId rngToken ext mw mh mf now =>
      upload rngId rngToken ext mw mh mf now w
  | EvOpen ws address =>
      match sockets w !! ws with
      | Some _ => w
      | None => open ws address w
      end
  | EvMessage ws parsed geo now =>
      match sockets w !! ws with
      | Some s => if isOpen s then world_of (message ws parsed geo now w) else w
      | None => w
      end
  | EvClose ws => close ws w
  | EvReaper now => world_of (reaper now w)
  | EvOrphans => world_of (orphans w)
  | EvProcessEnds p => with_alive (fun a => a ∖ {[p]}) w
  | EvExited id directory => world_of (exited id directory w)
  end.

Definition run (evs : list Event) (w : World) : World :=
  foldl (fun w ev => step ev w) w evs.

End Server.

(** ** The earlier server *)

Module Earlier.

(** An entry of [websocketClients] in the earlier server: [{ stream, host }]. *)
Record Client := mkClient { stream : string; host : bool }.

(** The [start] branch of its handler, as far as the entry of the
    connection goes: the entry stored afterwards, and whether the
    stream was started.  On success it runs
    [client.host = true; websocketClients.set(ws, client)]. *)
Definition start (startedOrRunning : bool) (client : Client) : Client * bool :=
  if startedOrRunning then (client, false)
  else if negb (host client) then (client, false)
  else (mkClient (stream client) true, true).

End Earlier.

(** * Vocabulary of the properties *)

(** An ASCII upper-case letter, lower-case letter or digit. *)
Definition alphanumeric (c : ascii) : bool :=
  let n := nat_of_ascii c in
  ((65 <=? n) && (n <=? 90) || (97 <=? n) && (n <=? 122) || (48 <=? n) && (n <=? 57))%nat.

(** Every character of the text is one of the 62 of [charset], that is
    an ASCII letter or digit. *)
Definition over_charset (s : string) : Prop :=
  Forall (fun c => In c (list_ascii_of_string charset) /\ alphanumeric c = true)
         (list_ascii_of_string s).

Section Format.

Variable unicode_L : N -> bool.
Variable unicode_N : N -> bool.

(** The format in the words of the specification: letters, digits,
    spaces and the characters [. - _ @]. *)
Definition allowed_character (c : N) : Prop :=
  unicode_L c = true \/ unicode_N c = true
  \/ c = 32%N \/ c = 46%N \/ c = 45%N \/ c = 95%N \/ c = 64%N.

(** ... with a total length of at least 3 and at most 20. *)
Definition username_format (u : ustring) : Prop :=
  Forall allowed_character u /\ (3 <= length u <= 20)%nat.

End Format.

(** The session has been inactive for more than the allowed time. *)
Definition idle (MAX_KEEP_ALIVE now : Z) (stream : Stream.t) : Prop :=
  now - Stream.keepAlive stream > MAX_KEEP_ALIVE.

(** Whether the runtime knows the connection, and whether it is open. *)
Definition status (w : World) (ws : conn) : option bool :=
  isOpen <$> sockets w !! ws.

(** The keep-alive sweep changes nothing but the disk and the inboxes. *)
Record tables_kept (w w' : World) : Prop := {
  kept_streams : streams w' = streams w;
  kept_processes : ffmpegProcesses w' = ffmpegProcesses w;
  kept_clients : websocketClients w' = websocketClients w;
  kept_alive : alive w' = alive w;
  kept_dirs : dirs w' ⊆ dirs w
}.

(** What both periodic sweeps leave alone: the entries of
    [global.streams], the entries of [websocketClients] and which
    connections are open. *)
Record housekeeping (w w' : World) : Prop := {
  hk_streams : streams w' = streams w;
  hk_clients : websocketClients w' = websocketClients w;
  hk_status : forall ws, status w' ws = status w ws
}.

(** The reading of the clock an event comes with. *)
Definition clock (ev : Event) : option Z :=
  match ev with
  | EvUpload _ _ _ _ _ _ now => Some now
  | EvMessage _ _ _ now => Some now
  | EvReaper now => Some now
  | _ => None
  end.

(** The readings of the clock do not go backwards along the run,
    starting from the reading [t]. *)
Fixpoint chronological (t : Z) (evs : list Event) : Prop :=
  match evs with
  | [] => True
  | ev :: rest =>
      match clock ev with
      | Some now => t <= now /\ chronological now rest
      | None => chronological t rest
      end
  end.

(** No stored keep-alive is later than the reading [t]. *)
Definition not_ahead (t : Z) (w : World) : Prop :=
  forall id stream, streams w !! id = Some stream -> Stream.keepAlive stream <= t.

(** The connection is open with this entry in [websocketClients], or
    it is closed and has no entry. *)
Definition bound (ws : conn) (client : Client.t) (w : World) : Prop :=
  (status w ws = Some true /\ websocketClients w !! ws = Some client)
  \/ (status w ws = Some false /\ websocketClients w !! ws = None).

(** Nothing happened but one frame sent to the connection. *)
Record only_reply (ws : conn) (p : Payload.t) (w w' : World) : Prop := {
  reply_streams : streams w' = streams w;
  reply_processes : ffmpegProcesses w' = ffmpegProcesses w;
  reply_clients : websocketClients w' = websocketClients w;
  reply_dirs : dirs w' = dirs w;
  reply_alive : alive w' = alive w;
  reply_spawned : spawned w' = spawned w;
  reply_sockets : sockets w' = alter (deliver p) ws (sockets w)
}.

(** Every frame delivered between two worlds carries the type [ty]. *)
Definition frames_typed (ty : option string) (w w' : World) : Prop :=
  forall ws s', sockets w' !! ws = Some s' ->
    exists s new, sockets w !! ws = Some s
                  /\ inbox s' = inbox s ++ new
                  /\ Forall (fun p => Payload.type p = ty) new.

(** The frame published by the [message] command. *)
Definition chat_event (data : Data.t) (client : Client.t) : Payload.t :=
  Payload.mk true (Some "message") None (Data.message data)
    (Some (Client.username client)) (Some (Client.host client))
    (Client.country client) None None None.

(** ** A small deployment, for the examples

    Unicode tables cut down to ASCII, one stopped session that has been
    idle since time 0, its host and one more viewer. *)

Definition ascii_letter (c : N) : bool :=
  ((65 <=? c) && (c <=? 90) || (97 <=? c) && (c <=? 122))%N.

Definition ascii_digit (c : N) : bool := ((48 <=? c) && (c <=? 57))%N.

Definition example_stream : Stream.t :=
  Stream.mk "s1" "secret" stopped 1280 720 30 "5000k"
    "streams/s1" "streams/s1/video.mp4" 0 0.

(** "alice" and "bob" *)
Definition example_host : Client.t :=
  Client.mk [97; 108; 105; 99; 101]%N "10.0.0.1" None "s1" true.

Definition example_viewer : Client.t :=
  Client.mk [98; 111; 98]%N "10.0.0.2" None "s1" false.

Definition example_world : World :=
  mkWorld {[ "s1" := example_stream ]} ∅
    {[ 1%nat := example_host; 2%nat := example_viewer ]}
    {[ 1%nat := mkSocket "10.0.0.1" {[ "s1" ]} [] true;
       2%nat := mkSocket "10.0.0.2" {[ "s1" ]} [] true ]}
    {[ "streams/s1" ]} ∅ 0.

(** [{ "type": "start" }] and [{ "type": "message", "message": "hi" }],
    as the protocol describes them, and the same with a stream field. *)
Definition start_bare : Data.t := Data.mk None None None (Some "start") None.
Definition chat_bare : Data.t := Data.mk None None None (Some "message") (Some "hi").
Definition start_full : Data.t := Data.mk (Some "s1") None None (Some "start") None.
Definition chat_full : Data.t := Data.mk (Some "s1") None None (Some "message") (Some "hi").

(** A subscription of a third connection, "carol", with the host's token. *)
Definition subscribe_carol : Data.t :=
  Data.mk (Some "s1") (Some [99; 97; 114; 111; 108]%N) (Some "secret") None None.

Definition example_guest : Client.t :=
  Client.mk [99; 97; 114; 111; 108]%N "10.0.0.3" None "s1" true.

(** The server with the default settings: one hour of allowed
    inactivity, 1080p and 60 frames per second at most. *)
Definition example_message := message ascii_letter ascii_digit.

Definition example_step :=
  step ascii_letter ascii_digit (1 * 60 * 60 * 1000) "streams"
       (Utilities.maxResolution None) (Utilities.maxFramerate None).

Definition example_run :=
  run ascii_letter ascii_digit (1 * 60 * 60 * 1000) "streams"
      (Utilities.maxResolution None) (Utilities.maxFramerate None).

(** The example deployment once a third connection has been opened. *)
Definition example_world_3 : World :=
  example_step (EvOpen 3%nat "10.0.0.3") example_world.

(** * The rest of the server *)

(** ** functions.js: the address of a client *)

(** What [getClientIP] reads of a request: [headers.get(name)] for a
    lower-case name ([None] is [null]) and [request.remoteAddr]. *)
Record Request := mkRequest {
  headers : string -> option string;
  remoteAddr : option string
}.

(** [s.split(",")[0]]: the text before the first comma. *)
Fixpoint split_first (s : string) : string :=
  match s with
  | EmptyString => EmptyString
  | String c rest => if Ascii.eqb c "," then EmptyString else String c (split_first rest)
  end.

(** The characters [trim] removes, among the 256 a header value is made
    of: tab, line feed, vertical tab, form feed, carriage return, space
    and no-break space. *)
Definition isWhiteSpace (c : ascii) : bool :=
  let n := nat_of_ascii c in
  ((9 <=? n) && (n <=? 13) || (n =? 32) || (n =? 160))%nat.

Fixpoint trimStart (s : string) : string :=
  match s with
  | EmptyString => EmptyString
  | String c rest => if isWhiteSpace c then trimStart rest else s
  end.

Fixpoint trimEnd (s : string) : string :=
  match s with
  | EmptyString => EmptyString
  | String c rest =>
      match trimEnd rest with
      | EmptyString => if isWhiteSpace c then EmptyString else String c EmptyString
      | kept => String c kept
      end
  end.

(** [s.trim()] *)
Definition trim (s : string) : string := trimEnd (trimStart s).

(** [async function getClientIP(request)] *)
Definition getClientIP (request : Request) : option string :=
  (* Start by checking if Cloudflare forwarded the IP *)
  let cfConnectingIP := headers request "cf-connecting-ip" in
  if truthy cfConnectingIP then cfConnectingIP
  else
    (* Check if NGINX X-Real-IP is supplied if not *)
    let xRealIP := headers request "x-real-ip" in
    if truthy xRealIP then xRealIP
    else
      (* the first IP of the X-Forwarded-For list *)
      let xForwardedFor := headers request "x-forwarded-for" in
      if truthy xForwardedFor
      then Some (trim (split_first (default "" xForwardedFor)))
      else remoteAddr request.

(** ** functions.js before the limits of utilities.js *)

Module Old.

(** [async function getBestQuality(width, height)] *)
Definition getBestQuality (width height : Z) : Resolution :=
  if (width >=? 3840) && (height >=? 2160) then mkResolution 3840 2160
  else if (width >=? 2560) && (height >=? 1440) then mkResolution 2560 1440
  else if (width >=? 1920) && (height >=? 1080) then mkResolution 1920 1080
  else mkResolution 1280 720.

(** [async function getBestFramerate(framerate)] *)
Definition getBestFramerate (framerate : Z) : Z :=
  if framerate >=? 60 then 60 else 30.

(** [async function getBestBitrate(width, height, framerate)] *)
Definition getBestBitrate (width height framerate : Z) : string :=
  if framerate >? 30 then
    if (width >=? 3840) && (height >=? 2160) then "68000k"
    else if (width >=? 2560) && (height >=? 1440) then "24000k"
    else if (width >=? 1920) && (height >=? 1080) then "12000k"
    else "7500k"
  else
    if (width >=? 3840) && (height >=? 2160) then "45000k"
    else if (width >=? 2560) && (height >=? 1440) then "16000k"
    else if (width >=? 1920) && (height >=? 1080) then "8000k"
    else "5000k".

End Old.

(** ** The segment route *)

(** [s.endsWith(suffix)] *)
Definition endsWith (s suffix : string) : bool :=
  let n := String.length s in
  let m := String.length suffix in
  (m <=? n)%nat && String.eqb (String.substring (n - m) m s) suffix.

(** The answers of [GET /:streamID/:segment]: 404, or the file with its
    content type. *)
Inductive SegmentResponse :=
  | SegmentNotFound
  | SegmentFile (streamID segment contentType : string).

(** The [GET] handler of the route.  [fileExists streamID segment] is
    [Bun.file(join(streamsDirectory, streamID, segment)).exists()]. *)
Definition getSegment (fileExists : string -> string -> bool)
    (streamID segment : string) (w : World) : SegmentResponse :=
  (* Prevent client from accessing other files *)
  if (negb (endsWith segment ".ts") && negb (endsWith segment ".m3u8"))
     || negb (bool_decide (is_Some (streams w !! streamID)))
  then SegmentNotFound
  (* Try to get the segment *)
  else if negb (fileExists streamID segment) then SegmentNotFound
  else SegmentFile streamID segment
         (if endsWith segment ".ts" then "video/MP2T"
          else "application/vnd.apple.mpegurl").

(** ** The upload route *)

(** What [fileTypeFromBuffer] finds. *)
Record FileType := mkFileType { mime : string; ext : string }.

Definition supportedFileMimes : list string :=
  [ "video/mp4"; "video/webm"; "video/x-matroska"; "video/quicktime" ].

(** First 4 KB of the file for type detection *)
Definition MAX_PROBE_BYTES : nat := 4100.

(** The answers of [POST /upload]: 400, 413, 422, the new stream, or
    the 500 of the [error] handler of [Bun.serve] when the handler
    throws. *)
Inductive UploadResponse :=
  | NoReadableStream
  | FileTooLarge
  | UnsupportedFileType
  | StreamCreated (id token : string)
  | InternalServerError.

(** The variables of the reading loop. *)
Record Reading := mkReading {
  totalBytes : nat;
  probeBuffer : list Byte.byte;
  fileType : option FileType
}.

Section Upload.

Variable MAX_UPLOAD_SIZE : nat.
Variable streamsDirectory : string.
Variable maxResolution : Z.
Variable maxFramerate : Z.

(** [fileTypeFromBuffer] of the file-type package. *)
Variable fileTypeFromBuffer : list Byte.byte -> option FileType.

(** One turn of the loop for a chunk [value]; [None] when the turn
    returned the 413 response. *)
Definition readChunk (value : list Byte.byte) (r : Reading) : option Reading :=
  let totalBytes := (totalBytes r + length value)%nat in
  if (MAX_UPLOAD_SIZE <? totalBytes)%nat then None
  else
    let probeBuffer :=
      if (length (probeBuffer r) <? MAX_PROBE_BYTES)%nat then
        let joined := probeBuffer r ++ value in
        if (MAX_PROBE_BYTES <? length joined)%nat then take MAX_PROBE_BYTES joined
        else joined
      else probeBuffer r in
    let fileType :=
      match fileType r with
      | None =>
          if (MAX_PROBE_BYTES <=? length probeBuffer)%nat
          then fileTypeFromBuffer probeBuffer
          else None
      | Some found => Some found
      end in
    Some (mkReading totalBytes probeBuffer fileType).

(** [while (!done) { ... }] over the chunks the reader yields. *)
Fixpoint readAll (chunks : list (list Byte.byte)) (r : Reading) : option Reading :=
  match chunks with
  | [] => Some r
  | value :: rest =>
      match readChunk value r with
      | Some r' => readAll rest r'
      | None => None
      end
  end.

(** The [POST] handler of the route.  [body] is the list of chunks the
    reader yields up to the end of the request body, if there is a
    body.  [fileStream.end()] is not awaited, so whether [rename] finds
    the temporary file depends on what the write stream has done by
    then: [renamed] says whether [rename] resolved.  [metadata] is what
    [getVideoMetadata] reads of the stored file, width, height and
    frame rate, or [None] when it throws (ffprobe fails, prints no
    JSON, or finds no video stream).  A rejection or an exception in
    the handler is answered with the 500 of the [error] handler. *)
Definition postUpload (rngId rngToken : nat -> Byte.byte)
    (body : option (list (list Byte.byte)))
    (renamed : bool) (metadata : option (Z * Z * Z)) (now : Z) (w : World)
    : UploadResponse * World :=
  let id := generateRandomString rngId 32 in
  let token := generateRandomString rngToken 16 in
  let directoryPath := join streamsDirectory id in
  let w := mkdir directoryPath w in
  match body with
  | None => (NoReadableStream, w)
  | Some chunks =>
      match readAll chunks (mkReading 0 [] None) with
      | None => (FileTooLarge, w)
      | Some r =>
          let fileType :=
            match fileType r with
            | None => fileTypeFromBuffer (probeBuffer r)
            | Some found => Some found
            end in
          match fileType with
          | Some found =>
              if bool_decide (mime found ∈ supportedFileMimes) then
                let finalVideoPath := join directoryPath ("video." +:+ ext found) in
                (* await rename(tempPath, finalVideoPath) *)
                if negb renamed then (InternalServerError, w)
                else
                  (* const metadata = await getVideoMetadata(finalVideoPath) *)
                  match metadata with
                  | None => (InternalServerError, w)
                  | Some (metaWidth, metaHeight, metaFramerate) =>
                      let quality := getBestQuality maxResolution metaWidth metaHeight in
                      let framerate := getBestFramerate maxFramerate metaFramerate in
                      let bitrate :=
                        getBestBitrate (width quality) (height quality) framerate in
                      (StreamCreated id token,
                       with_streams
                         (insert id
                            (Stream.mk id token stopped (width quality) (height quality)
                               framerate bitrate directoryPath finalVideoPath now now)) w)
                  end
              else (UnsupportedFileType, w)
          | None => (UnsupportedFileType, w)
          end
      end
  end.

End Upload.

(** ** Shutdown *)

Section Shutdown.

Variable streamsDirectory : string.

(** The body of the loop of the [unhandledRejection] and
    [uncaughtException] handlers. *)
Definition stop_process (entry : string * Subprocess) (w : World) : Outcome :=
  let '(id, ffmpeg) := entry in
  if negb (killed ffmpeg w)
  then killStream (KString id) (Some (join streamsDirectory id)) w
  else Returned w.

(** [for (const [id, ffmpeg] of global.ffmpegProcesses) { ... }], after
    which the handlers leave with [process.exit(1)]. *)
Definition shutdown (w : World) : Outcome :=
  forOf stop_process (map_to_list (ffmpegProcesses w)) w.

End Shutdown.

(** ** More vocabulary *)

(** Every entry of [global.streams] is stored under its own id. *)
Definition keyed_by_id (w : World) : Prop :=
  forall key stream, streams w !! key = Some stream -> Stream.id stream = key.

(** Every connection with an entry in [websocketClients] is open and
    subscribed to the topic of its stream. *)
Definition viewers_subscribed (w : World) : Prop :=
  forall ws client, websocketClients w !! ws = Some client ->
    exists s, sockets w !! ws = Some s
              /\ isOpen s = true
              /\ Client.stream client ∈ topics s.

(** All the characters of the text are white space. *)
Definition blank (s : string) : Prop :=
  Forall (fun c => isWhiteSpace c = true) (list_ascii_of_string s).

(** The invariant of the reading loop of the upload: after the bytes
    [seen], the counter is their number, the probe buffer their first
    4100, and a type that has been found is the type of those first
    4100 bytes. *)
Record reading_of (fileTypeFromBuffer : list Byte.byte -> option FileType)
    (seen : list Byte.byte) (r : Reading) : Prop := {
  reading_total : totalBytes r = length seen;
  reading_probe : probeBuffer r = take MAX_PROBE_BYTES seen;
  reading_type : forall found, fileType r = Some found ->
                   (MAX_PROBE_BYTES <= length seen)%nat
                   /\ fileTypeFromBuffer (take MAX_PROBE_BYTES seen) = Some found
}.

(** The topics a connection is subscribed to and whether it is open. *)
Definition subscriptions (w : World) (ws : conn) : option (gset string * bool) :=
  (fun s => (topics s, isOpen s)) <$> sockets w !! ws.

(** The frames a connection has been delivered and whether it is open. *)
Definition mailbox (w : World) (ws : conn) : option (list Payload.t * bool) :=
  (fun s => (inbox s, isOpen s)) <$> sockets w !! ws.

(** Between [w] and [w'] nothing happened to the connections but
    deliveries: the entries of [websocketClients], the topics and the
    open connections are the same. *)
Record deliveries_only (w w' : World) : Prop := {
  same_clients : websocketClients w' = websocketClients w;
  same_subscriptions : forall ws, subscriptions w' ws = subscriptions w ws
}.

(** Two more commands for the examples. *)
Definition keepAlive_full : Data.t := Data.mk (Some "s1") None None (Some "keepAlive") None.
Definition dance_full : Data.t := Data.mk (Some "s1") None None (Some "dance") None.

(** The example deployment once its host has started the stream, and
    once the process of the stream has ended instead. *)
Definition example_started : World :=
  example_step (EvMessage 1%nat (Json start_full) None 100) example_world.

Definition example_ended : World :=
  example_step (EvExited "s1" "streams/s1") example_world.

(** * The message handler, cut at its awaits

    [message] is the handler taken to its end before anything else
    happens.  On the way to a subscription the source awaits twice,
    the promise of [RegexCheck.username] and the lookup of the address;
    another message of the same connection, or its close, can be
    handled at either place.  Here the subscription is in its three
    parts, and the server takes turns that may fall between them. *)

(** Where a subscription waits, and what it holds on to: the result of
    the username test, or the address and the token it has read. *)
Inductive Suspended :=
  | AwaitUsername (data : Data.t) (valid : bool)
  | AwaitCountry (data : Data.t) (ip : string) (streamToken : string).

(** A handler has ended, or waits with the world as it left it. *)
Inductive Progress :=
  | Done (o : Outcome)
  | Suspend (k : Suspended) (w : World).

Section Overlap.

Variable unicode_L : N -> bool.
Variable unicode_N : N -> bool.
Variable MAX_KEEP_ALIVE : Z.
Variable streamsDirectory : string.
Variable maxResolution : Z.
Variable maxFramerate : Z.

(** From [if (!websocketClients.has(ws))] to
    [await RegexCheck.username(data.username)]. *)
Definition subscribe_begin (ws : conn) (data : Data.t) (w : World) : Progress :=
  let id := default "" (Data.stream data) in
  (* Check if the client is trying to watch a stream that doesn't exist *)
  if negb (truthy (Data.stream data)) then
    Done (reject ws (Data.type data)
            ("Stream " +:+ show (Data.stream data) +:+ " doesn't exist!") w)
  else
    match streams w !! id with
    | None =>
        Done (reject ws (Data.type data)
                ("Stream " +:+ show (Data.stream data) +:+ " doesn't exist!") w)
    | Some _ =>
        (* Check if the client supplied a username *)
        if negb (truthy_u (Data.username data)) then
          Done (reject ws (Data.type data) "No username supplied!" w)
        else
          Suspend (AwaitUsername data
                     (RegexCheck.username unicode_L unicode_N
                        (default [] (Data.username data)))) w
    end.

(** From the answer of the username test to the [await fetch(...)]
    inside the entry: the token is read from [global.streams], which
    throws when the stream is gone by now, the connection is
    subscribed, and [ws.data.ip] is read. *)
Definition subscribe_checked (ws : conn) (data : Data.t) (valid : bool)
    (w : World) : Progress :=
  let id := default "" (Data.stream data) in
  if negb valid then
    Done (reject ws (Data.type data)
      "Only alphabetical characters, numbers, spaces and the characters '.-_@' are allowed in a username (minimum 3 characters, maximum 20 characters)!" w)
  else
    match streams w !! id with
    | None =>
        Done (Threw (TypeError
          "undefined is not an object (evaluating 'global.streams.get(data.stream).token')") w)
    | Some stream =>
        (* Get the stream's token *)
        let streamToken := Stream.token stream in
        let w := ws_subscribe ws id w in
        Suspend (AwaitCountry data (from_option data_ip "" (sockets w !! ws)) streamToken) w
    end.

(** From the answer of the lookup to the end: the entry is stored and
    the success frame sent. *)
Definition subscribe_register (ws : conn) (data : Data.t) (ip streamToken : string)
    (geo : option string) (w : World) : Outcome :=
  let id := default "" (Data.stream data) in
  let client :=
    Client.mk (default [] (Data.username data)) ip geo id
      (bool_decide (Some streamToken = Data.token data)) in
  let w := with_websocketClients (insert ws client) w in
  Returned (ws_send ws
    (Payload.ok (Data.type data) ("Now watching stream " +:+ id +:+ "!")) w).

(** A waiting subscription goes on; [geo] is the answer of the lookup. *)
Definition resume (ws : conn) (k : Suspended) (geo : option string) (w : World)
    : Progress :=
  match k with
  | AwaitUsername data valid => subscribe_checked ws data valid w
  | AwaitCountry data ip streamToken =>
      Done (subscribe_register ws data ip streamToken geo w)
  end.

(** [async message(ws, message)] up to its first await, or to its end
    when it does not get there. *)
Definition message_begin (ws : conn) (parsed : Parsed) (now : Z) (w : World)
    : Progress :=
  match parsed with
  | SyntaxError =>
      Done (Threw (TypeError "undefined is not an object (evaluating 'data.type')") w)
  | JsonNull =>
      Done (Threw (TypeError "null is not an object (evaluating 'data.stream')") w)
  | Json data =>
      (* Check if a stream ID's been supplied *)
      if negb (truthy (Data.stream data)) then
        Done (reject ws (Data.type data) "No stream supplied!" w)
      else
        match websocketClients w !! ws with
        | None => subscribe_begin ws data w
        | Some client =>
            match streams w !! Client.stream client with
            | None =>
                Done (reject ws (Data.type data)
                        ("Stream " +:+ show (Data.stream data) +:+ " ended!") w)
            | Some stream =>
                if decide (Data.type data = Some "start") then
                  Done (command_start ws data client stream now w)
                else if decide (Data.type data = Some "keepAlive") then
                  Done (command_keepAlive ws data client stream now w)
                else if decide (Data.type data = Some "message") then
                  Done (command_message ws data client stream now w)
                else
                  Done (command_default ws data w)
            end
        end
  end.

(** A handler that is resumed as soon as it waits. *)
Definition uninterrupted (ws : conn) (geo : option string) (p : Progress) : Outcome :=
  match p with
  | Done o => o
  | Suspend k w =>
      match resume ws k geo w with
      | Done o => o
      | Suspend k' w' =>
          match resume ws k' geo w' with
          | Done o => o
          | Suspend _ w'' => Returned w''
          end
      end
  end.

(** The server between two turns: the world and the subscriptions that
    wait, each with its connection. *)
Record Server := mkServer {
  world : World;
  waiting : list (conn * Suspended)
}.

(** What can happen next: an event handled whole (an upload, an open or
    a close, a sweep, the end of a process; a message whose lookups
    answer at once), a message whose handler runs up to its first
    await, a waiting subscription that goes on, or one whose lookup
    rejects, which makes its handler throw there.  The other awaits of
    the server, in [startStream], [killStream] and the upload, lie
    inside the events handled whole. *)
Inductive Turn :=
  | Occurs (ev : Event)
  | Arrives (ws : conn) (parsed : Parsed) (now : Z)
  | Resumes (i : nat) (geo : option string)
  | Rejects (i : nat).

Definition turn (t : Turn) (s : Server) : Server :=
  match t with
  | Occurs ev =>
      mkServer
        (step unicode_L unicode_N MAX_KEEP_ALIVE streamsDirectory maxResolution
           maxFramerate ev (world s))
        (waiting s)
  | Arrives ws parsed now =>
      match sockets (world s) !! ws with
      | Some sock =>
          if isOpen sock then
            match message_begin ws parsed now (world s) with
            | Done o => mkServer (world_of o) (waiting s)
            | Suspend k w' => mkServer w' (waiting s ++ [(ws, k)])
            end
          else s
      | None => s
      end
  | Resumes i geo =>
      match waiting s !! i with
      | Some (ws, k) =>
          match resume ws k geo (world s) with
          | Done o => mkServer (world_of o) (delete i (waiting s))
          | Suspend k' w' => mkServer w' (delete i (waiting s) ++ [(ws, k')])
          end
      | None => s
      end
  | Rejects i =>
      match waiting s !! i with
      | Some (_, AwaitCountry _ _ _) => mkServer (world s) (delete i (waiting s))
      | _ => s
      end
  end.

Definition play (turns : list Turn) (s : Server) : Server :=
  foldl (fun s t => turn t s) s turns.

(** The subscription that is about to register, if this turn is one,
    finds its connection open. *)
Definition registers_open (t : Turn) (s : Server) : Prop :=
  match t with
  | Resumes i _ =>
      match waiting s !! i with
      | Some (ws, AwaitCountry _ _ _) => status (world s) ws = Some true
      | _ => True
      end
  | _ => True
  end.

(** No subscription of the run registers on a closed connection. *)
Fixpoint registrations_open (turns : list Turn) (s : Server) : Prop :=
  match turns with
  | [] => True
  | t :: rest => registers_open t s /\ registrations_open rest (turn t s)
  end.

(** Every connection that waits is known to the runtime and, if it is
    open and waits for the lookup, subscribed to the topic it asked
    for. *)
Definition waiting_subscribed (s : Server) : Prop :=
  forall ws k, (ws, k) ∈ waiting s ->
    exists joined open, subscriptions (world s) ws = Some (joined, open)
      /\ match k with
         | AwaitCountry data _ _ =>
             open = true -> default "" (Data.stream data) ∈ joined
         | AwaitUsername _ _ => True
         end.

(** Between [w] and [w'] every known connection stays known, no closed
    one is opened, and an open one keeps its topics. *)
Definition sockets_kept (w w' : World) : Prop :=
  forall ws joined open, subscriptions w ws = Some (joined, open) ->
    exists joined' open', subscriptions w' ws = Some (joined', open')
      /\ (open' = true -> open = true /\ joined ⊆ joined').

End Overlap.

(** A subscription of the third connection with a token that is not
    the host's. *)
Definition subscribe_guess : Data.t :=
  Data.mk (Some "s1") (Some [99; 97; 114; 111; 108]%N) (Some "guess") None None.

Definition example_turn :=
  turn ascii_letter ascii_digit (1 * 60 * 60 * 1000) "streams"
       (Utilities.maxResolution None) (Utilities.maxFramerate None).

Definition example_play :=
  play ascii_letter ascii_digit (1 * 60 * 60 * 1000) "streams"
       (Utilities.maxResolution None) (Utilities.maxFramerate None).

(** * Properties *)

(** ** Target resolution *)

Lemma maxResolution_cases (env : option string) :
  In (Utilities.maxResolution env)
     [7680 * 4320; 3840 * 2160; 2560 * 1440; 1920 * 1080; 1280 * 720].
Proof.
  unfold Utilities.maxResolution, Utilities.lookup_or, Utilities.resolutions.
  destruct env as [key|]; [|simpl; tauto].
  repeat (match goal with
          | |- context [String.eqb key ?k] => destruct (String.eqb key k)
          end; [simpl; tauto|]).
  simpl; tauto.
Qed.

Lemma getBestQuality_landscape (M w h : Z) :
  (w <? h) = false -> In (getBestQuality M w h) tiers.
Proof.
  intros Hwh. unfold getBestQuality, tiers. rewrite Hwh.
  repeat match goal with
         | |- context [if ?b then _ else _] => destruct b
         end; simpl; tauto.
Qed.

Lemma getBestQuality_portrait (M w h : Z) :
  (w <? h) = true -> In (swap (getBestQuality M w h)) tiers.
Proof.
  intros Hwh. unfold getBestQuality, tiers. rewrite Hwh.
  repeat match goal with
         | |- context [if ?b then _ else _] => destruct b
         end; simpl; tauto.
Qed.

Lemma tiers_landscape (r : Resolution) :
  In r tiers -> height r < width r.
Proof.
  unfold tiers. simpl. intros H.
  repeat (destruct H as [<-|H]; [simpl; lia|]). contradiction.
Qed.

Lemma getBestQuality_capped (M w h : Z) :
  1280 * 720 <= M ->
  width (getBestQuality M w h) * height (getBestQuality M w h) <= M.
Proof.
  intros HM. unfold getBestQuality.
  destruct (w <? h);
    repeat match goal with
           | |- context [if (?a >=? ?b) && ?c && ?d then _ else _] =>
               destruct (Z.geb_spec a b); simpl andb;
               [destruct (c && d)%bool|]
           end; simpl; lia.
Qed.

(** C10: [getBestQuality] keeps the orientation of the source, answers
    with one of the five tiers (its sides exchanged for a portrait
    source), and never exceeds the configured maximum resolution. *)
Theorem getBestQuality_preserves_orientation (env : option string) (w h : Z) :
  let r := getBestQuality (Utilities.maxResolution env) w h in
  (width r <? height r) = (w <? h)
  /\ In (if w <? h then swap r else r) tiers
  /\ width r * height r <= Utilities.maxResolution env.
Proof.
  intros r. subst r.
  set (M := Utilities.maxResolution env).
  assert (HM : 1280 * 720 <= M).
  { pose proof (maxResolution_cases env) as H. fold M in H. simpl in H.
    repeat (destruct H as [<-|H]; [lia|]). contradiction. }
  split; [|split].
  - destruct (w <? h) eqn:Hwh.
    + pose proof (tiers_landscape _ (getBestQuality_portrait M w h Hwh)) as Ht.
      simpl in Ht. apply Z.ltb_lt. exact Ht.
    + pose proof (tiers_landscape _ (getBestQuality_landscape M w h Hwh)) as Ht.
      apply Z.ltb_ge. lia.
  - destruct (w <? h) eqn:Hwh.
    + by apply getBestQuality_portrait.
    + by apply getBestQuality_landscape.
  - by apply getBestQuality_capped.
Qed.

Example getBestQuality_portrait_1080 :
  getBestQuality (Utilities.maxResolution None) 1080 1920 = mkResolution 1080 1920.
Proof. reflexivity. Qed.

Example getBestQuality_capped_4k_source :
  getBestQuality (Utilities.maxResolution (Some "1440p")) 3840 2160 = mkResolution 2560 1440.
Proof. reflexivity. Qed.

(** ** Random identifiers *)

Lemma charset_alphanumeric :
  String.length charset = 62%nat
  /\ forallb alphanumeric (list_ascii_of_string charset) = true
  /\ NoDup (list_ascii_of_string charset).
Proof.
  split; [reflexivity|]. split; [reflexivity|].
  apply (bool_decide_unpack (NoDup (list_ascii_of_string charset))).
  vm_compute. exact I.
Qed.

Lemma get_in_string (s : string) (i : nat) (c : ascii) :
  String.get i s = Some c -> In c (list_ascii_of_string s).
Proof.
  revert i. induction s as [|a s IH]; intros i H; [discriminate|].
  destruct i as [|i]; simpl in *.
  - left. congruence.
  - right. eauto.
Qed.

Lemma get_in_range (s : string) (i : nat) :
  (i < String.length s)%nat -> exists c, String.get i s = Some c.
Proof.
  revert i. induction s as [|a s IH]; intros i H; simpl in *; [lia|].
  destruct i as [|i]; [eauto|]. apply IH. lia.
Qed.

Lemma charAt_charset (i : nat) :
  exists c, charAt charset (i mod String.length charset) = String c EmptyString
            /\ In c (list_ascii_of_string charset).
Proof.
  destruct (get_in_range charset (i mod String.length charset)) as [c Hc].
  { apply Nat.mod_upper_bound. discriminate. }
  exists c. unfold charAt. rewrite Hc. split; [reflexivity|].
  eapply get_in_string; eauto.
Qed.

Lemma string_app_length (a b : string) :
  String.length (a +:+ b) = (String.length a + String.length b)%nat.
Proof. induction a as [|c a IH]; simpl; [reflexivity|]. by rewrite IH. Qed.

Lemma string_app_chars (a b : string) :
  list_ascii_of_string (a +:+ b) = list_ascii_of_string a ++ list_ascii_of_string b.
Proof. induction a as [|c a IH]; simpl; [reflexivity|]. by rewrite IH. Qed.

(** The loop invariant of [generateRandomString]: after the turns for
    the indices [is], all of them inside [bytes], the text has grown by
    one charset character per turn. *)
Lemma generate_loop (bytes : list Byte.byte) (indices : list nat) (auth : string) :
  Forall (fun i => is_Some (bytes !! i)) indices ->
  Forall (fun c => In c (list_ascii_of_string charset)) (list_ascii_of_string auth) ->
  String.length (foldl (appendRandomChar bytes) auth indices)
    = (String.length auth + length indices)%nat
  /\ Forall (fun c => In c (list_ascii_of_string charset))
            (list_ascii_of_string (foldl (appendRandomChar bytes) auth indices)).
Proof.
  revert auth. induction indices as [|i rest IH]; intros auth Hin Hauth; simpl.
  - split; [lia | exact Hauth].
  - inversion Hin as [|? ? [b Hb] Hrest]; subst.
    destruct (charAt_charset (N.to_nat (Byte.to_N b))) as (c & Hc & Hcin).
    assert (Hstep : appendRandomChar bytes auth i = auth +:+ String c EmptyString).
    { unfold appendRandomChar. by rewrite Hb, Hc. }
    rewrite Hstep.
    destruct (IH (auth +:+ String c EmptyString) Hrest) as [Hlen Hall].
    { rewrite string_app_chars. apply Forall_app_2; [exact Hauth|].
      change (list_ascii_of_string (String c EmptyString)) with [c].
      constructor; [exact Hcin | constructor]. }
    split; [|exact Hall].
    rewrite Hlen, string_app_length. simpl. lia.
Qed.

Lemma randomBytes_lookup (rng : nat -> Byte.byte) (n i : nat) :
  (i < n)%nat -> randomBytes rng n !! i = Some (rng i).
Proof.
  intros Hi. unfold randomBytes. rewrite list_lookup_fmap.
  rewrite lookup_seq_lt by exact Hi. reflexivity.
Qed.

Lemma generateRandomString_chars (rng : nat -> Byte.byte) (n : nat) :
  String.length (generateRandomString rng n) = n
  /\ Forall (fun c => In c (list_ascii_of_string charset))
            (list_ascii_of_string (generateRandomString rng n)).
Proof.
  unfold generateRandomString.
  destruct (generate_loop (randomBytes rng n) (seq 0 n) "") as [Hlen Hall].
  - apply Forall_forall. intros i Hi. apply elem_of_seq in Hi.
    rewrite randomBytes_lookup by lia. eauto.
  - constructor.
  - split; [|exact Hall]. rewrite Hlen, length_seq. reflexivity.
Qed.

Lemma generateRandomString_over_charset (rng : nat -> Byte.byte) (n : nat) :
  over_charset (generateRandomString rng n).
Proof.
  destruct (generateRandomString_chars rng n) as [_ Hall].
  destruct charset_alphanumeric as (_ & Halnum & _).
  unfold over_charset. eapply Forall_impl; [exact Hall|].
  intros c Hc. split; [exact Hc|].
  rewrite forallb_forall in Halnum. by apply Halnum.
Qed.

(** C9: [generateRandomString(n)] has exactly [n] characters, all of
    them among the 62 letters and digits of the charset; the id and the
    token stored by an upload have 32 and 16 such characters. *)
Theorem generateRandomString_length_and_alphabet
    (rng : nat -> Byte.byte) (n : nat)
    (streamsDirectory : string) (maxResolution maxFramerate : Z)
    (rngId rngToken : nat -> Byte.byte) (ext : string)
    (metaWidth metaHeight metaFramerate now : Z) (w : World) :
  (String.length (generateRandomString rng n) = n
   /\ over_charset (generateRandomString rng n)
   /\ String.length charset = 62%nat
   /\ NoDup (list_ascii_of_string charset))
  /\ exists stream,
       streams (upload streamsDirectory maxResolution maxFramerate rngId rngToken
                  ext metaWidth metaHeight metaFramerate now w)
         !! generateRandomString rngId 32 = Some stream
       /\ String.length (Stream.id stream) = 32%nat
       /\ over_charset (Stream.id stream)
       /\ String.length (Stream.token stream) = 16%nat
       /\ over_charset (Stream.token stream).
Proof.
  split.
  - split; [apply generateRandomString_chars|].
    split; [apply generateRandomString_over_charset|].
    destruct charset_alphanumeric as (Hlen & _ & Hnodup). by split.
  - eexists. split.
    + unfold upload, with_streams. apply lookup_insert_eq.
    + pose proof (generateRandomString_chars rngId 32) as [Hid _].
      pose proof (generateRandomString_chars rngToken 16) as [Htoken _].
      split; [exact Hid|].
      split; [exact (generateRandomString_over_charset rngId 32)|].
      split; [exact Htoken | exact (generateRandomString_over_charset rngToken 16)].
Qed.

Example generateRandomString_three :
  generateRandomString (fun i => default Byte.x00 (Byte.of_nat (i * 70))) 3 = "AIQ".
Proof. reflexivity. Qed.

(** ** The username format *)

Section UsernameFormat.

Variable unicode_L : N -> bool.
Variable unicode_N : N -> bool.

Lemma username_class_allowed (c : N) :
  RegexCheck.username_class unicode_L unicode_N c = true
  <-> allowed_character unicode_L unicode_N c.
Proof.
  unfold RegexCheck.username_class, allowed_character.
  rewrite !orb_true_iff, !N.eqb_eq. tauto.
Qed.

(** What the bounded repetition followed by [$] accepts. *)
Lemma match_repeat_end (cls : N -> bool) (s : ustring) :
  forall lo extra : nat,
    RegexCheck.match_repeat cls lo extra RegexCheck.match_end s = true
    <-> Forall (fun c => cls c = true) s /\ (lo <= length s <= lo + extra)%nat.
Proof.
  induction s as [|c s IH]; intros lo extra.
  - destruct lo as [|lo]; [destruct extra|]; simpl.
    + split; [intros _; split; [apply Forall_nil_2 | lia] | reflexivity].
    + split; [intros _; split; [apply Forall_nil_2 | lia] | reflexivity].
    + split; [discriminate | intros [_ H]; lia].
  - destruct lo as [|lo]; [destruct extra as [|extra]|]; simpl.
    + split; [discriminate | intros [_ H]; lia].
    + rewrite orb_false_r, andb_true_iff, IH, Forall_cons. split.
      * intros (Hc & Hs & Hlen). repeat split; try done; lia.
      * intros ((Hc & Hs) & Hlen). repeat split; try done; lia.
    + rewrite andb_true_iff, IH, Forall_cons. split.
      * intros (Hc & Hs & Hlen). repeat split; try done; lia.
      * intros ((Hc & Hs) & Hlen). repeat split; try done; lia.
Qed.

Lemma username_format_iff (u : ustring) :
  RegexCheck.username unicode_L unicode_N u = true
  <-> username_format unicode_L unicode_N u.
Proof.
  unfold RegexCheck.username, username_format.
  rewrite match_repeat_end. simpl.
  split; intros [Hall Hlen]; (split; [|lia]);
    (eapply Forall_impl; [exact Hall|]); intros c; apply username_class_allowed.
Qed.

End UsernameFormat.

(** ** Forced teardown *)

(** What [killStream] leaves alone when its first argument is not a
    string: the key is in neither map. *)
Lemma killStream_foreign_key (k : Key) (path : string) (w : World) :
  (forall s, k <> KString s) ->
  killStream k (Some path) w = Returned (with_dirs (fun d => d ∖ {[path]}) w).
Proof.
  intros Hk. unfold killStream.
  assert (Hget : forall V (m : gmap string V), Map_get m k = None).
  { intros V m. destruct k; [by destruct (Hk s) | done | done]. }
  rewrite !Hget. unfold Map_has.
  destruct (negb (truthy (Some path))); simpl; by rewrite Hget.
Qed.

Lemma handle_or_undefined_foreign (o : option Subprocess) (s : string) :
  handle_or_undefined o <> KString s.
Proof. by destruct o. Qed.

(** ** The keep-alive sweep *)

Lemma tables_kept_refl (w : World) : tables_kept w w.
Proof. by split. Qed.

Lemma tables_kept_trans (w1 w2 w3 : World) :
  tables_kept w1 w2 -> tables_kept w2 w3 -> tables_kept w1 w3.
Proof.
  intros [Hs1 Hp1 Hc1 Ha1 Hd1] [Hs2 Hp2 Hc2 Ha2 Hd2].
  split; [congruence | congruence | congruence | congruence |].
  by transitivity (dirs w2).
Qed.

Section Sweep.

Variable MAX_KEEP_ALIVE : Z.

Lemma sweep_stream_kept (now : Z) (id : string) (stream : Stream.t) (w : World) :
  exists w', sweep_stream MAX_KEEP_ALIVE now (id, stream) w = Returned w'
             /\ tables_kept w w'
             /\ (idle MAX_KEEP_ALIVE now stream -> Stream.directory stream ∉ dirs w').
Proof.
  unfold sweep_stream, idle.
  destruct (Z.gtb_spec (now - Stream.keepAlive stream) MAX_KEEP_ALIVE) as [Hidle|Hfresh].
  - rewrite killStream_foreign_key by (intros s; apply handle_or_undefined_foreign).
    eexists. split; [reflexivity|].
    destruct (0 <? viewers id w)%nat; simpl;
      (split; [split; simpl; try done; apply subseteq_difference_l; done
              | intros _; apply not_elem_of_difference; right; by apply elem_of_singleton]).
  - eexists. split; [reflexivity|].
    destruct (0 <? viewers id w)%nat; simpl;
      (split; [split; simpl; try done | intros; lia]).
Qed.

Lemma sweep_all_kept (now : Z) (entries : list (string * Stream.t)) :
  forall w, exists w',
    forOf (sweep_stream MAX_KEEP_ALIVE now) entries w = Returned w'
    /\ tables_kept w w'
    /\ (forall id stream, (id, stream) ∈ entries -> idle MAX_KEEP_ALIVE now stream ->
          Stream.directory stream ∉ dirs w').
Proof.
  induction entries as [|[id stream] rest IH]; intros w; cbn [forOf].
  - exists w. split; [reflexivity|]. split; [apply tables_kept_refl|].
    intros id stream Hin. by apply elem_of_nil in Hin.
  - destruct (sweep_stream_kept now id stream w) as (w1 & -> & Hkept1 & Hdir1).
    cbn [andThen]. destruct (IH w1) as (w' & -> & Hkept' & Hdir').
    exists w'. split; [reflexivity|].
    split; [by eapply tables_kept_trans|].
    intros id0 stream0 Hin Hidle. apply elem_of_cons in Hin as [Heq|Hin].
    + inversion Heq; subst. intros Hstill.
      apply (Hdir1 Hidle). by apply (kept_dirs _ _ Hkept').
    + by eapply Hdir'.
Qed.

(** C1: an idle session survives the keep-alive sweep.  The sweep
    hands [killStream] the process handle where the stream id is
    expected, so that nothing is found under that key: the working
    directory is removed, but the entry stays in [global.streams], the
    process table is unchanged and no process is killed. *)
Theorem reaper_keeps_idle_session (now : Z) (w : World) (id : string)
    (stream : Stream.t) :
  streams w !! id = Some stream ->
  now - Stream.keepAlive stream > MAX_KEEP_ALIVE ->
  exists w',
    reaper MAX_KEEP_ALIVE now w = Returned w'
    /\ streams w' !! id = Some stream
    /\ ffmpegProcesses w' = ffmpegProcesses w
    /\ alive w' = alive w
    /\ Stream.directory stream ∉ dirs w'.
Proof.
  intros Hstream Hidle. unfold reaper.
  destruct (sweep_all_kept now (map_to_list (streams w)) w) as (w' & Hrun & Hkept & Hdir).
  exists w'. split; [exact Hrun|]. destruct Hkept as [Hs Hp _ Ha _].
  rewrite Hs. repeat split; try done.
  apply (Hdir id stream); [|exact Hidle].
  by apply elem_of_map_to_list.
Qed.

End Sweep.

(** ** Loops *)

(** A relation between worlds that every turn of a loop respects holds
    between the start and the end of the loop, also when a turn threw. *)
Lemma forOf_respects {A} (R : World -> World -> Prop)
    (body : A -> World -> Outcome) (xs : list A) :
  (forall w, R w w) ->
  (forall w1 w2 w3, R w1 w2 -> R w2 w3 -> R w1 w3) ->
  (forall x w, R w (world_of (body x w))) ->
  forall w, R w (world_of (forOf body xs w)).
Proof.
  intros Hrefl Htrans Hbody. induction xs as [|x rest IH]; intros w; cbn [forOf].
  - apply Hrefl.
  - pose proof (Hbody x w) as Hx. destruct (body x w) as [w1|e w1]; cbn in *.
    + eapply Htrans; [exact Hx | apply IH].
    + exact Hx.
Qed.

(** ** Connections *)

Lemma isOpen_deliver (p : Payload.t) (s : Socket) : isOpen (deliver p s) = isOpen s.
Proof. unfold deliver. by destruct (isOpen s) eqn:E. Qed.

Lemma status_ws_send (ws ws' : conn) (p : Payload.t) (w : World) :
  status (ws_send ws p w) ws' = status w ws'.
Proof.
  unfold status, ws_send. simpl. rewrite lookup_alter. case_decide; [subst|done].
  destruct (sockets w !! ws') as [s|]; simpl; [|done]. by rewrite isOpen_deliver.
Qed.

Lemma status_server_publish (topic : string) (ws' : conn) (p : Payload.t) (w : World) :
  status (server_publish topic p w) ws' = status w ws'.
Proof.
  unfold status, server_publish. simpl. rewrite lookup_fmap.
  destruct (sockets w !! ws') as [s|]; simpl; [|done].
  case_decide; [|done]. by rewrite isOpen_deliver.
Qed.

Lemma status_ws_subscribe (ws ws' : conn) (topic : string) (w : World) :
  status (ws_subscribe ws topic w) ws' = status w ws'.
Proof.
  unfold status, ws_subscribe. simpl. rewrite lookup_alter. case_decide; [subst|done].
  by destruct (sockets w !! ws').
Qed.

Lemma status_ws_unsubscribe (ws ws' : conn) (topic : string) (w : World) :
  status (ws_unsubscribe ws topic w) ws' = status w ws'.
Proof.
  unfold status, ws_unsubscribe. simpl. rewrite lookup_alter. case_decide; [subst|done].
  by destruct (sockets w !! ws').
Qed.

Lemma status_forget (ws ws' : conn) (w : World) :
  status (forget ws w) ws' = status w ws'.
Proof.
  unfold forget. destruct (websocketClients w !! ws) as [client|]; [|done].
  change (status (ws_unsubscribe ws (Client.stream client) w) ws' = status w ws').
  apply status_ws_unsubscribe.
Qed.

Lemma clients_forget (ws ws' : conn) (w : World) :
  websocketClients (forget ws w) !! ws'
  = if decide (ws = ws') then None else websocketClients w !! ws'.
Proof.
  unfold forget. destruct (websocketClients w !! ws) eqn:E; simpl.
  - apply lookup_delete.
  - case_decide; congruence.
Qed.

Lemma status_close (ws ws' : conn) (w : World) :
  status (close ws w) ws'
  = if decide (ws = ws') then (fun _ => false) <$> status w ws' else status w ws'.
Proof.
  unfold close. rewrite status_forget. unfold status. simpl.
  rewrite lookup_alter. case_decide; [subst|done].
  by destruct (sockets w !! ws').
Qed.

Lemma clients_close (ws ws' : conn) (w : World) :
  websocketClients (close ws w) !! ws'
  = if decide (ws = ws') then None else websocketClients w !! ws'.
Proof. unfold close. by rewrite clients_forget. Qed.

Lemma streams_close (ws : conn) (w : World) : streams (close ws w) = streams w.
Proof.
  unfold close, forget. simpl. by destruct (websocketClients w !! ws).
Qed.

Lemma status_open (ws ws' : conn) (address : string) (w : World) :
  ws <> ws' -> status (open ws address w) ws' = status w ws'.
Proof.
  intros Hne. unfold open. rewrite status_forget. unfold status. simpl.
  by rewrite lookup_insert_ne.
Qed.

Lemma clients_open (ws ws' : conn) (address : string) (w : World) :
  ws <> ws' -> websocketClients (open ws address w) !! ws' = websocketClients w !! ws'.
Proof.
  intros Hne. unfold open. rewrite clients_forget. simpl. by case_decide.
Qed.

(** ** Housekeeping *)

Lemma housekeeping_refl (w : World) : housekeeping w w.
Proof. by split. Qed.

Lemma housekeeping_trans (w1 w2 w3 : World) :
  housekeeping w1 w2 -> housekeeping w2 w3 -> housekeeping w1 w3.
Proof.
  intros [Hs1 Hc1 Ho1] [Hs2 Hc2 Ho2]. split; [congruence | congruence |].
  intros ws. by rewrite Ho2, Ho1.
Qed.

Lemma killStream_unregistered (id : string) (path : option string) (w : World) :
  streams w !! id = None ->
  housekeeping w (world_of (killStream (KString id) path w)).
Proof.
  intros Hnone. unfold killStream, Map_has. cbn [Map_get Map_delete ToBoolean].
  destruct (ffmpegProcesses w !! id) as [ffmpeg|]; cbn [streams kill with_alive
    with_ffmpegProcesses]; rewrite Hnone;
    destruct (negb (truthy path)); destruct path as [p|]; cbn; rewrite ?Hnone;
    by split.
Qed.

Lemma sweep_stream_housekeeping (M now : Z) (entry : string * Stream.t) (w : World) :
  housekeeping w (world_of (sweep_stream M now entry w)).
Proof.
  destruct entry as [id stream]. unfold sweep_stream.
  destruct (now - Stream.keepAlive stream >? M).
  - rewrite killStream_foreign_key by (intros s; apply handle_or_undefined_foreign).
    cbn [andThen world_of]. destruct (0 <? viewers id w)%nat; split; try done.
    intros ws. by rewrite status_server_publish.
  - cbn [andThen world_of]. destruct (0 <? viewers id w)%nat; split; try done.
    intros ws. by rewrite status_server_publish.
Qed.

Lemma reaper_housekeeping (M now : Z) (w : World) :
  housekeeping w (world_of (reaper M now w)).
Proof.
  unfold reaper. apply forOf_respects.
  - apply housekeeping_refl.
  - apply housekeeping_trans.
  - apply sweep_stream_housekeeping.
Qed.

Lemma sweep_process_housekeeping (dir : string) (entry : string * Subprocess) (w : World) :
  housekeeping w (world_of (sweep_process dir entry w)).
Proof.
  destruct entry as [id ffmpeg]. unfold sweep_process, caught.
  destruct (streams w !! id) eqn:Hid; cbn; [by split|].
  destruct (killed ffmpeg w); cbn; [by split|].
  by apply killStream_unregistered.
Qed.

Lemma orphans_housekeeping (dir : string) (w : World) :
  housekeeping w (world_of (orphans dir w)).
Proof.
  unfold orphans. apply forOf_respects.
  - apply housekeeping_refl.
  - apply housekeeping_trans.
  - apply sweep_process_housekeeping.
Qed.

(** ** The message handler *)

Ltac handler_cases :=
  unfold message, subscribe, command_start, command_keepAlive, command_message,
    command_default, reject, ws_close in *;
  repeat case_match; simplify_eq/=.

Section Handlers.

Variable unicode_L : N -> bool.
Variable unicode_N : N -> bool.
Variable MAX_KEEP_ALIVE : Z.
Variable streamsDirectory : string.
Variable maxResolution : Z.
Variable maxFramerate : Z.

Local Abbreviation message := (message unicode_L unicode_N).
Local Abbreviation step :=
  (step unicode_L unicode_N MAX_KEEP_ALIVE streamsDirectory maxResolution maxFramerate).
Local Abbreviation run :=
  (run unicode_L unicode_N MAX_KEEP_ALIVE streamsDirectory maxResolution maxFramerate).

(** After a message, an entry of [global.streams] is the entry that
    was there before, or its keep-alive is the clock just read. *)
Lemma message_stream_origin (ws : conn) (parsed : Parsed) (geo : option string)
    (now : Z) (w : World) (id : string) (stream' : Stream.t) :
  streams (world_of (message ws parsed geo now w)) !! id = Some stream' ->
  streams w !! id = Some stream' \/ Stream.keepAlive stream' = now.
Proof.
  intros H. handler_cases; rewrite ?streams_close in H; simpl in H;
    try (by left);
    (rewrite lookup_insert in H; case_decide; simplify_eq; [by right | by left]).
Qed.

(** A message on one connection leaves the other connections'
    entries of [websocketClients] and their being open as they are. *)
Lemma message_other_connection (ws ws' : conn) (parsed : Parsed)
    (geo : option string) (now : Z) (w : World) :
  ws <> ws' ->
  websocketClients (world_of (message ws parsed geo now w)) !! ws'
    = websocketClients w !! ws'
  /\ status (world_of (message ws parsed geo now w)) ws' = status w ws'.
Proof.
  intros Hne. handler_cases;
    rewrite ?clients_close, ?status_close, ?decide_False by done;
    rewrite ?status_ws_send, ?status_server_publish; simpl;
    rewrite ?lookup_insert_ne by done; try done.
  all: split; [done|].
  all: try (rewrite <- (status_ws_subscribe ws ws' (default "" (Data.stream data)) w); done).
  all: unfold status; simpl; done.
Qed.

(** A message on a subscribed connection keeps its entry as it is, or
    ends with the connection closed and its entry deleted. *)
Lemma message_subscribed_connection (ws : conn) (parsed : Parsed)
    (geo : option string) (now : Z) (w : World) (client : Client.t) :
  websocketClients w !! ws = Some client ->
  let w' := world_of (message ws parsed geo now w) in
  (websocketClients w' !! ws = Some client /\ status w' ws = status w ws)
  \/ (websocketClients w' !! ws = None
      /\ status w' ws = (fun _ => false) <$> status w ws).
Proof.
  intros Hclient w'. subst w'. handler_cases;
    rewrite ?clients_close, ?status_close, ?decide_True by done;
    rewrite ?status_ws_send, ?status_server_publish; simpl;
    try (by left); try (by right).
  all: left; split; [done|]; unfold status; simpl; done.
Qed.

(** *** Keep-alive timestamps *)

Lemma step_stream_origin (ev : Event) (w : World) (id : string) (stream' : Stream.t) :
  streams (step ev w) !! id = Some stream' ->
  streams w !! id = Some stream'
  \/ exists now, clock ev = Some now /\ Stream.keepAlive stream' = now.
Proof.
  destruct ev as [rngId rngToken ext mw mh mf now | ws address | ws parsed geo now
                 | ws | now | | p | id0 directory]; cbn [step clock]; intros H.
  - unfold upload in H. cbn in H. rewrite lookup_insert in H.
    case_decide; simplify_eq; [right; by eexists | by left].
  - left. destruct (sockets w !! ws); [done|].
    unfold open, forget in H. by destruct (websocketClients _ !! ws).
  - destruct (sockets w !! ws) as [s|]; [|by left].
    destruct (isOpen s); [|by left].
    apply message_stream_origin in H as [H|H]; [by left | right; by eexists].
  - left. by rewrite streams_close in H.
  - left. by rewrite (hk_streams _ _ (reaper_housekeeping MAX_KEEP_ALIVE now w)) in H.
  - left. by rewrite (hk_streams _ _ (orphans_housekeeping streamsDirectory w)) in H.
  - by left.
  - left. cbn in H. by apply lookup_delete_Some in H as [_ H].
Qed.

Lemma run_stream_origin (evs : list Event) :
  forall (t : Z) (w : World) (id : string) (stream' : Stream.t),
    chronological t evs ->
    streams (run evs w) !! id = Some stream' ->
    streams w !! id = Some stream' \/ t <= Stream.keepAlive stream'.
Proof.
  induction evs as [|ev rest IH]; intros t w id stream' Hchron Hlast.
  - by left.
  - cbn [chronological] in Hchron.
    change (streams (run rest (step ev w)) !! id = Some stream') in Hlast.
    destruct (clock ev) as [now|] eqn:Hclock.
    + destruct Hchron as [Hle Hchron].
      destruct (IH now (step ev w) id stream' Hchron Hlast) as [Hmid|Hlate]; [|right; lia].
      apply step_stream_origin in Hmid as [Hold|(now' & Hnow' & Hkeep)]; [by left|].
      right. rewrite Hclock in Hnow'. simplify_eq. lia.
    + destruct (IH t (step ev w) id stream' Hchron Hlast) as [Hmid|Hlate]; [|by right].
      apply step_stream_origin in Hmid as [Hold|(now' & Hnow' & Hkeep)]; [by left|].
      by rewrite Hclock in Hnow'.
Qed.

(** One command: the keep-alive of any session after a message is at
    least what it was, when the clock read is not behind it. *)
Lemma message_keepAlive_monotone (ws : conn) (parsed : Parsed) (geo : option string)
    (now : Z) (w : World) (id : string) (stream stream' : Stream.t) :
  streams w !! id = Some stream ->
  Stream.keepAlive stream <= now ->
  streams (world_of (message ws parsed geo now w)) !! id = Some stream' ->
  Stream.keepAlive stream <= Stream.keepAlive stream'.
Proof.
  intros Hbefore Hclock Hafter.
  apply message_stream_origin in Hafter as [Hsame|Hnow]; [|lia].
  rewrite Hbefore in Hsame. by simplify_eq.
Qed.

(** C6, amended: the keep-alive of a session never decreases as long
    as the clock does not go backwards.  Along any run of the server
    (commands, sweeps, uploads, exits) whose clock readings do not go
    backwards, started in a world whose stored keep-alives are not
    ahead of the clock, the keep-alive found for a session at the end
    is at least the one found at the start.  The handlers store
    [Date.now()] as it is; nothing compares it with the stored value. *)
Theorem keepAlive_never_decreases (t : Z) (evs : list Event) (w : World)
    (id : string) (stream stream' : Stream.t) :
  not_ahead t w ->
  chronological t evs ->
  streams w !! id = Some stream ->
  streams (run evs w) !! id = Some stream' ->
  Stream.keepAlive stream <= Stream.keepAlive stream'.
Proof.
  intros Hahead Hchron Hfirst Hlast.
  destruct (run_stream_origin evs t w id stream' Hchron Hlast) as [Hsame|Hlate].
  - rewrite Hfirst in Hsame. by simplify_eq.
  - specialize (Hahead id stream Hfirst). lia.
Qed.

(** *** The host flag *)

Lemma step_bound (ev : Event) (ws : conn) (client : Client.t) (w : World) :
  bound ws client w -> bound ws client (step ev w).
Proof.
  intros Hbound.
  destruct ev as [rngId rngToken ext mw mh mf now | ws' address | ws' parsed geo now
                 | ws' | now | | p | id0 directory]; cbn [step].
  - exact Hbound.
  - destruct (sockets w !! ws') as [s|] eqn:Hs; [done|].
    assert (ws' <> ws) as Hne.
    { intros ->. unfold bound, status in Hbound. rewrite Hs in Hbound.
      by destruct Hbound as [[? _]|[? _]]. }
    unfold bound. by rewrite status_open, clients_open.
  - destruct (sockets w !! ws') as [s|] eqn:Hs; [|done].
    destruct (isOpen s) eqn:Hopen; [|done].
    destruct (decide (ws' = ws)) as [->|Hne].
    + destruct Hbound as [[Hst Hc]|[Hst Hc]].
      * destruct (message_subscribed_connection ws parsed geo now w client Hc)
          as [[Hc' Hst']|[Hc' Hst']].
        -- left. by rewrite Hst', Hc'.
        -- right. by rewrite Hst', Hc', Hst.
      * unfold status in Hst. rewrite Hs in Hst. simpl in Hst. congruence.
    + destruct (message_other_connection ws' ws parsed geo now w Hne) as [Hc' Hst'].
      unfold bound. by rewrite Hc', Hst'.
  - unfold bound. rewrite status_close, clients_close.
    case_decide; [subst|done].
    right. by destruct Hbound as [[-> _]|[-> _]].
  - destruct (reaper_housekeeping MAX_KEEP_ALIVE now w) as [_ Hc Hst].
    unfold bound. by rewrite Hc, Hst.
  - destruct (orphans_housekeeping streamsDirectory w) as [_ Hc Hst].
    unfold bound. by rewrite Hc, Hst.
  - exact Hbound.
  - exact Hbound.
Qed.

Lemma run_bound (evs : list Event) (ws : conn) (client : Client.t) :
  forall w, bound ws client w -> bound ws client (run evs w).
Proof.
  induction evs as [|ev rest IH]; intros w Hbound; [done|].
  apply (IH (step ev w)). by apply step_bound.
Qed.

(** What a message does to a connection that has no entry yet: if it
    has one afterwards, the message was a subscription to an existing
    stream and the host flag is the comparison of the two tokens. *)
Lemma subscription_sets_host (ws : conn) (parsed : Parsed) (geo : option string)
    (now : Z) (w : World) (client : Client.t) :
  websocketClients w !! ws = None ->
  websocketClients (world_of (message ws parsed geo now w)) !! ws = Some client ->
  status (world_of (message ws parsed geo now w)) ws = status w ws
  /\ exists data stream,
       parsed = Json data
       /\ Data.stream data = Some (Client.stream client)
       /\ streams w !! Client.stream client = Some stream
       /\ Client.host client = bool_decide (Some (Stream.token stream) = Data.token data).
Proof.
  intros Hnone Hsome. handler_cases;
    rewrite ?clients_close, ?decide_True in Hsome by done; simplify_eq.
  rewrite lookup_insert_eq in Hsome. simplify_eq. cbn.
  split.
  - rewrite status_ws_send.
    by rewrite <- (status_ws_subscribe ws ws (default "" (Data.stream data)) w).
  - exists data. destruct (Data.stream data) as [id|] eqn:Hid; [|done].
    eexists. by repeat split.
Qed.

(** When every handler is taken to its end before the next one starts,
    the host flag is set once, when the connection subscribes, to the
    equality of the token supplied with the token of the session
    subscribed to, and nothing that happens later changes it: after
    any run of events the entry of the connection, if it still has
    one, carries the flag computed at subscription. *)
Theorem host_fixed_at_subscription (ws : conn) (parsed : Parsed)
    (geo : option string) (now : Z) (w : World) (evs : list Event)
    (client client' : Client.t) :
  websocketClients w !! ws = None ->
  websocketClients (step (EvMessage ws parsed geo now) w) !! ws = Some client ->
  websocketClients (run evs (step (EvMessage ws parsed geo now) w)) !! ws
    = Some client' ->
  Client.host client' = Client.host client
  /\ exists data stream,
       parsed = Json data
       /\ Data.stream data = Some (Client.stream client)
       /\ streams w !! Client.stream client = Some stream
       /\ (Client.host client = true <-> Data.token data = Some (Stream.token stream)).
Proof.
  intros Hnone Hsub Hlater.
  assert (Hopen : status w ws = Some true
                  /\ step (EvMessage ws parsed geo now) w
                     = world_of (message ws parsed geo now w)).
  { cbn [step] in *. unfold status.
    destruct (sockets w !! ws) as [s|]; [|congruence].
    destruct (isOpen s) eqn:Hs; [|congruence]. simpl. by rewrite Hs. }
  destruct Hopen as [Hstatus Hstep]. rewrite Hstep in *.
  destruct (subscription_sets_host ws parsed geo now w client Hnone Hsub)
    as (Hst & data & stream & -> & Hid & Hstream & Hhost).
  split.
  - assert (Hbound : bound ws client (world_of (message ws (Json data) geo now w))).
    { left. by rewrite Hst. }
    apply (run_bound evs) in Hbound as [[_ Hc]|[_ Hc]]; rewrite Hc in Hlater;
      by simplify_eq.
  - exists data, stream. repeat split; try done.
    + intros Htrue. rewrite Htrue in Hhost. symmetry in Hhost.
      apply bool_decide_eq_true in Hhost. congruence.
    + intros Htoken. rewrite Hhost. apply bool_decide_eq_true. congruence.
Qed.

(** *** Replies *)

Lemma ws_send_only_reply (ws : conn) (p : Payload.t) (w : World) :
  only_reply ws p w (ws_send ws p w).
Proof. by split. Qed.

Lemma frames_typed_refl (ty : option string) (w w' : World) :
  sockets w' = sockets w -> frames_typed ty w w'.
Proof.
  intros Heq ws s' Hs'. rewrite Heq in Hs'. exists s', [].
  by rewrite app_nil_r.
Qed.

Lemma frames_typed_trans (ty : option string) (w1 w2 w3 : World) :
  frames_typed ty w1 w2 -> frames_typed ty w2 w3 -> frames_typed ty w1 w3.
Proof.
  intros H12 H23 ws s3 Hs3.
  destruct (H23 ws s3 Hs3) as (s2 & new2 & Hs2 & Hin2 & Hty2).
  destruct (H12 ws s2 Hs2) as (s1 & new1 & Hs1 & Hin1 & Hty1).
  exists s1, (new1 ++ new2). split; [done|]. split.
  - by rewrite Hin2, Hin1, app_assoc.
  - by apply Forall_app_2.
Qed.

Lemma deliver_inbox (p : Payload.t) (s : Socket) :
  exists new, inbox (deliver p s) = inbox s ++ new
              /\ Forall (fun q => Payload.type q = Payload.type p) new.
Proof.
  unfold deliver. destruct (isOpen s).
  - exists [p]. split; [done|]. by repeat constructor.
  - exists []. split; [by rewrite app_nil_r | constructor].
Qed.

Lemma frames_typed_ws_send (ws : conn) (p : Payload.t) (w : World) :
  frames_typed (Payload.type p) w (ws_send ws p w).
Proof.
  intros ws' s' Hs'. cbn in Hs'. rewrite lookup_alter in Hs'.
  case_decide; [subst|].
  - destruct (sockets w !! ws') as [s|]; simplify_eq/=.
    destruct (deliver_inbox p s) as (new & Hin & Hty). by exists s, new.
  - exists s', []. rewrite app_nil_r. by repeat split.
Qed.

Lemma frames_typed_server_publish (topic : string) (p : Payload.t) (w : World) :
  frames_typed (Payload.type p) w (server_publish topic p w).
Proof.
  intros ws' s' Hs'. cbn in Hs'. rewrite lookup_fmap in Hs'.
  destruct (sockets w !! ws') as [s|]; simplify_eq/=.
  case_decide.
  - destruct (deliver_inbox p s) as (new & Hin & Hty). by exists s, new.
  - exists s, []. rewrite app_nil_r. by repeat split.
Qed.

(** Subscribing, unsubscribing and closing deliver nothing. *)
Lemma frames_typed_alter (ty : option string) (f : Socket -> Socket) (ws : conn)
    (w w' : World) :
  (forall s, inbox (f s) = inbox s) ->
  sockets w' = alter f ws (sockets w) ->
  frames_typed ty w w'.
Proof.
  intros Hf Heq ws' s' Hs'. rewrite Heq, lookup_alter in Hs'.
  case_decide; [subst|].
  - destruct (sockets w !! ws') as [s|]; simplify_eq/=.
    exists s, []. rewrite app_nil_r, Hf. by repeat split.
  - exists s', []. rewrite app_nil_r. by repeat split.
Qed.

Lemma frames_typed_forget (ty : option string) (ws : conn) (w : World) :
  frames_typed ty w (forget ws w).
Proof.
  unfold forget. destruct (websocketClients w !! ws) as [client|].
  - eapply (frames_typed_alter ty _ ws); [|reflexivity]. done.
  - by apply frames_typed_refl.
Qed.

Lemma frames_typed_close (ty : option string) (ws : conn) (w : World) :
  frames_typed ty w (close ws w).
Proof.
  unfold close. eapply frames_typed_trans; [|apply frames_typed_forget].
  eapply (frames_typed_alter ty _ ws); [|reflexivity]. done.
Qed.

(** Whatever a well-formed message leads to, each frame the handler
    sends, to the sender or to the group, echoes its [type]. *)
Lemma message_echoes_type (ws : conn) (data : Data.t) (geo : option string)
    (now : Z) (w : World) :
  frames_typed (Data.type data) w (world_of (message ws (Json data) geo now w)).
Proof.
  handler_cases.
  all: repeat first
    [ eapply frames_typed_trans; [|apply frames_typed_close]
    | eapply frames_typed_trans;
        [|apply (frames_typed_ws_send ws (Payload.failure (Data.type data) _))]
    | eapply frames_typed_trans;
        [|apply (frames_typed_ws_send ws (Payload.ok (Data.type data) _))]
    | eapply frames_typed_trans;
        [|apply (frames_typed_server_publish _ (Payload.chat (Data.type data) _ _ _ _))] ].
  all: try (by apply frames_typed_refl).
  eapply frames_typed_alter; [|reflexivity]. done.
Qed.

(** C4: a text that does not parse is not answered at all.  The
    [catch] block reads [data.type] while [data] is still
    [undefined], so the handler throws before it sends the failure
    frame; no frame reaches any connection and the world is as it
    was. *)
Theorem invalid_json_is_not_answered (ws : conn) (geo : option string)
    (now : Z) (w : World) :
  exists e, message ws SyntaxError geo now w = Threw e w.
Proof. by eexists. Qed.

(** *** Commands *)

(** C2, amended: for a subscribed connection whose session is still
    registered, a [start] command that carries a stream field fails
    with nothing changed but the failure frame sent when the session
    is started, a process is registered for it, or the connection is
    not the host; otherwise the transcoder is spawned and registered,
    the session is started with its keep-alive at the current time,
    and the success frame is sent. *)
Theorem start_command (ws : conn) (data : Data.t) (geo : option string) (now : Z)
    (w : World) (client : Client.t) (stream : Stream.t) :
  truthy (Data.stream data) = true ->
  Data.type data = Some "start" ->
  websocketClients w !! ws = Some client ->
  streams w !! Client.stream client = Some stream ->
  exists w',
    message ws (Json data) geo now w = Returned w'
    /\ if bool_decide (Stream.state stream = started)
          || bool_decide (is_Some (ffmpegProcesses w !! Client.stream client))
          || negb (Client.host client)
       then exists cause, only_reply ws (Payload.failure (Some "start") cause) w w'
       else
         (exists stream', streams w' !! Client.stream client = Some stream'
                          /\ Stream.state stream' = started
                          /\ Stream.keepAlive stream' = now)
         /\ ffmpegProcesses w'
            = <[Stream.id stream := mkSubprocess (spawned w)]> (ffmpegProcesses w)
         /\ alive w' = {[spawned w]} ∪ alive w
         /\ sockets w'
            = alter (deliver (Payload.ok (Some "start") "Stream started!")) ws (sockets w).
Proof.
  intros Hfield Htype Hclient Hstream. unfold message.
  rewrite Hfield, Hclient, Hstream. cbn [negb].
  rewrite decide_True by done. unfold command_start. rewrite Htype.
  destruct (bool_decide (Stream.state stream = started)
            || bool_decide (is_Some (ffmpegProcesses w !! Client.stream client))); cbn [orb].
  - eexists. split; [reflexivity|]. eexists. apply ws_send_only_reply.
  - destruct (Client.host client); cbn [negb].
    + eexists. split; [reflexivity|]. cbn. split; [|done].
      eexists. rewrite lookup_insert_eq. by split.
    + eexists. split; [reflexivity|]. eexists. apply ws_send_only_reply.
Qed.

(** C7, amended: for a subscribed connection whose session is still
    registered, a [message] command that carries a stream field fails
    with nothing changed but the failure frame sent when the body is
    empty or absent; otherwise the keep-alive of the session becomes
    the current time and every connection subscribed to the session's
    topic is delivered the chat event with the sender's username, host
    flag, country and the body. *)
Theorem chat_command (ws : conn) (data : Data.t) (geo : option string) (now : Z)
    (w : World) (client : Client.t) (stream : Stream.t) :
  truthy (Data.stream data) = true ->
  Data.type data = Some "message" ->
  websocketClients w !! ws = Some client ->
  streams w !! Client.stream client = Some stream ->
  exists w',
    message ws (Json data) geo now w = Returned w'
    /\ if truthy (Data.message data)
       then
         streams w' = <[Client.stream client := Stream.set_keepAlive now stream]> (streams w)
         /\ forall ws' s, sockets w !! ws' = Some s ->
              sockets w' !! ws'
              = Some (if decide (Client.stream client ∈ topics s)
                      then deliver (chat_event data client) s else s)
       else only_reply ws (Payload.failure (Some "message") "No message!") w w'.
Proof.
  intros Hfield Htype Hclient Hstream. unfold message.
  rewrite Hfield, Hclient, Hstream. cbn [negb].
  rewrite decide_False by (rewrite Htype; discriminate).
  rewrite decide_False by (rewrite Htype; discriminate).
  rewrite decide_True by done. unfold command_message. rewrite Htype.
  destruct (truthy (Data.message data)); cbn [negb].
  - eexists. split; [reflexivity|]. split; [done|].
    intros ws' s Hs. cbn. by rewrite lookup_fmap, Hs.
  - eexists. split; [reflexivity|]. apply ws_send_only_reply.
Qed.

(** C5: the username test of the code accepts exactly the strings of
    the format (letters, digits, spaces and [. - _ @], 3 to 20
    characters), and a subscription to an existing stream that
    supplies the string [u] as username is refused with a failure
    frame, the connection being closed, exactly when [u] is not of
    that format; otherwise the connection is registered under [u]
    and answered with a success frame. *)
Theorem username_check (ws : conn) (data : Data.t) (geo : option string) (now : Z)
    (w : World) (id : string) (stream : Stream.t) (u : ustring) :
  websocketClients w !! ws = None ->
  Data.stream data = Some id ->
  id <> "" ->
  streams w !! id = Some stream ->
  Data.username data = Some u ->
  (RegexCheck.username unicode_L unicode_N u = true
   <-> username_format unicode_L unicode_N u)
  /\ exists w',
       message ws (Json data) geo now w = Returned w'
       /\ (username_format unicode_L unicode_N u ->
             (exists client, websocketClients w' !! ws = Some client
                             /\ Client.username client = u
                             /\ Client.stream client = id)
             /\ exists text,
                  sockets w' = alter (deliver (Payload.ok (Data.type data) text)) ws
                                 (sockets (ws_subscribe ws id w)))
       /\ (~ username_format unicode_L unicode_N u ->
             exists cause,
               w' = close ws (ws_send ws (Payload.failure (Data.type data) cause) w)).
Proof.
  intros Hnone Hid Hnonempty Hstream Hu.
  split; [apply username_format_iff|].
  unfold message, subscribe. rewrite Hid, Hnone. cbn [from_option Datatypes.id].
  assert (Htruthy : truthy (Some id) = true).
  { cbn. destruct (String.eqb_spec id ""); [congruence | done]. }
  rewrite Htruthy, Hstream, Hu. cbn [negb from_option Datatypes.id].
  destruct (truthy_u (Some u)) eqn:Hsupplied; cbn [negb].
  - destruct (RegexCheck.username unicode_L unicode_N u) eqn:Hmatch; cbn [negb].
    + eexists. split; [reflexivity|]. split.
      * intros _. split; [|by eexists].
        eexists. cbn. rewrite lookup_insert_eq. by repeat split.
      * intros Hbad. apply username_format_iff in Hmatch. contradiction.
    + eexists. split; [reflexivity|]. split.
      * intros Hgood. apply username_format_iff in Hgood. congruence.
      * intros _. by eexists.
  - eexists. split; [reflexivity|]. split.
    + intros [_ Hlen]. destruct u; [cbn in Hlen; lia | discriminate].
    + intros _. by eexists.
Qed.

(** C8: without a path, [killStream] does not return for an id that
    has neither a process nor a session.  The call [exists(streamPath)]
    is not awaited, the promise it yields is truthy, and [rmdir] is
    given [null], which it refuses with a [TypeError]; the maps and
    the disk are as they were. *)
Theorem killStream_without_path_throws (id : string) (w : World) :
  ffmpegProcesses w !! id = None ->
  streams w !! id = None ->
  exists e, killStream (KString id) None w = Threw e w.
Proof.
  intros Hprocess Hstream. unfold killStream. cbn [Map_get]. rewrite Hprocess.
  cbn [truthy negb]. rewrite Hstream. cbn. by eexists.
Qed.

End Handlers.

(** ** The earlier server *)

(** There the [start] branch assigns [client.host = true], but the
    assignment is only reached by the host: the flag keeps its value. *)
Lemma earlier_start_keeps_host (startedOrRunning : bool) (client : Earlier.Client) :
  Earlier.host (Earlier.start startedOrRunning client).1 = Earlier.host client.
Proof.
  unfold Earlier.start. destruct startedOrRunning; [done|].
  by destruct (Earlier.host client) eqn:Hhost.
Qed.

(** * The theorems at work on the example deployment *)

(** The sweep, one hour and some minutes after the last activity. *)
Lemma reaper_keeps_idle_session_witness :
  streams example_world !! "s1" = Some example_stream
  /\ 4000000 - Stream.keepAlive example_stream > 1 * 60 * 60 * 1000
  /\ exists w',
       reaper (1 * 60 * 60 * 1000) 4000000 example_world = Returned w'
       /\ streams w' !! "s1" = Some example_stream
       /\ ffmpegProcesses w' = ffmpegProcesses example_world
       /\ alive w' = alive example_world
       /\ Stream.directory example_stream ∉ dirs w'.
Proof.
  split; [reflexivity|]. split; [reflexivity|].
  apply (reaper_keeps_idle_session (1 * 60 * 60 * 1000) 4000000 example_world
           "s1" example_stream); reflexivity.
Defined.

(** C2 as stated fails: the host of a stopped session that has no
    process sends [{ "type": "start" }].  The message has no stream
    field, so it is answered with a failure frame and the connection is
    closed; no process is spawned and the session stays stopped. *)
Lemma start_without_stream_field_is_refused :
  websocketClients example_world !! 1%nat = Some example_host
  /\ Client.host example_host = true
  /\ streams example_world !! Client.stream example_host = Some example_stream
  /\ Stream.state example_stream = stopped
  /\ ffmpegProcesses example_world !! Client.stream example_host = None
  /\ Data.type start_bare = Some "start"
  /\ exists w',
       example_message 1%nat (Json start_bare) None 100 example_world = Returned w'
       /\ streams w' !! "s1" = Some example_stream
       /\ ffmpegProcesses w' = ∅
       /\ alive w' = ∅
       /\ inbox <$> sockets w' !! 1%nat
          = Some [Payload.failure (Some "start") "No stream supplied!"]
       /\ status w' 1%nat = Some false.
Proof.
  repeat (split; [reflexivity|]).
  eexists. split; [reflexivity|]. by vm_compute.
Qed.

(** The same command with a stream field starts the stream. *)
Lemma start_command_witness :
  truthy (Data.stream start_full) = true
  /\ Data.type start_full = Some "start"
  /\ websocketClients example_world !! 1%nat = Some example_host
  /\ streams example_world !! Client.stream example_host = Some example_stream
  /\ exists w',
       example_message 1%nat (Json start_full) None 100 example_world = Returned w'
       /\ (exists stream', streams w' !! "s1" = Some stream'
                           /\ Stream.state stream' = started
                           /\ Stream.keepAlive stream' = 100)
       /\ ffmpegProcesses w' = {[ "s1" := mkSubprocess 0 ]}
       /\ alive w' = {[ 0%nat ]}.
Proof.
  repeat (split; [reflexivity|]).
  destruct (start_command ascii_letter ascii_digit 1%nat start_full None 100
              example_world example_host example_stream
              eq_refl eq_refl eq_refl eq_refl) as (w' & Hrun & Hstream & Hprocess & Halive & _).
  exists w'. split; [exact Hrun|]. split; [exact Hstream|].
  split; [exact Hprocess | exact Halive].
Defined.

(** A third connection subscribes with the host's token, starts the
    stream, chats, and the sweeps run: it is still the host. *)
Lemma host_fixed_at_subscription_witness :
  websocketClients example_world_3 !! 3%nat = None
  /\ websocketClients
       (example_step (EvMessage 3%nat (Json subscribe_carol) None 5) example_world_3)
       !! 3%nat = Some example_guest
  /\ websocketClients
       (example_run [EvMessage 3%nat (Json start_full) None 10; EvReaper 20;
                     EvMessage 3%nat (Json chat_full) None 30; EvOrphans]
          (example_step (EvMessage 3%nat (Json subscribe_carol) None 5) example_world_3))
       !! 3%nat = Some example_guest
  /\ Client.host example_guest = Client.host example_guest
  /\ exists data stream,
       Json subscribe_carol = Json data
       /\ Data.stream data = Some (Client.stream example_guest)
       /\ streams example_world_3 !! Client.stream example_guest = Some stream
       /\ (Client.host example_guest = true <-> Data.token data = Some (Stream.token stream)).
Proof.
  split; [reflexivity|]. split; [reflexivity|]. split; [by vm_compute|].
  apply (host_fixed_at_subscription ascii_letter ascii_digit (1 * 60 * 60 * 1000)
           "streams" (Utilities.maxResolution None) (Utilities.maxFramerate None)
           3%nat (Json subscribe_carol) None 5 example_world_3
           [EvMessage 3%nat (Json start_full) None 10; EvReaper 20;
            EvMessage 3%nat (Json chat_full) None 30; EvOrphans]
           example_guest example_guest);
    by vm_compute.
Defined.

(** The subscription of "carol" is accepted. *)
Lemma username_check_witness :
  websocketClients example_world_3 !! 3%nat = None
  /\ Data.stream subscribe_carol = Some "s1"
  /\ "s1" <> ""
  /\ streams example_world_3 !! "s1" = Some example_stream
  /\ Data.username subscribe_carol = Some [99; 97; 114; 111; 108]%N
  /\ (RegexCheck.username ascii_letter ascii_digit [99; 97; 114; 111; 108]%N = true
      <-> username_format ascii_letter ascii_digit [99; 97; 114; 111; 108]%N)
  /\ exists w',
       example_message 3%nat (Json subscribe_carol) None 5 example_world_3 = Returned w'
       /\ (username_format ascii_letter ascii_digit [99; 97; 114; 111; 108]%N ->
             (exists client, websocketClients w' !! 3%nat = Some client
                             /\ Client.username client = [99; 97; 114; 111; 108]%N
                             /\ Client.stream client = "s1")
             /\ exists text,
                  sockets w' = alter (deliver (Payload.ok (Data.type subscribe_carol) text))
                                 3%nat (sockets (ws_subscribe 3%nat "s1" example_world_3)))
       /\ (~ username_format ascii_letter ascii_digit [99; 97; 114; 111; 108]%N ->
             exists cause,
               w' = close 3%nat
                      (ws_send 3%nat (Payload.failure (Data.type subscribe_carol) cause)
                         example_world_3)).
Proof.
  split; [reflexivity|]. split; [reflexivity|]. split; [discriminate|].
  split; [reflexivity|]. split; [reflexivity|].
  apply (username_check ascii_letter ascii_digit 3%nat subscribe_carol None 5
           example_world_3 "s1" example_stream [99; 97; 114; 111; 108]%N);
    first [reflexivity | discriminate].
Defined.

Example username_accepts_carol :
  RegexCheck.username ascii_letter ascii_digit [99; 97; 114; 111; 108]%N = true.
Proof. reflexivity. Qed.

(** "al" is too short, "a!b" has a character outside the class. *)
Example username_refuses_short_and_foreign :
  RegexCheck.username ascii_letter ascii_digit [97; 108]%N = false
  /\ RegexCheck.username ascii_letter ascii_digit [97; 33; 98]%N = false.
Proof. split; reflexivity. Qed.

(** A chat message at time 10, then a sweep at time 20. *)
Lemma keepAlive_never_decreases_witness :
  not_ahead 0 example_world
  /\ chronological 0 [EvMessage 1%nat (Json chat_full) None 10; EvReaper 20]
  /\ streams example_world !! "s1" = Some example_stream
  /\ streams (example_run [EvMessage 1%nat (Json chat_full) None 10; EvReaper 20]
                example_world) !! "s1"
     = Some (Stream.set_keepAlive 10 example_stream)
  /\ Stream.keepAlive example_stream
     <= Stream.keepAlive (Stream.set_keepAlive 10 example_stream).
Proof.
  assert (Hahead : not_ahead 0 example_world).
  { intros id stream Hid. unfold example_world in Hid. cbn [streams] in Hid.
    apply lookup_singleton_Some in Hid as [_ <-]. reflexivity. }
  assert (Hchron : chronological 0 [EvMessage 1%nat (Json chat_full) None 10; EvReaper 20]).
  { simpl. lia. }
  split; [exact Hahead|]. split; [exact Hchron|].
  split; [reflexivity|]. split; [by vm_compute|].
  apply (keepAlive_never_decreases ascii_letter ascii_digit (1 * 60 * 60 * 1000)
           "streams" (Utilities.maxResolution None) (Utilities.maxFramerate None)
           0 [EvMessage 1%nat (Json chat_full) None 10; EvReaper 20] example_world
           "s1" example_stream (Stream.set_keepAlive 10 example_stream)
           Hahead Hchron); by vm_compute.
Defined.

(** C6 as stated fails: the host chats when the clock reads 10 and
    again when it reads 5, the clock having been set back in between.
    Each command stores the reading it finds, so the second takes the
    keep-alive of the session from 10 down to 5. *)
Lemma keepAlive_follows_the_clock_back :
  websocketClients example_world !! 1%nat = Some example_host
  /\ Data.type chat_full = Some "message"
  /\ exists w1 w2,
       example_message 1%nat (Json chat_full) None 10 example_world = Returned w1
       /\ example_message 1%nat (Json chat_full) None 5 w1 = Returned w2
       /\ Stream.keepAlive <$> streams w1 !! "s1" = Some 10
       /\ Stream.keepAlive <$> streams w2 !! "s1" = Some 5.
Proof.
  do 2 (split; [reflexivity|]).
  eexists. eexists. split; [reflexivity|]. split; [reflexivity|]. by vm_compute.
Qed.

(** C7 as stated fails: a subscribed connection sends
    [{ "type": "message", "message": "hi" }].  The body is not empty,
    but the message has no stream field: the sender gets a failure
    frame and is disconnected, the other subscriber receives nothing
    and the keep-alive is not touched. *)
Lemma chat_without_stream_field_is_refused :
  websocketClients example_world !! 1%nat = Some example_host
  /\ streams example_world !! Client.stream example_host = Some example_stream
  /\ Data.type chat_bare = Some "message"
  /\ truthy (Data.message chat_bare) = true
  /\ exists w',
       example_message 1%nat (Json chat_bare) None 100 example_world = Returned w'
       /\ streams w' !! "s1" = Some example_stream
       /\ inbox <$> sockets w' !! 1%nat
          = Some [Payload.failure (Some "message") "No stream supplied!"]
       /\ inbox <$> sockets w' !! 2%nat = Some [].
Proof.
  repeat (split; [reflexivity|]).
  eexists. split; [reflexivity|]. by vm_compute.
Qed.

(** The same command with a stream field reaches the other viewer. *)
Lemma chat_command_witness :
  truthy (Data.stream chat_full) = true
  /\ Data.type chat_full = Some "message"
  /\ websocketClients example_world !! 1%nat = Some example_host
  /\ streams example_world !! Client.stream example_host = Some example_stream
  /\ exists w',
       example_message 1%nat (Json chat_full) None 100 example_world = Returned w'
       /\ streams w' = {[ "s1" := Stream.set_keepAlive 100 example_stream ]}
       /\ inbox <$> sockets w' !! 2%nat = Some [chat_event chat_full example_host].
Proof.
  repeat (split; [reflexivity|]).
  destruct (chat_command ascii_letter ascii_digit 1%nat chat_full None 100
              example_world example_host example_stream
              eq_refl eq_refl eq_refl eq_refl) as (w' & Hrun & Hstreams & Hgroup).
  exists w'. split; [exact Hrun|]. split.
  - rewrite Hstreams. by vm_compute.
  - refine (eq_trans (f_equal (fmap inbox)
              (Hgroup 2%nat (mkSocket "10.0.0.2" {[ "s1" ]} [] true) eq_refl)) _).
    by vm_compute.
Defined.

(** [killStream("gone")] *)
Lemma killStream_without_path_throws_witness :
  ffmpegProcesses example_world !! "gone" = None
  /\ streams example_world !! "gone" = None
  /\ exists e, killStream (KString "gone") None example_world = Threw e example_world.
Proof.
  split; [reflexivity|]. split; [reflexivity|].
  apply (killStream_without_path_throws "gone" example_world); reflexivity.
Defined.

(** ** Scenarios *)

(** The host starts the stream, then tries again: the first command is
    answered with a success, the second with "already started". *)
Example scenario_start_twice :
  inbox <$> sockets
    (example_run [EvMessage 1%nat (Json start_full) None 10;
                  EvMessage 1%nat (Json start_full) None 11] example_world) !! 1%nat
  = Some [Payload.ok (Some "start") "Stream started!";
          Payload.failure (Some "start") "This stream has already started!"].
Proof. by vm_compute. Qed.

(** A viewer who is not the host cannot start the stream. *)
Example scenario_viewer_cannot_start :
  let w' := example_run [EvMessage 2%nat (Json start_full) None 10] example_world in
  inbox <$> sockets w' !! 2%nat
  = Some [Payload.failure (Some "start") "You're not the host!"]
  /\ ffmpegProcesses w' = ∅.
Proof. by vm_compute. Qed.

(** A chat message reaches the sender and the other viewer alike. *)
Example scenario_chat_reaches_both :
  let w' := example_run [EvMessage 1%nat (Json chat_full) None 10] example_world in
  inbox <$> sockets w' !! 1%nat = Some [chat_event chat_full example_host]
  /\ inbox <$> sockets w' !! 2%nat = Some [chat_event chat_full example_host].
Proof. by vm_compute. Qed.

(** A subscription to a stream that does not exist is refused and the
    connection is closed. *)
Example scenario_unknown_stream :
  let w' := example_run
              [EvMessage 3%nat (Json (Data.mk (Some "deadbeef") (Some [99; 97; 114]%N)
                                        None None None)) None 10] example_world_3 in
  inbox <$> sockets w' !! 3%nat
  = Some [Payload.failure None "Stream deadbeef doesn't exist!"]
  /\ status w' 3%nat = Some false
  /\ websocketClients w' !! 3%nat = None.
Proof. by vm_compute. Qed.

(** With a running transcoder, the sweep of an idle session removes the
    directory under it and leaves the process running. *)
Example scenario_idle_with_process :
  let w' := example_run [EvMessage 1%nat (Json start_full) None 10; EvReaper 4000000]
              example_world in
  is_Some (streams w' !! "s1")
  /\ ffmpegProcesses w' = {[ "s1" := mkSubprocess 0 ]}
  /\ alive w' = {[ 0%nat ]}
  /\ dirs w' = ∅.
Proof. split; [by eexists|]. by vm_compute. Qed.

(** * More properties *)

(** ** Frame rate and bitrate *)

Lemma maxFramerate_cases (env : option string) :
  In (Utilities.maxFramerate env) [240; 120; 60; 30].
Proof.
  unfold Utilities.maxFramerate, Utilities.lookup_or, Utilities.framerates.
  destruct env as [key|]; [|simpl; tauto].
  repeat (match goal with
          | |- context [String.eqb key ?k] => destruct (String.eqb key k)
          end; [simpl; tauto|]).
  simpl; tauto.
Qed.

(** X1: [getBestFramerate] answers with one of the four rates, never
    above the configured maximum, never above the rate of the source
    unless that is below 30 (which is raised to 30), and a faster
    source never gets a slower rate. *)
Theorem getBestFramerate_tiers (env : option string) (framerate : Z) :
  let best := getBestFramerate (Utilities.maxFramerate env) in
  In (best framerate) [240; 120; 60; 30]
  /\ best framerate <= Utilities.maxFramerate env
  /\ best framerate <= Z.max 30 framerate
  /\ forall faster, framerate <= faster -> best framerate <= best faster.
Proof.
  intros best. subst best.
  pose proof (maxFramerate_cases env) as HM.
  set (M := Utilities.maxFramerate env) in *. simpl in HM.
  assert (Hstep : forall f,
             In (getBestFramerate M f) [240; 120; 60; 30]
             /\ getBestFramerate M f <= M
             /\ getBestFramerate M f <= Z.max 30 f
             /\ (getBestFramerate M f = 240 \/ f < 240 \/ M < 240)
             /\ (120 <= getBestFramerate M f \/ f < 120 \/ M < 120)
             /\ (60 <= getBestFramerate M f \/ f < 60 \/ M < 60)
             /\ 30 <= getBestFramerate M f).
  { intros f. unfold getBestFramerate.
    destruct (Z.geb_spec M 240), (Z.geb_spec f 240), (Z.geb_spec M 120),
      (Z.geb_spec f 120), (Z.geb_spec M 60), (Z.geb_spec f 60); simpl;
      repeat split; try tauto; try lia;
      repeat (destruct HM as [HM|HM]; try lia). }
  destruct (Hstep framerate) as (Hin & Hmax & Hsrc & H240 & H120 & H60 & H30).
  repeat split; try done.
  intros faster Hle.
  destruct (Hstep faster) as (Hin' & _ & _ & H240' & H120' & H60' & H30').
  simpl in Hin.
  destruct Hin as [Hin|[Hin|[Hin|[Hin|[]]]]]; rewrite <- Hin in *; lia.
Qed.

(** X2: with a maximum of 1440p or less, which includes the default, a
    portrait source is encoded at the lowest bitrate of its frame rate:
    [getBestBitrate] is given the exchanged sides and compares them
    with the landscape tiers. *)
Theorem portrait_bitrate_is_lowest (env : option string) (w h framerate : Z) :
  w < h ->
  Utilities.maxResolution env <= 2560 * 1440 ->
  let quality := getBestQuality (Utilities.maxResolution env) w h in
  getBestBitrate (width quality) (height quality) framerate
  = getBestBitrate 1280 720 framerate.
Proof.
  intros Hportrait Hmax quality. subst quality.
  unfold getBestQuality. apply Z.ltb_lt in Hportrait. rewrite Hportrait.
  set (M := Utilities.maxResolution env) in *.
  destruct (Z.geb_spec M (7680 * 4320)); [lia|].
  destruct (Z.geb_spec M (3840 * 2160)); [lia|].
  cbn [andb].
  destruct ((M >=? 2560 * 1440) && (h >=? 2560) && (w >=? 1440));
    [reflexivity|].
  destruct ((M >=? 1920 * 1080) && (h >=? 1920) && (w >=? 1080)); reflexivity.
Qed.

Lemma portrait_bitrate_is_lowest_witness :
  1080 < 1920
  /\ Utilities.maxResolution None <= 2560 * 1440
  /\ getBestBitrate
       (width (getBestQuality (Utilities.maxResolution None) 1080 1920))
       (height (getBestQuality (Utilities.maxResolution None) 1080 1920)) 60
     = getBestBitrate 1280 720 60.
Proof.
  split; [lia|]. split; [by vm_compute|].
  apply (portrait_bitrate_is_lowest None 1080 1920 60); [lia | by vm_compute].
Defined.

(** X3: for a landscape source, the current helpers set to 4K and 60
    frames per second choose what the helpers without limits chose:
    the same resolution, frame rate and bitrate.  Those older helpers
    never answered with a portrait resolution. *)
Theorem old_helpers_agree_on_landscape (w h framerate : Z) :
  h <= w ->
  let quality := getBestQuality (Utilities.maxResolution (Some "4k")) w h in
  let fps := getBestFramerate (Utilities.maxFramerate (Some "60fps")) framerate in
  quality = Old.getBestQuality w h
  /\ fps = Old.getBestFramerate framerate
  /\ getBestBitrate (width quality) (height quality) fps
     = Old.getBestBitrate (width (Old.getBestQuality w h))
         (height (Old.getBestQuality w h)) (Old.getBestFramerate framerate)
  /\ forall w' h', height (Old.getBestQuality w' h') < width (Old.getBestQuality w' h').
Proof.
  intros Hlandscape quality fps. subst quality fps.
  assert (Hq : getBestQuality (Utilities.maxResolution (Some "4k")) w h
               = Old.getBestQuality w h).
  { unfold getBestQuality, Old.getBestQuality.
    change (Utilities.maxResolution (Some "4k")) with (3840 * 2160).
    destruct (Z.ltb_spec w h); [lia|].
    destruct (Z.geb_spec w 7680), (Z.geb_spec h 4320), (Z.geb_spec w 3840),
      (Z.geb_spec h 2160); simpl; try reflexivity; lia. }
  assert (Hf : getBestFramerate (Utilities.maxFramerate (Some "60fps")) framerate
               = Old.getBestFramerate framerate).
  { unfold getBestFramerate, Old.getBestFramerate.
    change (Utilities.maxFramerate (Some "60fps")) with 60. reflexivity. }
  split; [exact Hq|]. split; [exact Hf|]. split.
  - rewrite Hq, Hf. unfold Old.getBestQuality, Old.getBestFramerate.
    repeat match goal with
           | |- context [if ?b then _ else _] => destruct b
           end; reflexivity.
  - intros w' h'. unfold Old.getBestQuality.
    repeat match goal with
           | |- context [if ?b then _ else _] => destruct b
           end; simpl; lia.
Qed.

Lemma old_helpers_agree_on_landscape_witness :
  1080 <= 1920
  /\ getBestQuality (Utilities.maxResolution (Some "4k")) 1920 1080
     = Old.getBestQuality 1920 1080.
Proof.
  split; [lia|].
  apply (old_helpers_agree_on_landscape 1920 1080 60). lia.
Defined.

(** ** The address of a client *)

Lemma string_app_assoc (a b c : string) : (a +:+ b) +:+ c = a +:+ (b +:+ c).
Proof.
  induction a as [|x a IH]; [reflexivity|].
  change (String x ((a +:+ b) +:+ c) = String x (a +:+ (b +:+ c))). by rewrite IH.
Qed.

Lemma string_app_empty_r (a : string) : a +:+ "" = a.
Proof.
  induction a as [|x a IH]; [reflexivity|].
  change (String x (a +:+ "") = String x a). by rewrite IH.
Qed.

Lemma string_app_cons (c : ascii) (a b : string) :
  String c a +:+ b = String c (a +:+ b).
Proof. reflexivity. Qed.

Lemma split_first_no_comma (s : string) :
  ~ In ","%char (list_ascii_of_string (split_first s)).
Proof.
  induction s as [|c s IH]; simpl; [tauto|].
  destruct (Ascii.eqb_spec c ","); simpl; [tauto|].
  intros [Heq|Hin]; [congruence | tauto].
Qed.

Lemma split_first_prefix (s : string) :
  s = split_first s \/ exists rest, s = split_first s +:+ "," +:+ rest.
Proof.
  induction s as [|c s IH]; simpl; [by left|].
  destruct (Ascii.eqb_spec c ",") as [->|Hne]; simpl.
  - right. by exists s.
  - destruct IH as [IH|[rest IH]].
    + left. congruence.
    + right. exists rest. rewrite string_app_cons. congruence.
Qed.

Lemma trimStart_spec (s : string) :
  exists pre, s = pre +:+ trimStart s
              /\ blank pre
              /\ forall c rest, trimStart s = String c rest -> isWhiteSpace c = false.
Proof.
  induction s as [|c s (pre & Hs & Hpre & Hfirst)]; simpl.
  - exists "". repeat split; [constructor | discriminate].
  - destruct (isWhiteSpace c) eqn:Hc.
    + exists (String c pre). split; [rewrite string_app_cons; congruence|].
      split; [by constructor | exact Hfirst].
    + exists "". split; [reflexivity|]. split; [constructor|].
      intros c' rest Heq. congruence.
Qed.

Lemma trimEnd_spec (s : string) :
  exists post, s = trimEnd s +:+ post
               /\ blank post
               /\ forall body c, trimEnd s = body +:+ String c "" -> isWhiteSpace c = false.
Proof.
  induction s as [|c s (post & Hs & Hpost & Hlast)]; simpl.
  - exists "". repeat split; [constructor|].
    intros [|x body] c H; discriminate.
  - destruct (trimEnd s) as [|k kept] eqn:Hkept.
    + destruct (isWhiteSpace c) eqn:Hc.
      * exists (String c post). change ("" +:+ post) with post in Hs.
        split; [change ("" +:+ String c post) with (String c post); congruence|].
        split; [by constructor|]. intros [|x body] c' H; discriminate.
      * exists post. change ("" +:+ post) with post in Hs.
        split; [rewrite string_app_cons; change ("" +:+ post) with post; congruence|].
        split; [exact Hpost|].
        intros [|x [|y body]] c' H; rewrite ?string_app_cons in H;
          change ("" +:+ String c' "") with (String c' "") in H; simplify_eq.
        exact Hc.
    + exists post. split; [rewrite string_app_cons; congruence|]. split; [exact Hpost|].
      intros [|x body] c' H; rewrite ?string_app_cons in H;
        change ("" +:+ String c' "") with (String c' "") in H; [discriminate|].
      apply (Hlast body c'). congruence.
Qed.

Lemma trim_spec (s : string) :
  exists pre post,
    s = pre +:+ trim s +:+ post
    /\ blank pre /\ blank post
    /\ (forall c rest, trim s = String c rest -> isWhiteSpace c = false)
    /\ (forall body c, trim s = body +:+ String c "" -> isWhiteSpace c = false).
Proof.
  unfold trim.
  destruct (trimStart_spec s) as (pre & Hs & Hpre & Hfirst).
  destruct (trimEnd_spec (trimStart s)) as (post & Ht & Hpost & Hlast).
  exists pre, post. split; [congruence|]. repeat split; try done.
  intros c rest Heq. apply (Hfirst c (rest +:+ post)).
  rewrite Ht, Heq. reflexivity.
Qed.

Lemma in_middle (pre mid post : string) (c : ascii) :
  In c (list_ascii_of_string mid) ->
  In c (list_ascii_of_string (pre +:+ mid +:+ post)).
Proof.
  intros Hin. rewrite !string_app_chars. apply in_or_app. right.
  apply in_or_app. by left.
Qed.

(** X4: when neither [CF-Connecting-IP] nor [X-Real-IP] is set, the
    address is the first entry of [X-Forwarded-For]: the text before
    the first comma without the white space around it.  It holds no
    comma and neither starts nor ends with white space. *)
Theorem getClientIP_first_forwarded (request : Request) (forwarded : string) :
  truthy (headers request "cf-connecting-ip") = false ->
  truthy (headers request "x-real-ip") = false ->
  headers request "x-forwarded-for" = Some forwarded ->
  forwarded <> "" ->
  exists ip pre post,
    getClientIP request = Some ip
    /\ (forwarded = pre +:+ ip +:+ post
        \/ exists others, forwarded = (pre +:+ ip +:+ post) +:+ "," +:+ others)
    /\ blank pre /\ blank post
    /\ ~ In ","%char (list_ascii_of_string ip)
    /\ (forall c rest, ip = String c rest -> isWhiteSpace c = false)
    /\ (forall body c, ip = body +:+ String c "" -> isWhiteSpace c = false).
Proof.
  intros Hcf Hreal Hfwd Hnonempty. unfold getClientIP.
  rewrite Hcf, Hreal, Hfwd. cbn [default from_option Datatypes.id].
  assert (Htruthy : truthy (Some forwarded) = true).
  { cbn. destruct (String.eqb_spec forwarded ""); [congruence | done]. }
  rewrite Htruthy.
  destruct (trim_spec (split_first forwarded)) as (pre & post & Hs & Hpre & Hpost & Hfirst & Hlast).
  exists (trim (split_first forwarded)), pre, post.
  split; [reflexivity|]. split.
  - rewrite <- Hs. apply split_first_prefix.
  - repeat split; try done.
    intros Hin. apply (split_first_no_comma forwarded).
    rewrite Hs. by apply in_middle.
Qed.

Example getClientIP_behind_two_proxies :
  getClientIP (mkRequest (fun name => if String.eqb name "x-forwarded-for"
                                      then Some " 203.0.113.7 , 10.0.0.1" else None)
                         (Some "10.0.0.1"))
  = Some "203.0.113.7".
Proof. reflexivity. Qed.

Lemma getClientIP_first_forwarded_witness :
  let request := mkRequest (fun name => if String.eqb name "x-forwarded-for"
                                        then Some " 203.0.113.7 , 10.0.0.1" else None)
                           (Some "10.0.0.1") in
  truthy (headers request "cf-connecting-ip") = false
  /\ truthy (headers request "x-real-ip") = false
  /\ headers request "x-forwarded-for" = Some " 203.0.113.7 , 10.0.0.1"
  /\ exists ip pre post,
       getClientIP request = Some ip
       /\ (" 203.0.113.7 , 10.0.0.1" = pre +:+ ip +:+ post
           \/ exists others,
                " 203.0.113.7 , 10.0.0.1" = (pre +:+ ip +:+ post) +:+ "," +:+ others)
       /\ blank pre /\ blank post
       /\ ~ In ","%char (list_ascii_of_string ip)
       /\ (forall c rest, ip = String c rest -> isWhiteSpace c = false)
       /\ (forall body c, ip = body +:+ String c "" -> isWhiteSpace c = false).
Proof.
  intros request. split; [reflexivity|]. split; [reflexivity|]. split; [reflexivity|].
  apply (getClientIP_first_forwarded request " 203.0.113.7 , 10.0.0.1");
    first [reflexivity | discriminate].
Defined.

(** ** The segment route *)

Lemma substring_all (s : string) : String.substring 0 (String.length s) s = s.
Proof. induction s as [|c s IH]; simpl; [reflexivity|]. by rewrite IH. Qed.

Lemma substring_skip (p s : string) (m : nat) :
  String.substring (String.length p) m (p +:+ s) = String.substring 0 m s.
Proof. induction p as [|c p IH]; simpl; [reflexivity | exact IH]. Qed.

Lemma substring_split (n : nat) :
  forall s, (n <= String.length s)%nat ->
    exists p, String.length p = n
              /\ s = p +:+ String.substring n (String.length s - n) s.
Proof.
  induction n as [|n IH]; intros s Hn.
  - exists "". split; [reflexivity|]. simpl. by rewrite Nat.sub_0_r, substring_all.
  - destruct s as [|c s]; simpl in Hn; [lia|].
    destruct (IH s) as (p & Hlen & Hs); [lia|].
    exists (String c p). split; [simpl; lia|].
    rewrite string_app_cons. simpl. congruence.
Qed.

(** [endsWith] is true exactly for the texts that are something
    followed by the suffix. *)
Lemma endsWith_iff (s suffix : string) :
  endsWith s suffix = true <-> exists p, s = p +:+ suffix.
Proof.
  unfold endsWith. rewrite andb_true_iff, Nat.leb_le, String.eqb_eq. split.
  - intros [Hle Hsub].
    destruct (substring_split (String.length s - String.length suffix) s) as (p & _ & Hs);
      [lia|].
    exists p.
    replace (String.length s - (String.length s - String.length suffix))%nat
      with (String.length suffix) in Hs by lia.
    by rewrite Hsub in Hs.
  - intros [p ->]. rewrite string_app_length. split; [lia|].
    replace (String.length p + String.length suffix - String.length suffix)%nat
      with (String.length p) by lia.
    by rewrite substring_skip, substring_all.
Qed.

(** X5: the route serves a file only for a registered stream, a name
    that ends in [.ts] or [.m3u8] and a file that exists; the content
    type is [video/MP2T] for the [.ts] names and the playlist type for
    the others. *)
Theorem getSegment_serves_only_segments (fileExists : string -> string -> bool)
    (streamID segment : string) (w : World) (id name contentType : string) :
  getSegment fileExists streamID segment w = SegmentFile id name contentType ->
  id = streamID /\ name = segment
  /\ is_Some (streams w !! streamID)
  /\ fileExists streamID segment = true
  /\ ((exists p, segment = p +:+ ".ts") /\ contentType = "video/MP2T"
      \/ (exists p, segment = p +:+ ".m3u8")
         /\ contentType = "application/vnd.apple.mpegurl"
         /\ ~ (exists p, segment = p +:+ ".ts")).
Proof.
  unfold getSegment. intros H.
  destruct (endsWith segment ".ts") eqn:Hts; destruct (endsWith segment ".m3u8") eqn:Hm3u8;
    cbn [negb andb orb] in H;
    destruct (bool_decide (is_Some (streams w !! streamID))) eqn:Hreg;
    cbn [negb] in H; try discriminate;
    destruct (fileExists streamID segment) eqn:Hfile; cbn [negb] in H; try discriminate;
    simplify_eq; apply bool_decide_eq_true in Hreg.
  - repeat split; try done. left. split; [by apply endsWith_iff | done].
  - repeat split; try done. left. split; [by apply endsWith_iff | done].
  - repeat split; try done. right. split; [by apply endsWith_iff|]. split; [done|].
    intros Hp. apply endsWith_iff in Hp. congruence.
Qed.

Lemma getSegment_serves_only_segments_witness :
  getSegment (fun _ _ => true) "s1" "index.m3u8" example_world
  = SegmentFile "s1" "index.m3u8" "application/vnd.apple.mpegurl"
  /\ is_Some (streams example_world !! "s1")
  /\ exists p, "index.m3u8" = p +:+ ".m3u8".
Proof.
  split; [reflexivity|].
  destruct (getSegment_serves_only_segments (fun _ _ => true) "s1" "index.m3u8"
              example_world "s1" "index.m3u8" "application/vnd.apple.mpegurl" eq_refl)
    as (_ & _ & Hreg & _ & [[_ Hct]|[Hp _]]).
  - discriminate Hct.
  - split; [exact Hreg | exact Hp].
Defined.

(** ** The upload route *)

Section UploadProperties.

Variable MAX_UPLOAD_SIZE : nat.
Variable streamsDirectory : string.
Variable maxResolution : Z.
Variable maxFramerate : Z.
Variable fileTypeFromBuffer : list Byte.byte -> option FileType.

Local Abbreviation read_chunk := (readChunk MAX_UPLOAD_SIZE fileTypeFromBuffer).
Local Abbreviation read_all := (readAll MAX_UPLOAD_SIZE fileTypeFromBuffer).
Local Abbreviation post_upload :=
  (postUpload MAX_UPLOAD_SIZE streamsDirectory maxResolution maxFramerate
     fileTypeFromBuffer).

Local Abbreviation reading_of := (reading_of fileTypeFromBuffer).

Lemma probe_grows (seen value : list Byte.byte) :
  (if (length (take MAX_PROBE_BYTES seen) <? MAX_PROBE_BYTES)%nat then
     if (MAX_PROBE_BYTES <? length (take MAX_PROBE_BYTES seen ++ value))%nat
     then take MAX_PROBE_BYTES (take MAX_PROBE_BYTES seen ++ value)
     else take MAX_PROBE_BYTES seen ++ value
   else take MAX_PROBE_BYTES seen)
  = take MAX_PROBE_BYTES (seen ++ value).
Proof.
  rewrite length_take.
  destruct (Nat.ltb_spec (MAX_PROBE_BYTES `min` length seen) MAX_PROBE_BYTES) as [Hshort|Hfull].
  - rewrite (take_ge seen) by lia.
    destruct (Nat.ltb_spec MAX_PROBE_BYTES (length (seen ++ value))); [reflexivity|].
    by rewrite take_ge by lia.
  - by rewrite take_app_le by lia.
Qed.

Lemma readChunk_step (seen value : list Byte.byte) (r : Reading) :
  reading_of seen r ->
  if (MAX_UPLOAD_SIZE <? length (seen ++ value))%nat
  then read_chunk value r = None
  else exists r', read_chunk value r = Some r' /\ reading_of (seen ++ value) r'.
Proof.
  intros [Htotal Hprobe Htype]. unfold readChunk.
  rewrite Htotal, <- length_app.
  destruct (MAX_UPLOAD_SIZE <? length (seen ++ value))%nat; [reflexivity|].
  eexists. split; [reflexivity|].
  rewrite Hprobe, probe_grows. split; cbn [totalBytes probeBuffer fileType].
  - reflexivity.
  - reflexivity.
  - intros found Hfound. destruct (fileType r) as [before|] eqn:Hbefore.
    + simplify_eq. destruct (Htype found eq_refl) as [Hfull Hseen].
      rewrite length_app. split; [lia|]. by rewrite take_app_le by lia.
    + destruct (Nat.leb_spec MAX_PROBE_BYTES (length (take MAX_PROBE_BYTES (seen ++ value))))
        as [Hfull|Hshort]; [|discriminate].
      rewrite length_take in Hfull. split; [lia | exact Hfound].
Qed.

Lemma readAll_run (chunks : list (list Byte.byte)) :
  forall (seen : list Byte.byte) (r : Reading),
    reading_of seen r ->
    (length seen <= MAX_UPLOAD_SIZE)%nat ->
    if (MAX_UPLOAD_SIZE <? length (seen ++ concat chunks))%nat
    then read_all chunks r = None
    else exists r', read_all chunks r = Some r' /\ reading_of (seen ++ concat chunks) r'.
Proof.
  induction chunks as [|value rest IH]; intros seen r Hr Hfits; cbn [readAll concat].
  - rewrite app_nil_r. destruct (Nat.ltb_spec MAX_UPLOAD_SIZE (length seen)); [lia|].
    by exists r.
  - pose proof (readChunk_step seen value r Hr) as Hstep.
    destruct (Nat.ltb_spec MAX_UPLOAD_SIZE (length (seen ++ value))) as [Hover|Hunder].
    + rewrite Hstep.
      destruct (Nat.ltb_spec MAX_UPLOAD_SIZE (length (seen ++ value ++ concat rest)));
        [reflexivity|]. rewrite !length_app in *. lia.
    + destruct Hstep as (r' & -> & Hr').
      specialize (IH (seen ++ value) r' Hr' Hunder).
      by rewrite <- app_assoc in IH.
Qed.

(** X6: for a body that is read to its end, the answer of the upload
    is 413 when the body is larger than the limit, however it is cut
    into chunks; otherwise 422 when [fileTypeFromBuffer] finds no type
    or an unsupported one in its first 4100 bytes; otherwise 500 when
    [rename] rejects or [getVideoMetadata] throws, and the new stream
    when both succeed.  The chunks count only through their
    concatenation and through what [rename] finds on the disk. *)
Theorem postUpload_verdict (rngId rngToken : nat -> Byte.byte)
    (chunks : list (list Byte.byte)) (renamed : bool) (metadata : option (Z * Z * Z))
    (now : Z) (w : World) :
  (post_upload rngId rngToken (Some chunks) renamed metadata now w).1
  = if (MAX_UPLOAD_SIZE <? length (concat chunks))%nat then FileTooLarge
    else match fileTypeFromBuffer (take MAX_PROBE_BYTES (concat chunks)) with
         | Some found =>
             if bool_decide (mime found ∈ supportedFileMimes)
             then if renamed && bool_decide (is_Some metadata)
                  then StreamCreated (generateRandomString rngId 32)
                                     (generateRandomString rngToken 16)
                  else InternalServerError
             else UnsupportedFileType
         | None => UnsupportedFileType
         end.
Proof.
  unfold postUpload.
  pose proof (readAll_run chunks [] (mkReading 0 [] None)) as Hrun.
  cbn [app] in Hrun.
  destruct (MAX_UPLOAD_SIZE <? length (concat chunks))%nat.
  - rewrite Hrun; [reflexivity | by split | cbn; lia].
  - destruct Hrun as (r & -> & [_ Hprobe Htype]); [by split | cbn; lia |].
    rewrite Hprobe. destruct (fileType r) as [found|] eqn:Hfound.
    + destruct (Htype found eq_refl) as [_ ->].
      destruct (bool_decide (mime found ∈ supportedFileMimes)); [|reflexivity].
      destruct renamed; [|reflexivity]. by destruct metadata as [[[? ?] ?]|].
    + destruct (fileTypeFromBuffer (take MAX_PROBE_BYTES (concat chunks))) as [found|];
        [|reflexivity].
      destruct (bool_decide (mime found ∈ supportedFileMimes)); [|reflexivity].
      destruct renamed; [|reflexivity]. by destruct metadata as [[[? ?] ?]|].
Qed.

(** X7: every upload leaves its directory on the disk, also when it is
    refused (400, 413, 422) or fails (500), and then registers
    nothing; an upload that is accepted leaves the world that [upload]
    describes for the metadata read, with the new stream stopped.  The
    connections and the processes are untouched in every case. *)
Theorem postUpload_effects (rngId rngToken : nat -> Byte.byte)
    (body : option (list (list Byte.byte))) (renamed : bool)
    (metadata : option (Z * Z * Z)) (now : Z) (w : World) :
  let result := post_upload rngId rngToken body renamed metadata now w in
  match result.1 with
  | StreamCreated id token =>
      exists stream,
        streams result.2 = <[id := stream]> (streams w)
        /\ Stream.id stream = id /\ Stream.token stream = token
        /\ Stream.state stream = stopped
        /\ Stream.keepAlive stream = now
        /\ Stream.directory stream = join streamsDirectory id
        /\ renamed = true
        /\ (exists extension metaWidth metaHeight metaFramerate,
              metadata = Some (metaWidth, metaHeight, metaFramerate)
              /\ result.2 = upload streamsDirectory maxResolution maxFramerate
                              rngId rngToken extension
                              metaWidth metaHeight metaFramerate now w)
  | _ => streams result.2 = streams w
  end
  /\ dirs result.2 = {[ join streamsDirectory (generateRandomString rngId 32) ]} ∪ dirs w
  /\ ffmpegProcesses result.2 = ffmpegProcesses w
  /\ websocketClients result.2 = websocketClients w
  /\ sockets result.2 = sockets w
  /\ alive result.2 = alive w.
Proof.
  intros result. subst result. unfold postUpload.
  destruct body as [chunks|]; [|by repeat split].
  destruct (read_all chunks (mkReading 0 [] None)) as [r|]; [|by repeat split].
  destruct (match fileType r with
            | Some found => Some found
            | None => fileTypeFromBuffer (probeBuffer r)
            end) as [found|]; [|by repeat split].
  destruct (bool_decide (mime found ∈ supportedFileMimes)); [|by repeat split].
  destruct renamed; [|by repeat split].
  destruct metadata as [[[metaWidth metaHeight] metaFramerate]|]; [|by repeat split].
  cbn [fst snd negb]. split; [|by repeat split].
  eexists. split; [reflexivity|]. repeat split.
  by exists (ext found), metaWidth, metaHeight, metaFramerate.
Qed.

End UploadProperties.

(** ** More of the message handler *)

Section MoreHandlers.

Variable unicode_L : N -> bool.
Variable unicode_N : N -> bool.
Variable MAX_KEEP_ALIVE : Z.
Variable streamsDirectory : string.
Variable maxResolution : Z.
Variable maxFramerate : Z.

Local Abbreviation handle := (message unicode_L unicode_N).
Local Abbreviation step_ :=
  (step unicode_L unicode_N MAX_KEEP_ALIVE streamsDirectory maxResolution maxFramerate).
Local Abbreviation run_ :=
  (run unicode_L unicode_N MAX_KEEP_ALIVE streamsDirectory maxResolution maxFramerate).

(** X8: for a subscribed connection whose session is registered, a
    [keepAlive] command that carries a stream field is refused, with
    nothing changed but the failure frame sent, unless the session is
    started and has a process; then the keep-alive of the session
    becomes the current time, nothing else of the session changes, and
    the success frame is sent. *)
Theorem keepAlive_command (ws : conn) (data : Data.t) (geo : option string) (now : Z)
    (w : World) (client : Client.t) (stream : Stream.t) :
  truthy (Data.stream data) = true ->
  Data.type data = Some "keepAlive" ->
  websocketClients w !! ws = Some client ->
  streams w !! Client.stream client = Some stream ->
  exists w',
    handle ws (Json data) geo now w = Returned w'
    /\ if bool_decide (Stream.state stream = started)
          && bool_decide (is_Some (ffmpegProcesses w !! Client.stream client))
       then
         streams w' = <[Client.stream client := Stream.set_keepAlive now stream]> (streams w)
         /\ ffmpegProcesses w' = ffmpegProcesses w
         /\ websocketClients w' = websocketClients w
         /\ alive w' = alive w
         /\ dirs w' = dirs w
         /\ sockets w'
            = alter (deliver (Payload.ok (Some "keepAlive") "Keep alive registered!")) ws
                (sockets w)
       else exists cause, only_reply ws (Payload.failure (Some "keepAlive") cause) w w'.
Proof.
  intros Hfield Htype Hclient Hstream. unfold message.
  rewrite Hfield, Hclient, Hstream. cbn [negb].
  rewrite decide_False by (rewrite Htype; discriminate).
  rewrite decide_True by done. unfold command_keepAlive. rewrite Htype.
  destruct (bool_decide (Stream.state stream = started));
    destruct (bool_decide (is_Some (ffmpegProcesses w !! Client.stream client)));
    cbn [negb orb andb]; eexists; (split; [reflexivity|]);
    first [by repeat split | eexists; apply ws_send_only_reply].
Qed.

(** X9: a command of a type the server does not know is answered with
    a failure frame that echoes the type; nothing else changes: the
    connection keeps its entry and is open or closed as it was. *)
Theorem unknown_command (ws : conn) (data : Data.t) (geo : option string) (now : Z)
    (w : World) (client : Client.t) (stream : Stream.t) :
  truthy (Data.stream data) = true ->
  Data.type data <> Some "start" ->
  Data.type data <> Some "keepAlive" ->
  Data.type data <> Some "message" ->
  websocketClients w !! ws = Some client ->
  streams w !! Client.stream client = Some stream ->
  exists w',
    handle ws (Json data) geo now w = Returned w'
    /\ only_reply ws (Payload.failure (Data.type data) "This type doesn't exist!") w w'
    /\ websocketClients w' !! ws = Some client
    /\ status w' ws = status w ws.
Proof.
  intros Hfield Hstart HkeepAlive Hmessage Hclient Hstream. unfold message.
  rewrite Hfield, Hclient, Hstream. cbn [negb].
  rewrite !decide_False by done. unfold command_default.
  eexists. split; [reflexivity|]. split; [apply ws_send_only_reply|].
  split; [exact Hclient | apply status_ws_send].
Qed.


End MoreHandlers.

(** ** Teardown *)

(** What [killStream] does when it is given an id and a path. *)
Lemma killStream_with_path (id path : string) (w : World) :
  exists w',
    killStream (KString id) (Some path) w = Returned w'
    /\ ffmpegProcesses w' = delete id (ffmpegProcesses w)
    /\ streams w' = delete id (streams w)
    /\ alive w' = match ffmpegProcesses w !! id with
                  | Some ffmpeg => alive w ∖ {[pid ffmpeg]}
                  | None => alive w
                  end
    /\ websocketClients w' = websocketClients w
    /\ sockets w' = sockets w
    /\ dirs w' ⊆ dirs w
    /\ (path <> "" -> dirs w' = dirs w ∖ {[path]}).
Proof.
  unfold killStream, Map_has. cbn [Map_get Map_delete ToBoolean].
  assert (Hpath : path <> "" -> truthy (Some path) = true).
  { intros Hne. cbn. by destruct (String.eqb_spec path ""). }
  destruct (ffmpegProcesses w !! id) as [ffmpeg|] eqn:Hprocess;
    destruct (streams w !! id) as [stream|] eqn:Hstream;
    destruct (truthy (Some path)) eqn:Htruthy;
    cbn; rewrite ?Hstream; cbn; rewrite ?Hstream;
    (eexists; split; [reflexivity|]); cbn;
    rewrite ?(delete_id _ _ Hprocess), ?(delete_id _ _ Hstream);
    repeat split; try done; try (apply subseteq_difference_l; done);
    intros Hne; specialize (Hpath Hne); discriminate.
Qed.

(** X13: given the id of a stream and the path of its directory,
    [killStream] returns with the process of the stream killed and
    deregistered, the session deregistered and the directory removed;
    the other sessions and processes, and all the connections and
    their entries, are as they were. *)
Theorem killStream_tears_down (id path : string) (w : World) :
  path <> "" ->
  exists w',
    killStream (KString id) (Some path) w = Returned w'
    /\ ffmpegProcesses w' !! id = None
    /\ streams w' !! id = None
    /\ (path ∉ dirs w')
    /\ (forall ffmpeg, ffmpegProcesses w !! id = Some ffmpeg -> pid ffmpeg ∉ alive w')
    /\ (forall other, other <> id ->
          ffmpegProcesses w' !! other = ffmpegProcesses w !! other
          /\ streams w' !! other = streams w !! other)
    /\ websocketClients w' = websocketClients w
    /\ sockets w' = sockets w.
Proof.
  intros Hpath.
  destruct (killStream_with_path id path w)
    as (w' & Hrun & Hprocesses & Hstreams & Halive & Hclients & Hsockets & _ & Hdirs).
  exists w'. split; [exact Hrun|].
  rewrite Hprocesses, Hstreams, (Hdirs Hpath), Halive.
  split; [apply lookup_delete_eq|]. split; [apply lookup_delete_eq|].
  split; [apply not_elem_of_difference; right; by apply elem_of_singleton|].
  split.
  - intros ffmpeg ->. apply not_elem_of_difference. right. by apply elem_of_singleton.
  - split; [|done]. intros other Hother. by rewrite !lookup_delete_ne.
Qed.

(** X14: without a path, [killStream] takes the directory from the
    session registered under the id and tears the stream down as well, when
    there is such a session. *)
Theorem killStream_default_path (id : string) (stream : Stream.t) (w : World) :
  streams w !! id = Some stream ->
  exists w',
    killStream (KString id) None w = Returned w'
    /\ ffmpegProcesses w' = delete id (ffmpegProcesses w)
    /\ streams w' = delete id (streams w)
    /\ dirs w' = dirs w ∖ {[ Stream.directory stream ]}
    /\ (forall ffmpeg, ffmpegProcesses w !! id = Some ffmpeg -> pid ffmpeg ∉ alive w').
Proof.
  intros Hstream. unfold killStream, Map_has. cbn [Map_get Map_delete ToBoolean].
  destruct (ffmpegProcesses w !! id) as [ffmpeg|] eqn:Hprocess;
    cbn; rewrite ?Hstream; cbn; rewrite ?Hstream;
    (eexists; split; [reflexivity|]); cbn;
    rewrite ?(delete_id _ _ Hprocess); repeat split; try done.
  intros ? [= <-]. apply not_elem_of_difference. right. by apply elem_of_singleton.
Qed.

Section Sweeps.

Variable streamsDirectory : string.

Lemma sweep_process_step (id : string) (ffmpeg : Subprocess) (w : World) :
  ffmpegProcesses w !! id = Some ffmpeg ->
  exists w',
    sweep_process streamsDirectory (id, ffmpeg) w = Returned w'
    /\ streams w' = streams w
    /\ alive w' ⊆ alive w
    /\ (forall other, other <> id -> ffmpegProcesses w' !! other = ffmpegProcesses w !! other)
    /\ match streams w !! id with
       | Some _ => ffmpegProcesses w' !! id = Some ffmpeg
       | None => ffmpegProcesses w' !! id = None /\ pid ffmpeg ∉ alive w'
       end.
Proof.
  intros Hprocess. unfold sweep_process, caught.
  destruct (streams w !! id) as [stream|] eqn:Hstream; cbn [bool_decide negb].
  - rewrite bool_decide_eq_true_2 by done. cbn [negb].
    exists w. by repeat split.
  - rewrite bool_decide_eq_false_2 by (intros [? ?]; discriminate). cbn [negb].
    unfold killed. destruct (bool_decide (pid ffmpeg ∉ alive w)) eqn:Hkilled; cbn [negb].
    + apply bool_decide_eq_true in Hkilled.
      eexists. split; [reflexivity|]. cbn. repeat split; try done.
      * intros other Hother. by rewrite lookup_delete_ne.
      * apply lookup_delete_eq.
    + destruct (killStream_with_path id (join streamsDirectory id) w)
        as (w' & -> & Hprocesses & Hstreams & Halive & _).
      exists w'. split; [reflexivity|]. cbn [world_of].
      rewrite Hstreams, Hprocesses, Halive, Hprocess.
      rewrite (delete_id _ _ Hstream).
      split; [done|]. split; [apply subseteq_difference_l; done|]. split.
      * intros other Hother. by rewrite lookup_delete_ne.
      * split; [apply lookup_delete_eq|].
        apply not_elem_of_difference. right. by apply elem_of_singleton.
Qed.

Lemma orphans_loop (entries : list (string * Subprocess)) :
  forall w,
    NoDup entries.*1 ->
    (forall id ffmpeg, (id, ffmpeg) ∈ entries -> ffmpegProcesses w !! id = Some ffmpeg) ->
    exists w',
      forOf (sweep_process streamsDirectory) entries w = Returned w'
      /\ streams w' = streams w
      /\ alive w' ⊆ alive w
      /\ (forall other, other ∉ entries.*1 ->
            ffmpegProcesses w' !! other = ffmpegProcesses w !! other)
      /\ (forall id ffmpeg, (id, ffmpeg) ∈ entries ->
            match streams w !! id with
            | Some _ => ffmpegProcesses w' !! id = Some ffmpeg
            | None => ffmpegProcesses w' !! id = None /\ pid ffmpeg ∉ alive w'
            end).
Proof.
  induction entries as [|[id ffmpeg] rest IH]; intros w Hnodup Hentries; cbn [forOf].
  - exists w. repeat split; try done. intros ? ? Hin. by apply elem_of_nil in Hin.
  - cbn [fmap list_fmap fst] in Hnodup. apply NoDup_cons in Hnodup as [Hfresh Hnodup].
    destruct (sweep_process_step id ffmpeg w) as (w1 & -> & Hstreams1 & Halive1 & Hother1 & Hid1).
    { apply Hentries. by left. }
    cbn [andThen].
    destruct (IH w1 Hnodup) as (w' & -> & Hstreams & Halive & Hother & Hin).
    { intros id' ffmpeg' Hin'. rewrite Hother1.
      - apply Hentries. by right.
      - intros ->. apply Hfresh. apply list_elem_of_fmap. by exists (id, ffmpeg'). }
    exists w'. split; [reflexivity|]. split; [congruence|].
    split; [by transitivity (alive w1)|]. split.
    + intros other Hnotin. cbn [fmap list_fmap fst] in Hnotin.
      apply not_elem_of_cons in Hnotin as [Hne Hnotin].
      by rewrite Hother, Hother1.
    + intros id' ffmpeg' Hin'. apply elem_of_cons in Hin' as [[= -> ->]|Hin'].
      * rewrite (Hother id Hfresh).
        destruct (streams w !! id); [exact Hid1|].
        destruct Hid1 as [Hgone Hdead]. split; [exact Hgone|].
        intros Hstill. apply Hdead. by apply Halive.
      * specialize (Hin id' ffmpeg' Hin'). by rewrite Hstreams1 in Hin.
Qed.

(** X15: the sweep over the process table returns, and afterwards no
    process is registered without a session: the handle of every
    stream that is not in [global.streams] is deregistered and its
    process is not running, while the handles of the registered streams
    and the sessions themselves are as they were. *)
Theorem orphans_leaves_no_orphan (w : World) :
  exists w',
    orphans streamsDirectory w = Returned w'
    /\ streams w' = streams w
    /\ (forall id, ffmpegProcesses w' !! id
                   = match streams w !! id with
                     | Some _ => ffmpegProcesses w !! id
                     | None => None
                     end)
    /\ (forall id ffmpeg, ffmpegProcesses w !! id = Some ffmpeg ->
          streams w !! id = None -> pid ffmpeg ∉ alive w')
    /\ alive w' ⊆ alive w.
Proof.
  unfold orphans.
  destruct (orphans_loop (map_to_list (ffmpegProcesses w)) w)
    as (w' & Hrun & Hstreams & Halive & Hother & Hin).
  { apply NoDup_fst_map_to_list. }
  { intros id ffmpeg Hin. by apply elem_of_map_to_list in Hin. }
  exists w'. split; [exact Hrun|]. split; [exact Hstreams|]. split; [|split; [|exact Halive]].
  - intros id. destruct (ffmpegProcesses w !! id) as [ffmpeg|] eqn:Hprocess.
    + assert (Hentry : (id, ffmpeg) ∈ map_to_list (ffmpegProcesses w))
        by by apply elem_of_map_to_list.
      specialize (Hin id ffmpeg Hentry).
      destruct (streams w !! id); [exact Hin | apply Hin].
    + rewrite Hother, Hprocess; [by destruct (streams w !! id)|].
      intros Hkey. apply list_elem_of_fmap in Hkey as ([id' ffmpeg] & -> & Hentry).
      apply elem_of_map_to_list in Hentry. cbn in Hprocess. congruence.
  - intros id ffmpeg Hprocess Hgone.
    assert (Hentry : (id, ffmpeg) ∈ map_to_list (ffmpegProcesses w))
      by by apply elem_of_map_to_list.
    specialize (Hin id ffmpeg Hentry). rewrite Hgone in Hin. apply Hin.
Qed.

Lemma stop_process_step (id : string) (ffmpeg : Subprocess) (w : World) :
  ffmpegProcesses w !! id = Some ffmpeg ->
  exists w',
    stop_process streamsDirectory (id, ffmpeg) w = Returned w'
    /\ alive w' ⊆ alive w
    /\ (pid ffmpeg ∉ alive w')
    /\ (forall other, other <> id -> ffmpegProcesses w' !! other = ffmpegProcesses w !! other).
Proof.
  intros Hprocess. unfold stop_process, killed.
  destruct (bool_decide (pid ffmpeg ∉ alive w)) eqn:Hkilled; cbn [negb].
  - apply bool_decide_eq_true in Hkilled. by exists w.
  - destruct (killStream_with_path id (join streamsDirectory id) w)
      as (w' & -> & Hprocesses & _ & Halive & _).
    exists w'. split; [reflexivity|]. rewrite Hprocesses, Halive, Hprocess.
    split; [apply subseteq_difference_l; done|]. split.
    + apply not_elem_of_difference. right. by apply elem_of_singleton.
    + intros other Hother. by rewrite lookup_delete_ne.
Qed.

Lemma shutdown_loop (entries : list (string * Subprocess)) :
  forall w,
    NoDup entries.*1 ->
    (forall id ffmpeg, (id, ffmpeg) ∈ entries -> ffmpegProcesses w !! id = Some ffmpeg) ->
    exists w',
      forOf (stop_process streamsDirectory) entries w = Returned w'
      /\ alive w' ⊆ alive w
      /\ (forall id ffmpeg, (id, ffmpeg) ∈ entries -> pid ffmpeg ∉ alive w').
Proof.
  induction entries as [|[id ffmpeg] rest IH]; intros w Hnodup Hentries; cbn [forOf].
  - exists w. repeat split; try done. intros ? ? Hin. by apply elem_of_nil in Hin.
  - cbn [fmap list_fmap fst] in Hnodup. apply NoDup_cons in Hnodup as [Hfresh Hnodup].
    destruct (stop_process_step id ffmpeg w) as (w1 & -> & Halive1 & Hdead1 & Hother1).
    { apply Hentries. by left. }
    cbn [andThen].
    destruct (IH w1 Hnodup) as (w' & -> & Halive & Hin).
    { intros id' ffmpeg' Hin'. rewrite Hother1.
      - apply Hentries. by right.
      - intros ->. apply Hfresh. apply list_elem_of_fmap. by exists (id, ffmpeg'). }
    exists w'. split; [reflexivity|]. split; [by transitivity (alive w1)|].
    intros id' ffmpeg' Hin'. apply elem_of_cons in Hin' as [[= -> ->]|Hin'].
    + intros Hstill. apply Hdead1. by apply Halive.
    + by apply (Hin id' ffmpeg').
Qed.

(** X16: the loop of the fatal-error handlers returns, and afterwards
    no process that had a handle in the process table is running; it
    starts no process. *)
Theorem shutdown_stops_every_process (w : World) :
  exists w',
    shutdown streamsDirectory w = Returned w'
    /\ (forall id ffmpeg, ffmpegProcesses w !! id = Some ffmpeg -> pid ffmpeg ∉ alive w')
    /\ alive w' ⊆ alive w.
Proof.
  unfold shutdown.
  destruct (shutdown_loop (map_to_list (ffmpegProcesses w)) w) as (w' & Hrun & Halive & Hin).
  { apply NoDup_fst_map_to_list. }
  { intros id ffmpeg Hin. by apply elem_of_map_to_list in Hin. }
  exists w'. split; [exact Hrun|]. split; [|exact Halive].
  intros id ffmpeg Hprocess. apply (Hin id ffmpeg). by apply elem_of_map_to_list.
Qed.

End Sweeps.


(** ** Invariants of the registry and of the subscriptions *)

Lemma streams_open (ws : conn) (address : string) (w : World) :
  streams (open ws address w) = streams w.
Proof. unfold open, forget. cbn. by destruct (websocketClients w !! ws). Qed.

Lemma subscriptions_ws_send (ws ws' : conn) (p : Payload.t) (w : World) :
  subscriptions (ws_send ws p w) ws' = subscriptions w ws'.
Proof.
  unfold subscriptions, ws_send. cbn. rewrite lookup_alter. case_decide; [subst|done].
  destruct (sockets w !! ws') as [s|]; cbn; [|done].
  unfold deliver. by destruct (isOpen s) eqn:Hopen; cbn; rewrite ?Hopen.
Qed.

Lemma subscriptions_server_publish (topic : string) (ws' : conn) (p : Payload.t) (w : World) :
  subscriptions (server_publish topic p w) ws' = subscriptions w ws'.
Proof.
  unfold subscriptions, server_publish. cbn. rewrite lookup_fmap.
  destruct (sockets w !! ws') as [s|]; cbn; [|done].
  case_decide; [|done]. unfold deliver. by destruct (isOpen s) eqn:Hopen; cbn; rewrite ?Hopen.
Qed.

Lemma subscriptions_close (ws ws' : conn) (w : World) :
  ws <> ws' -> subscriptions (close ws w) ws' = subscriptions w ws'.
Proof.
  intros Hne. unfold subscriptions, close, forget. cbn.
  destruct (websocketClients w !! ws); cbn; by rewrite ?lookup_alter_ne.
Qed.

Lemma subscriptions_open (ws ws' : conn) (address : string) (w : World) :
  ws <> ws' -> subscriptions (open ws address w) ws' = subscriptions w ws'.
Proof.
  intros Hne. unfold subscriptions, open, forget. cbn.
  destruct (websocketClients w !! ws); cbn;
    by rewrite ?lookup_alter_ne, ?lookup_insert_ne.
Qed.

Lemma deliveries_only_refl (w : World) : deliveries_only w w.
Proof. by split. Qed.

Lemma deliveries_only_trans (w1 w2 w3 : World) :
  deliveries_only w1 w2 -> deliveries_only w2 w3 -> deliveries_only w1 w3.
Proof.
  intros [Hc1 Hs1] [Hc2 Hs2]. split; [congruence|].
  intros ws. by rewrite Hs2, Hs1.
Qed.

Lemma sweep_stream_deliveries (M now : Z) (entry : string * Stream.t) (w : World) :
  deliveries_only w (world_of (sweep_stream M now entry w)).
Proof.
  destruct entry as [id stream]. unfold sweep_stream.
  destruct (now - Stream.keepAlive stream >? M).
  - rewrite killStream_foreign_key by (intros s; apply handle_or_undefined_foreign).
    cbn [andThen world_of]. destruct (0 <? viewers id w)%nat; split; try done.
    intros ws. by rewrite subscriptions_server_publish.
  - cbn [andThen world_of]. destruct (0 <? viewers id w)%nat; split; try done.
    intros ws. by rewrite subscriptions_server_publish.
Qed.

Lemma sweep_process_deliveries (dir : string) (entry : string * Subprocess) (w : World) :
  deliveries_only w (world_of (sweep_process dir entry w)).
Proof.
  destruct entry as [id ffmpeg]. unfold sweep_process, caught.
  destruct (negb (bool_decide (is_Some (streams w !! id)))); [|by split].
  destruct (negb (killed ffmpeg w)); [|by split].
  destruct (killStream_with_path id (join dir id) w)
    as (w' & -> & _ & _ & _ & Hclients & Hsockets & _).
  cbn [world_of]. split; [exact Hclients|].
  intros ws. unfold subscriptions. by rewrite Hsockets.
Qed.

Section Invariants.

Variable unicode_L : N -> bool.
Variable unicode_N : N -> bool.
Variable MAX_KEEP_ALIVE : Z.
Variable streamsDirectory : string.
Variable maxResolution : Z.
Variable maxFramerate : Z.

Local Abbreviation handle := (message unicode_L unicode_N).
Local Abbreviation step_ :=
  (step unicode_L unicode_N MAX_KEEP_ALIVE streamsDirectory maxResolution maxFramerate).
Local Abbreviation run_ :=
  (run unicode_L unicode_N MAX_KEEP_ALIVE streamsDirectory maxResolution maxFramerate).

(** A message keeps every session under its key and with its id. *)
Lemma message_keeps_ids (ws : conn) (parsed : Parsed) (geo : option string) (now : Z)
    (w : World) (key : string) (stream' : Stream.t) :
  streams (world_of (handle ws parsed geo now w)) !! key = Some stream' ->
  exists stream, streams w !! key = Some stream /\ Stream.id stream' = Stream.id stream.
Proof.
  intros H. handler_cases; rewrite ?streams_close in H; simpl in H;
    try (by eexists);
    (rewrite lookup_insert in H; case_decide; simplify_eq; by eexists).
Qed.

Lemma step_keeps_ids (ev : Event) (w : World) :
  keyed_by_id w -> keyed_by_id (step_ ev w).
Proof.
  intros Hkeyed key stream' H.
  destruct ev as [rngId rngToken ext mw mh mf now | ws address | ws parsed geo now
                 | ws | now | | p | id0 directory]; cbn [step] in H.
  - unfold upload in H. cbn in H. rewrite lookup_insert in H.
    case_decide; simplify_eq; [done | by apply Hkeyed].
  - apply Hkeyed. destruct (sockets w !! ws); [done|]. by rewrite streams_open in H.
  - destruct (sockets w !! ws) as [s|]; [|by apply Hkeyed].
    destruct (isOpen s); [|by apply Hkeyed].
    apply message_keeps_ids in H as (stream & Hstream & ->). by apply Hkeyed.
  - apply Hkeyed. by rewrite streams_close in H.
  - apply Hkeyed. by rewrite (hk_streams _ _ (reaper_housekeeping MAX_KEEP_ALIVE now w)) in H.
  - apply Hkeyed. by rewrite (hk_streams _ _ (orphans_housekeeping streamsDirectory w)) in H.
  - by apply Hkeyed.
  - apply Hkeyed. cbn in H. by apply lookup_delete_Some in H as [_ H].
Qed.

(** X17: every session is stored under its own id, at all times: what
    is true of the empty registry stays true whatever happens, uploads,
    messages, sweeps and exits. *)
Theorem sessions_keyed_by_id (evs : list Event) (w : World) :
  keyed_by_id w -> keyed_by_id (run_ evs w).
Proof.
  revert w. induction evs as [|ev rest IH]; intros w Hkeyed; [done|].
  apply (IH (step_ ev w)). by apply step_keeps_ids.
Qed.

(** A message changes the subscriptions of its sender only, and only
    by the subscription it asks for. *)
Lemma message_subscriptions (sender ws : conn) (parsed : Parsed) (geo : option string)
    (now : Z) (w : World) (client' : Client.t) :
  websocketClients (world_of (handle sender parsed geo now w)) !! ws = Some client' ->
  (websocketClients w !! ws = Some client'
   /\ subscriptions (world_of (handle sender parsed geo now w)) ws = subscriptions w ws)
  \/ (ws = sender
      /\ subscriptions (world_of (handle sender parsed geo now w)) ws
         = (fun sub => ({[ Client.stream client' ]} ∪ sub.1, sub.2)) <$> subscriptions w ws).
Proof.
  intros H. handler_cases;
    rewrite ?clients_close in H; try case_decide; simplify_eq;
    rewrite ?subscriptions_close, ?subscriptions_ws_send, ?subscriptions_server_publish
      by done;
    try (left; split; [done|]; unfold subscriptions; cbn; done).
  all: cbn in H; rewrite lookup_insert in H; case_decide; simplify_eq.
  all: first
    [ right; split; [done|]; cbn [Client.stream];
      unfold subscriptions, ws_subscribe; cbn; rewrite lookup_alter_eq;
      by destruct (sockets w !! ws)
    | left; split; [done|]; unfold subscriptions, ws_subscribe; cbn;
      by rewrite lookup_alter_ne ].
Qed.

Lemma viewers_subscribed_alt (w : World) :
  viewers_subscribed w
  <-> forall ws client, websocketClients w !! ws = Some client ->
        exists joined, subscriptions w ws = Some (joined, true)
                       /\ Client.stream client ∈ joined.
Proof.
  unfold viewers_subscribed, subscriptions. split; intros H ws client Hclient.
  - destruct (H ws client Hclient) as (s & -> & Hopen & Hin).
    exists (topics s). cbn. by rewrite Hopen.
  - destruct (H ws client Hclient) as (joined & Hsub & Hin).
    destruct (sockets w !! ws) as [s|]; cbn in Hsub; [|discriminate].
    exists s. simplify_eq. by repeat split.
Qed.

Lemma deliveries_keep_subscribed (w w' : World) :
  deliveries_only w w' -> viewers_subscribed w -> viewers_subscribed w'.
Proof.
  intros [Hclients Hsubs]. rewrite !viewers_subscribed_alt.
  intros H ws client Hclient. rewrite Hclients in Hclient. rewrite Hsubs. eauto.
Qed.

Lemma step_keeps_subscribed (ev : Event) (w : World) :
  viewers_subscribed w -> viewers_subscribed (step_ ev w).
Proof.
  intros Hsubscribed.
  pose proof (proj1 (viewers_subscribed_alt w) Hsubscribed) as Halt.
  destruct ev as [rngId rngToken ext mw mh mf now | ws' address | ws' parsed geo now
                 | ws' | now | | p | id0 directory]; cbn [step].
  - exact Hsubscribed.
  - destruct (sockets w !! ws') as [s|] eqn:Hs; [done|].
    apply viewers_subscribed_alt. intros ws client Hclient.
    destruct (decide (ws' = ws)) as [->|Hne].
    + unfold open in Hclient. rewrite clients_forget, decide_True in Hclient by done.
      discriminate.
    + rewrite clients_open in Hclient by done. rewrite subscriptions_open by done.
      by apply Halt.
  - destruct (sockets w !! ws') as [s|] eqn:Hs; [|done].
    destruct (isOpen s) eqn:Hopen; [|done].
    apply viewers_subscribed_alt. intros ws client Hclient.
    destruct (message_subscriptions ws' ws parsed geo now w client Hclient)
      as [[Hold ->]|[-> ->]].
    + by apply Halt.
    + unfold subscriptions. rewrite Hs. cbn. rewrite Hopen.
      eexists. split; [reflexivity|]. apply elem_of_union. left. by apply elem_of_singleton.
  - apply viewers_subscribed_alt. intros ws client Hclient.
    rewrite clients_close in Hclient. case_decide; [discriminate|].
    rewrite subscriptions_close by done. by apply Halt.
  - eapply deliveries_keep_subscribed; [|exact Hsubscribed].
    unfold reaper. apply forOf_respects.
    + apply deliveries_only_refl.
    + apply deliveries_only_trans.
    + apply sweep_stream_deliveries.
  - eapply deliveries_keep_subscribed; [|exact Hsubscribed].
    unfold orphans. apply forOf_respects.
    + apply deliveries_only_refl.
    + apply deliveries_only_trans.
    + apply sweep_process_deliveries.
  - exact Hsubscribed.
  - exact Hsubscribed.
Qed.

(** X19: a chat message reaches every viewer of the stream.  When the
    entries of [websocketClients] are subscribed as above, each
    connection whose entry names the stream of the sender is delivered
    the chat event, after the frames it already had. *)
Theorem chat_reaches_every_viewer (ws viewer : conn) (data : Data.t)
    (geo : option string) (now : Z) (w : World) (client watching : Client.t)
    (stream : Stream.t) :
  viewers_subscribed w ->
  truthy (Data.stream data) = true ->
  Data.type data = Some "message" ->
  truthy (Data.message data) = true ->
  websocketClients w !! ws = Some client ->
  streams w !! Client.stream client = Some stream ->
  websocketClients w !! viewer = Some watching ->
  Client.stream watching = Client.stream client ->
  exists w' before,
    handle ws (Json data) geo now w = Returned w'
    /\ mailbox w viewer = Some (before, true)
    /\ mailbox w' viewer = Some (before ++ [chat_event data client], true).
Proof.
  intros Hsubscribed Hfield Htype Hbody Hclient Hstream Hwatching Hsame.
  destruct (Hsubscribed viewer watching Hwatching) as (s & Hs & Hopen & Htopic).
  unfold message. rewrite Hfield, Hclient, Hstream. cbn [negb].
  rewrite decide_False by (rewrite Htype; discriminate).
  rewrite decide_False by (rewrite Htype; discriminate).
  rewrite decide_True by done. unfold command_message. rewrite Hbody, Htype. cbn [negb].
  eexists. exists (inbox s). split; [reflexivity|].
  unfold mailbox. cbn. rewrite lookup_fmap, Hs. cbn. split; [by rewrite Hopen|].
  rewrite decide_True by (by rewrite <- Hsame).
  unfold deliver. rewrite Hopen. reflexivity.
Qed.

(** X20: once a stream has been started, a [keepAlive] command that
    carries a stream field is accepted from any of its viewers: the
    process is registered under the key of the session, because the
    session is stored under its id. *)
Theorem keepAlive_after_start (ws ws2 : conn) (data data2 : Data.t)
    (geo geo2 : option string) (now now2 : Z) (w : World)
    (client client2 : Client.t) (stream : Stream.t) :
  keyed_by_id w ->
  truthy (Data.stream data) = true ->
  Data.type data = Some "start" ->
  websocketClients w !! ws = Some client ->
  streams w !! Client.stream client = Some stream ->
  Stream.state stream = stopped ->
  ffmpegProcesses w !! Client.stream client = None ->
  Client.host client = true ->
  truthy (Data.stream data2) = true ->
  Data.type data2 = Some "keepAlive" ->
  websocketClients w !! ws2 = Some client2 ->
  Client.stream client2 = Client.stream client ->
  exists w' w'',
    handle ws (Json data) geo now w = Returned w'
    /\ handle ws2 (Json data2) geo2 now2 w' = Returned w''
    /\ streams w'' !! Client.stream client
       = Some (Stream.set_keepAlive now2 (Stream.set_state started stream))
    /\ sockets w''
       = alter (deliver (Payload.ok (Some "keepAlive") "Keep alive registered!")) ws2
           (sockets w').
Proof.
  intros Hkeyed Hfield Htype Hclient Hstream Hstopped Hnone Hhost
    Hfield2 Htype2 Hclient2 Hsame.
  pose proof (Hkeyed _ _ Hstream) as Hid.
  unfold message at 1.
  rewrite Hfield, Hclient, Hstream. cbn [negb].
  rewrite decide_True by done. unfold command_start.
  rewrite Hstopped, Hnone, Hhost. cbn [negb orb].
  rewrite bool_decide_eq_false_2 by discriminate.
  rewrite bool_decide_eq_false_2 by (intros [? ?]; discriminate).
  cbn [orb].
  eexists. eexists. split; [reflexivity|].
  unfold message. rewrite Hfield2. cbn [negb].
  cbn [websocketClients ws_send with_sockets with_streams startStream spawn mkdir
         with_dirs with_alive with_spawned with_ffmpegProcesses streams].
  rewrite Hclient2, Hsame, lookup_insert_eq.
  rewrite decide_False by (rewrite Htype2; discriminate).
  rewrite decide_True by done. unfold command_keepAlive.
  cbn [Stream.state Stream.set_keepAlive Stream.set_state ffmpegProcesses
         with_sockets with_streams with_ffmpegProcesses ws_send].
  rewrite Hid, Hsame, lookup_insert_eq.
  rewrite bool_decide_eq_true_2 by done.
  rewrite bool_decide_eq_true_2 by by eexists.
  cbn [negb orb]. split; [reflexivity|]. cbn. rewrite lookup_insert_eq, Htype2.
  by split.
Qed.

End Invariants.

(** ** After the process has ended *)

(** X21: the callback of the end of the process returns, and from then
    on the stream is not registered, its process neither, its directory
    is not on the disk, and the route of the segments answers 404 for
    it, whatever the segment asked for and whatever [Bun.file] finds. *)
Theorem segment_gone_after_exit (fileExists : string -> string -> bool)
    (id directory segment : string) (w : World) :
  exists w',
    exited id directory w = Returned w'
    /\ streams w' !! id = None
    /\ ffmpegProcesses w' !! id = None
    /\ (directory ∉ dirs w')
    /\ getSegment fileExists id segment w' = SegmentNotFound.
Proof.
  unfold exited, rmdir. cbn [andThen]. eexists. split; [reflexivity|].
  cbn [streams ffmpegProcesses dirs with_streams with_ffmpegProcesses with_dirs].
  rewrite !lookup_delete_eq. repeat split.
  - apply not_elem_of_difference. right. by apply elem_of_singleton.
  - unfold getSegment.
    cbn [streams ffmpegProcesses dirs with_streams with_ffmpegProcesses with_dirs].
    rewrite lookup_delete_eq.
    rewrite (bool_decide_eq_false_2 (is_Some None)) by (intros [? ?]; discriminate).
    cbn [negb]. by rewrite orb_true_r.
Qed.

(** ** The properties above, on the example deployment *)

(** The viewer keeps the started stream alive at time 200. *)
Lemma keepAlive_command_witness :
  truthy (Data.stream keepAlive_full) = true
  /\ Data.type keepAlive_full = Some "keepAlive"
  /\ websocketClients example_started !! 2%nat = Some example_viewer
  /\ streams example_started !! Client.stream example_viewer
     = Some (Stream.set_keepAlive 100 (Stream.set_state started example_stream))
  /\ exists w',
       example_message 2%nat (Json keepAlive_full) None 200 example_started = Returned w'
       /\ streams w' !! "s1"
          = Some (Stream.set_keepAlive 200 (Stream.set_state started example_stream))
       /\ ffmpegProcesses w' = ffmpegProcesses example_started.
Proof.
  repeat (split; [reflexivity|]).
  destruct (keepAlive_command ascii_letter ascii_digit 2%nat keepAlive_full None 200
              example_started example_viewer
              (Stream.set_keepAlive 100 (Stream.set_state started example_stream))
              eq_refl eq_refl eq_refl eq_refl) as (w' & Hrun & Hthen).
  exists w'. split; [exact Hrun|].
  destruct Hthen as (Hstreams & Hprocesses & _).
  split; [by rewrite Hstreams | exact Hprocesses].
Defined.

(** A command of a type that does not exist. *)
Lemma unknown_command_witness :
  truthy (Data.stream dance_full) = true
  /\ Data.type dance_full <> Some "start"
  /\ Data.type dance_full <> Some "keepAlive"
  /\ Data.type dance_full <> Some "message"
  /\ websocketClients example_world !! 1%nat = Some example_host
  /\ streams example_world !! Client.stream example_host = Some example_stream
  /\ exists w',
       example_message 1%nat (Json dance_full) None 100 example_world = Returned w'
       /\ only_reply 1%nat (Payload.failure (Some "dance") "This type doesn't exist!")
            example_world w'.
Proof.
  split; [reflexivity|]. do 3 (split; [discriminate|]).
  do 2 (split; [reflexivity|]).
  destruct (unknown_command ascii_letter ascii_digit 1%nat dance_full None 100
              example_world example_host example_stream
              eq_refl ltac:(discriminate) ltac:(discriminate) ltac:(discriminate)
              eq_refl eq_refl) as (w' & Hrun & Hreply & _).
  exists w'. split; [exact Hrun | exact Hreply].
Defined.


(** The started stream of the example is torn down. *)
Lemma killStream_tears_down_witness :
  "streams/s1" <> ""
  /\ exists w',
       killStream (KString "s1") (Some "streams/s1") example_started = Returned w'
       /\ ffmpegProcesses w' !! "s1" = None
       /\ streams w' !! "s1" = None
       /\ ("streams/s1" ∉ dirs w').
Proof.
  split; [discriminate|].
  destruct (killStream_tears_down "s1" "streams/s1" example_started ltac:(discriminate))
    as (w' & Hrun & Hprocess & Hstream & Hdir & _).
  exists w'. split; [exact Hrun|]. split; [exact Hprocess|].
  split; [exact Hstream | exact Hdir].
Defined.

(** The same without the path. *)
Lemma killStream_default_path_witness :
  streams example_started !! "s1"
  = Some (Stream.set_keepAlive 100 (Stream.set_state started example_stream))
  /\ exists w',
       killStream (KString "s1") None example_started = Returned w'
       /\ ffmpegProcesses w' = delete "s1" (ffmpegProcesses example_started)
       /\ streams w' = delete "s1" (streams example_started)
       /\ dirs w' = dirs example_started ∖ {[ "streams/s1" ]}.
Proof.
  split; [reflexivity|].
  destruct (killStream_default_path "s1"
              (Stream.set_keepAlive 100 (Stream.set_state started example_stream))
              example_started eq_refl)
    as (w' & Hrun & Hprocess & Hstream & Hdir & _).
  exists w'. split; [exact Hrun|]. split; [exact Hprocess|].
  split; [exact Hstream | exact Hdir].
Defined.

Lemma example_world_keyed : keyed_by_id example_world.
Proof.
  intros key stream H. unfold example_world in H. cbn [streams] in H.
  by apply lookup_singleton_Some in H as [<- <-].
Qed.

Lemma example_world_subscribed : viewers_subscribed example_world.
Proof.
  intros ws client H. unfold example_world in H. cbn [websocketClients] in H.
  apply lookup_insert_Some in H as [[<- <-]|[_ H]].
  - eexists. split; [reflexivity|]. split; [reflexivity|]. cbn. by apply elem_of_singleton.
  - apply lookup_singleton_Some in H as [<- <-].
    eexists. split; [reflexivity|]. split; [reflexivity|]. cbn. by apply elem_of_singleton.
Qed.

(** An upload, a third connection that subscribes and starts the
    stream, the sweeps and the end of the process. *)
Lemma sessions_keyed_by_id_witness :
  keyed_by_id example_world
  /\ keyed_by_id
       (example_run [EvUpload (fun _ => Byte.x07) (fun _ => Byte.x2a) "mp4" 1920 1080 30 1;
                     EvOpen 3%nat "10.0.0.3";
                     EvMessage 3%nat (Json subscribe_carol) None 5;
                     EvMessage 3%nat (Json start_full) None 10;
                     EvReaper 20; EvOrphans; EvExited "s1" "streams/s1"]
          example_world).
Proof.
  split; [exact example_world_keyed|].
  exact (sessions_keyed_by_id ascii_letter ascii_digit (1 * 60 * 60 * 1000) "streams"
           (Utilities.maxResolution None) (Utilities.maxFramerate None) _ example_world
           example_world_keyed).
Defined.

(** What the host says reaches the viewer. *)
Lemma chat_reaches_every_viewer_witness :
  viewers_subscribed example_world
  /\ truthy (Data.stream chat_full) = true
  /\ Data.type chat_full = Some "message"
  /\ truthy (Data.message chat_full) = true
  /\ websocketClients example_world !! 1%nat = Some example_host
  /\ streams example_world !! Client.stream example_host = Some example_stream
  /\ websocketClients example_world !! 2%nat = Some example_viewer
  /\ Client.stream example_viewer = Client.stream example_host
  /\ exists w' before,
       example_message 1%nat (Json chat_full) None 30 example_world = Returned w'
       /\ mailbox example_world 2%nat = Some (before, true)
       /\ mailbox w' 2%nat = Some (before ++ [chat_event chat_full example_host], true).
Proof.
  split; [exact example_world_subscribed|].
  repeat (split; [reflexivity|]).
  exact (chat_reaches_every_viewer ascii_letter ascii_digit 1%nat 2%nat chat_full None 30
           example_world example_host example_viewer example_stream
           example_world_subscribed eq_refl eq_refl eq_refl eq_refl eq_refl eq_refl eq_refl).
Defined.

(** The host starts the stream at time 100, the viewer keeps it alive
    at time 200. *)
Lemma keepAlive_after_start_witness :
  keyed_by_id example_world
  /\ truthy (Data.stream start_full) = true
  /\ Data.type start_full = Some "start"
  /\ websocketClients example_world !! 1%nat = Some example_host
  /\ streams example_world !! Client.stream example_host = Some example_stream
  /\ Stream.state example_stream = stopped
  /\ ffmpegProcesses example_world !! Client.stream example_host = None
  /\ Client.host example_host = true
  /\ truthy (Data.stream keepAlive_full) = true
  /\ Data.type keepAlive_full = Some "keepAlive"
  /\ websocketClients example_world !! 2%nat = Some example_viewer
  /\ Client.stream example_viewer = Client.stream example_host
  /\ exists w' w'',
       example_message 1%nat (Json start_full) None 100 example_world = Returned w'
       /\ example_message 2%nat (Json keepAlive_full) None 200 w' = Returned w''
       /\ streams w'' !! "s1"
          = Some (Stream.set_keepAlive 200 (Stream.set_state started example_stream)).
Proof.
  split; [exact example_world_keyed|].
  repeat (split; [reflexivity|]).
  destruct (keepAlive_after_start ascii_letter ascii_digit 1%nat 2%nat
              start_full keepAlive_full None None 100 200 example_world
              example_host example_viewer example_stream
              example_world_keyed eq_refl eq_refl eq_refl eq_refl eq_refl eq_refl eq_refl
              eq_refl eq_refl eq_refl eq_refl)
    as (w' & w'' & Hstart & Hkeep & Hstream & _).
  exists w', w''. split; [exact Hstart|]. split; [exact Hkeep | exact Hstream].
Defined.

(** ** Subscriptions that overlap *)

Section Overlapping.

Variable unicode_L : N -> bool.
Variable unicode_N : N -> bool.
Variable MAX_KEEP_ALIVE : Z.
Variable streamsDirectory : string.
Variable maxResolution : Z.
Variable maxFramerate : Z.

Local Abbreviation handle := (message unicode_L unicode_N).
Local Abbreviation begin := (message_begin unicode_L unicode_N).
Local Abbreviation step_ :=
  (step unicode_L unicode_N MAX_KEEP_ALIVE streamsDirectory maxResolution maxFramerate).
Local Abbreviation turn_ :=
  (turn unicode_L unicode_N MAX_KEEP_ALIVE streamsDirectory maxResolution maxFramerate).
Local Abbreviation play_ :=
  (play unicode_L unicode_N MAX_KEEP_ALIVE streamsDirectory maxResolution maxFramerate).

(** Resumed as soon as it waits, the handler cut at its awaits is the
    handler taken whole. *)
Lemma message_uninterrupted (ws : conn) (parsed : Parsed) (geo : option string)
    (now : Z) (w : World) :
  uninterrupted ws geo (begin ws parsed now w) = handle ws parsed geo now w.
Proof.
  unfold message_begin, message, subscribe_begin, subscribe.
  destruct parsed as [| |data]; [reflexivity | reflexivity |].
  destruct (truthy (Data.stream data)); cbn [negb]; [|reflexivity].
  destruct (websocketClients w !! ws) as [client|].
  - destruct (streams w !! Client.stream client); [|reflexivity].
    by repeat case_decide.
  - destruct (streams w !! default "" (Data.stream data)) as [stream|] eqn:Hstream;
      [|reflexivity].
    destruct (truthy_u (Data.username data)); cbn [negb]; [|reflexivity].
    cbn [uninterrupted resume]. unfold subscribe_checked.
    destruct (RegexCheck.username unicode_L unicode_N (default [] (Data.username data)));
      cbn [negb]; [|reflexivity].
    by rewrite Hstream.
Qed.

(** What a message does when it is handled to its end at once is what
    its handler did, if it ended without waiting. *)
Lemma message_begin_done (ws : conn) (parsed : Parsed) (geo : option string)
    (now : Z) (w : World) (o : Outcome) :
  begin ws parsed now w = Done o -> handle ws parsed geo now w = o.
Proof.
  intros Hdone. rewrite <- message_uninterrupted, Hdone. reflexivity.
Qed.

Lemma message_begin_suspend (ws : conn) (parsed : Parsed) (now : Z) (w w' : World)
    (k : Suspended) :
  begin ws parsed now w = Suspend k w' ->
  w' = w /\ websocketClients w !! ws = None
  /\ exists data valid, k = AwaitUsername data valid.
Proof.
  unfold message_begin, subscribe_begin. intros H.
  repeat case_match; simplify_eq. split; [done|]. split; [done|]. by eexists _, _.
Qed.

(** X10: a message of a connection that has no entry yet, when its
    handler is resumed as soon as it waits, before anything else
    happens, and the address lookup answers.  When the text is not
    JSON or is [null], the handler throws and nothing is sent or
    changed.  Otherwise the connection ends up either subscribed, with
    an entry for the stream it named and open or closed as it was, or
    refused: it is sent one failure frame that echoes the type, closed,
    and left without an entry.  Nothing in between. *)
Theorem subscription_or_closed (ws : conn) (parsed : Parsed) (geo : option string)
    (now : Z) (w : World) :
  websocketClients w !! ws = None ->
  match parsed with
  | Json data =>
      exists w',
        uninterrupted ws geo (begin ws (Json data) now w) = Returned w'
        /\ ((exists client, websocketClients w' !! ws = Some client
                            /\ Some (Client.stream client) = Data.stream data
                            /\ is_Some (streams w !! Client.stream client)
                            /\ status w' ws = status w ws)
            \/ (exists cause,
                  w' = close ws (ws_send ws (Payload.failure (Data.type data) cause) w)
                  /\ websocketClients w' !! ws = None
                  /\ status w' ws = (fun _ => false) <$> status w ws))
  | _ => exists e, uninterrupted ws geo (begin ws parsed now w) = Threw e w
  end.
Proof.
  intros Hnone. destruct parsed as [| |data]; [by eexists | by eexists |].
  rewrite message_uninterrupted.
  unfold message, subscribe, reject, ws_close. rewrite Hnone.
  assert (Hclosed : forall cause,
    let w' := close ws (ws_send ws (Payload.failure (Data.type data) cause) w) in
    websocketClients w' !! ws = None
    /\ status w' ws = (fun _ => false) <$> status w ws).
  { intros cause w'. subst w'.
    rewrite clients_close, status_close, status_ws_send, !decide_True by done. done. }
  destruct (truthy (Data.stream data)) eqn:Hfield; cbn [negb];
    [|eexists; split; [reflexivity|]; right; eexists; split; [reflexivity | apply Hclosed]].
  destruct (Data.stream data) as [id|] eqn:Hid; [|discriminate].
  cbn [from_option Datatypes.id].
  destruct (streams w !! id) as [stream|] eqn:Hstream;
    [|eexists; split; [reflexivity|]; right; eexists; split; [reflexivity | apply Hclosed]].
  destruct (truthy_u (Data.username data)); cbn [negb];
    [|eexists; split; [reflexivity|]; right; eexists; split; [reflexivity | apply Hclosed]].
  destruct (RegexCheck.username unicode_L unicode_N (default [] (Data.username data)));
    cbn [negb];
    [|eexists; split; [reflexivity|]; right; eexists; split; [reflexivity | apply Hclosed]].
  eexists. split; [reflexivity|]. left. eexists. split.
  - cbn. apply lookup_insert_eq.
  - cbn [Client.stream]. split; [done|]. split; [by rewrite Hstream|].
    rewrite status_ws_send.
    by rewrite <- (status_ws_subscribe ws ws id w).
Qed.

(** X11: once the session of a subscribed connection is gone from
    [global.streams], the handler of a message of the connection ends
    before its first await.  A message that is JSON and not [null] is
    answered with a failure frame that echoes its type, the connection
    is closed and its entry deleted, whatever the message asks for.
    When the text is not JSON or is [null], the handler throws
    instead: nothing is sent, and the connection stays as it was,
    entry included. *)
Theorem ended_stream_closes (ws : conn) (parsed : Parsed) (now : Z) (w : World)
    (client : Client.t) :
  websocketClients w !! ws = Some client ->
  streams w !! Client.stream client = None ->
  match parsed with
  | Json data =>
      exists cause w',
        begin ws (Json data) now w = Done (Returned w')
        /\ w' = close ws (ws_send ws (Payload.failure (Data.type data) cause) w)
        /\ websocketClients w' !! ws = None
        /\ status w' ws = (fun _ => false) <$> status w ws
        /\ streams w' = streams w
        /\ ffmpegProcesses w' = ffmpegProcesses w
  | _ => exists e, begin ws parsed now w = Done (Threw e w)
  end.
Proof.
  intros Hclient Hgone. destruct parsed as [| |data]; [by eexists | by eexists |].
  assert (Hclosed : forall cause,
    let w' := close ws (ws_send ws (Payload.failure (Data.type data) cause) w) in
    websocketClients w' !! ws = None
    /\ status w' ws = (fun _ => false) <$> status w ws
    /\ streams w' = streams w
    /\ ffmpegProcesses w' = ffmpegProcesses w).
  { intros cause w'. subst w'.
    rewrite clients_close, status_close, status_ws_send, streams_close, !decide_True by done.
    repeat split. unfold close, forget. cbn. by rewrite Hclient. }
  unfold message_begin, reject, ws_close. rewrite Hclient, Hgone.
  destruct (truthy (Data.stream data)); cbn [negb];
    eexists; eexists; (split; [reflexivity|]); (split; [reflexivity | apply Hclosed]).
Qed.

(** The turns of a subscription, one by one. *)
Lemma turn_arrives_subscription (ws : conn) (data : Data.t) (now : Z) (w : World)
    (others : list (conn * Suspended)) (sock : Socket) (id : string) (stream : Stream.t) :
  sockets w !! ws = Some sock ->
  isOpen sock = true ->
  websocketClients w !! ws = None ->
  id <> "" ->
  Data.stream data = Some id ->
  streams w !! id = Some stream ->
  truthy_u (Data.username data) = true ->
  turn_ (Arrives ws (Json data) now) (mkServer w others)
  = mkServer w
      (others ++ [(ws, AwaitUsername data
                         (RegexCheck.username unicode_L unicode_N
                            (default [] (Data.username data))))]).
Proof.
  intros Hsock Hopen Hnone Hid Hdata Hstream Hname.
  cbn [turn world waiting]. rewrite Hsock, Hopen.
  unfold message_begin, subscribe_begin. rewrite Hnone, Hdata.
  cbn [truthy from_option Datatypes.id].
  destruct (String.eqb_spec id ""); [done|]. cbn [negb].
  by rewrite Hstream, Hname.
Qed.

Lemma turn_resumes_checked (i : nat) (ws : conn) (data : Data.t) (geo : option string)
    (w : World) (others : list (conn * Suspended)) (id : string) (stream : Stream.t) :
  others !! i = Some (ws, AwaitUsername data true) ->
  Data.stream data = Some id ->
  streams w !! id = Some stream ->
  turn_ (Resumes i geo) (mkServer w others)
  = mkServer (ws_subscribe ws id w)
      (delete i others
       ++ [(ws, AwaitCountry data
                  (from_option data_ip "" (sockets (ws_subscribe ws id w) !! ws))
                  (Stream.token stream))]).
Proof.
  intros Hi Hdata Hstream.
  cbn [turn world waiting]. rewrite Hi. cbn [resume]. unfold subscribe_checked.
  rewrite Hdata. cbn [negb from_option Datatypes.id]. by rewrite Hstream.
Qed.

Lemma turn_resumes_register (ws : conn) (data : Data.t) (ip streamToken : string)
    (geo : option string) (w : World) (others : list (conn * Suspended)) :
  turn_ (Resumes 0 geo) (mkServer w ((ws, AwaitCountry data ip streamToken) :: others))
  = mkServer (world_of (subscribe_register ws data ip streamToken geo w)) others.
Proof. reflexivity. Qed.

(** C3: the host flag is not assigned once.  A connection that is not
    subscribed yet sends two subscriptions for the same stream, the
    first with a token that is not the stream's, the second with the
    stream's token, and the second arrives while the first waits for
    the lookup of its address.  Both pass the test
    [!websocketClients.has(ws)]; when the lookup of the first answers,
    the connection is stored with [host: false]; when the lookup of
    the second answers, the entry is stored again, with
    [host: true]. *)
Theorem overlapping_subscriptions_rewrite_host (ws : conn) (first second : Data.t)
    (geo1 geo2 : option string) (now1 now2 : Z) (w : World) (sock : Socket)
    (id : string) (stream : Stream.t) :
  sockets w !! ws = Some sock ->
  isOpen sock = true ->
  websocketClients w !! ws = None ->
  id <> "" ->
  Data.stream first = Some id ->
  Data.stream second = Some id ->
  streams w !! id = Some stream ->
  truthy_u (Data.username first) = true ->
  truthy_u (Data.username second) = true ->
  RegexCheck.username unicode_L unicode_N (default [] (Data.username first)) = true ->
  RegexCheck.username unicode_L unicode_N (default [] (Data.username second)) = true ->
  Data.token first <> Some (Stream.token stream) ->
  Data.token second = Some (Stream.token stream) ->
  let overlap := [Arrives ws (Json first) now1; Resumes 0 None;
                  Arrives ws (Json second) now2; Resumes 1 None] in
  Client.host <$> websocketClients
                    (world (play_ (overlap ++ [Resumes 0 geo1]) (mkServer w []))) !! ws
  = Some false
  /\ Client.host <$> websocketClients
                       (world (play_ (overlap ++ [Resumes 0 geo1; Resumes 0 geo2])
                                 (mkServer w []))) !! ws
     = Some true.
Proof.
  intros Hsock Hopen Hnone Hid Hfirst Hsecond Hstream Hname1 Hname2 Hvalid1 Hvalid2
    Htoken1 Htoken2 overlap. subst overlap.
  assert (Hsock' : sockets (ws_subscribe ws id w) !! ws
                   = Some (mkSocket (data_ip sock) ({[id]} ∪ topics sock) (inbox sock)
                             (isOpen sock))).
  { cbn. by rewrite lookup_alter_eq, Hsock. }
  unfold play. cbn [foldl app].
  rewrite (turn_arrives_subscription ws first now1 w [] sock id stream) by done.
  rewrite Hvalid1. cbn [app].
  rewrite (turn_resumes_checked 0 ws first None w _ id stream) by done.
  cbn [app delete list_delete].
  rewrite (turn_arrives_subscription ws second now2 _ _ _ id stream Hsock') by done.
  rewrite Hvalid2. cbn [app].
  rewrite (turn_resumes_checked 1 ws second None _ _ id stream) by done.
  cbn [app delete list_delete]. rewrite !turn_resumes_register.
  unfold subscribe_register.
  cbn [world world_of websocketClients ws_send with_sockets with_websocketClients].
  rewrite !lookup_insert_eq. cbn [fmap option_fmap option_map Client.host].
  split.
  - by rewrite bool_decide_eq_false_2 by (intros Heq; apply Htoken1; congruence).
  - by rewrite bool_decide_eq_true_2 by congruence.
Qed.

End Overlapping.

(** ** The subscriptions along the turns *)

Lemma status_subscriptions (w : World) (ws : conn) :
  status w ws = snd <$> subscriptions w ws.
Proof. unfold status, subscriptions. by destruct (sockets w !! ws). Qed.

Lemma subscriptions_ws_subscribe (ws ws' : conn) (topic : string) (w : World) :
  subscriptions (ws_subscribe ws topic w) ws'
  = if decide (ws = ws')
    then (fun entry => ({[topic]} ∪ entry.1, entry.2)) <$> subscriptions w ws'
    else subscriptions w ws'.
Proof.
  unfold subscriptions, ws_subscribe. cbn. rewrite lookup_alter.
  case_decide; [subst|done]. by destruct (sockets w !! ws').
Qed.

Lemma sockets_kept_same (w w' : World) :
  (forall ws, subscriptions w' ws = subscriptions w ws) -> sockets_kept w w'.
Proof.
  intros Hsame ws joined op Hws. exists joined, op. by rewrite Hsame.
Qed.

Lemma sockets_kept_trans (w1 w2 w3 : World) :
  sockets_kept w1 w2 -> sockets_kept w2 w3 -> sockets_kept w1 w3.
Proof.
  intros H12 H23 ws joined op Hws.
  destruct (H12 ws joined op Hws) as (joined2 & op2 & Hws2 & Hkept2).
  destruct (H23 ws joined2 op2 Hws2) as (joined3 & op3 & Hws3 & Hkept3).
  exists joined3, op3. split; [done|]. intros Hopen.
  destruct (Hkept3 Hopen) as [Hop2 Hsub3]. destruct (Hkept2 Hop2) as [Hop1 Hsub2].
  split; [done|]. by etrans.
Qed.

Lemma sockets_kept_ws_send (ws : conn) (p : Payload.t) (w : World) :
  sockets_kept w (ws_send ws p w).
Proof. apply sockets_kept_same. intros ws'. apply subscriptions_ws_send. Qed.

Lemma sockets_kept_server_publish (topic : string) (p : Payload.t) (w : World) :
  sockets_kept w (server_publish topic p w).
Proof. apply sockets_kept_same. intros ws'. apply subscriptions_server_publish. Qed.

Lemma sockets_kept_ws_subscribe (ws : conn) (topic : string) (w : World) :
  sockets_kept w (ws_subscribe ws topic w).
Proof.
  intros ws' joined op Hws. rewrite subscriptions_ws_subscribe, Hws.
  case_decide; cbn; eexists _, _; (split; [reflexivity|]); intros Hopen;
    (split; [exact Hopen|]); [apply union_subseteq_r | done].
Qed.

Lemma sockets_kept_close (ws : conn) (w : World) : sockets_kept w (close ws w).
Proof.
  intros ws' joined op Hws. destruct (decide (ws = ws')) as [->|Hne].
  - pose proof (status_close ws' ws' w) as Hstatus.
    rewrite decide_True, !status_subscriptions, Hws in Hstatus by done.
    destruct (subscriptions (close ws' w) ws') as [[joined' op']|]; [|discriminate].
    cbn in Hstatus. simplify_eq. eexists _, _. split; [reflexivity|]. discriminate.
  - rewrite subscriptions_close by done. exists joined, op. by split.
Qed.

Lemma sockets_kept_open (ws : conn) (address : string) (w : World) :
  sockets w !! ws = None -> sockets_kept w (open ws address w).
Proof.
  intros Hnew ws' joined op Hws. destruct (decide (ws = ws')) as [->|Hne].
  - unfold subscriptions in Hws. by rewrite Hnew in Hws.
  - rewrite subscriptions_open by done. exists joined, op. by split.
Qed.

Lemma sockets_kept_deliveries (w w' : World) : deliveries_only w w' -> sockets_kept w w'.
Proof. intros [_ Hsame]. by apply sockets_kept_same. Qed.

Section Turns.

Variable unicode_L : N -> bool.
Variable unicode_N : N -> bool.
Variable MAX_KEEP_ALIVE : Z.
Variable streamsDirectory : string.
Variable maxResolution : Z.
Variable maxFramerate : Z.

Local Abbreviation handle := (message unicode_L unicode_N).
Local Abbreviation begin := (message_begin unicode_L unicode_N).
Local Abbreviation step_ :=
  (step unicode_L unicode_N MAX_KEEP_ALIVE streamsDirectory maxResolution maxFramerate).
Local Abbreviation turn_ :=
  (turn unicode_L unicode_N MAX_KEEP_ALIVE streamsDirectory maxResolution maxFramerate).
Local Abbreviation play_ :=
  (play unicode_L unicode_N MAX_KEEP_ALIVE streamsDirectory maxResolution maxFramerate).

Lemma message_sockets_kept (ws : conn) (parsed : Parsed) (geo : option string) (now : Z)
    (w : World) :
  sockets_kept w (world_of (handle ws parsed geo now w)).
Proof.
  handler_cases.
  all: repeat first
    [ eapply sockets_kept_trans; [|apply sockets_kept_close]
    | eapply sockets_kept_trans; [|apply (sockets_kept_ws_send ws (Payload.failure _ _))]
    | eapply sockets_kept_trans; [|apply (sockets_kept_ws_send ws (Payload.ok _ _))]
    | eapply sockets_kept_trans;
        [|apply (sockets_kept_server_publish _ (Payload.chat _ _ _ _ _))] ].
  all: try (by apply sockets_kept_same).
  apply (sockets_kept_ws_subscribe ws).
Qed.

Lemma step_sockets_kept (ev : Event) (w : World) : sockets_kept w (step_ ev w).
Proof.
  destruct ev as [rngId rngToken ext mw mh mf now | ws address | ws parsed geo now
                 | ws | now | | p | id0 directory]; cbn [step].
  - by apply sockets_kept_same.
  - destruct (sockets w !! ws) as [s|] eqn:Hs; [by apply sockets_kept_same|].
    by apply sockets_kept_open.
  - destruct (sockets w !! ws) as [s|]; [|by apply sockets_kept_same].
    destruct (isOpen s); [|by apply sockets_kept_same].
    apply message_sockets_kept.
  - apply sockets_kept_close.
  - apply sockets_kept_deliveries. unfold reaper. apply forOf_respects.
    + apply deliveries_only_refl.
    + apply deliveries_only_trans.
    + apply sweep_stream_deliveries.
  - apply sockets_kept_deliveries. unfold orphans. apply forOf_respects.
    + apply deliveries_only_refl.
    + apply deliveries_only_trans.
    + apply sweep_process_deliveries.
  - by apply sockets_kept_same.
  - by apply sockets_kept_same.
Qed.

Lemma resume_sockets_kept (ws : conn) (k : Suspended) (geo : option string) (w : World) :
  sockets_kept w
    match resume ws k geo w with
    | Done o => world_of o
    | Suspend _ w' => w'
    end.
Proof.
  destruct k as [data valid | data ip streamToken]; cbn [resume].
  - unfold subscribe_checked, reject, ws_close. destruct valid; cbn [negb world_of].
    + destruct (streams w !! default "" (Data.stream data)); cbn [world_of].
      * apply sockets_kept_ws_subscribe.
      * by apply sockets_kept_same.
    + eapply sockets_kept_trans; [apply sockets_kept_ws_send | apply sockets_kept_close].
  - unfold subscribe_register. cbn [world_of].
    eapply sockets_kept_trans; [|apply sockets_kept_ws_send]. by apply sockets_kept_same.
Qed.

Lemma turn_sockets_kept (t : Turn) (s : Server) :
  sockets_kept (world s) (world (turn_ t s)).
Proof.
  destruct t as [ev | ws parsed now | i geo | i]; cbn [turn].
  - apply step_sockets_kept.
  - destruct (sockets (world s) !! ws) as [sock|]; [|by apply sockets_kept_same].
    destruct (isOpen sock); [|by apply sockets_kept_same].
    destruct (begin ws parsed now (world s)) as [o|k w'] eqn:Hbegin; cbn [world].
    + rewrite <- (message_begin_done unicode_L unicode_N ws parsed None now (world s) o Hbegin).
      apply message_sockets_kept.
    + apply message_begin_suspend in Hbegin as [-> _]. by apply sockets_kept_same.
  - destruct (waiting s !! i) as [[ws k]|]; [|by apply sockets_kept_same].
    pose proof (resume_sockets_kept ws k geo (world s)) as Hkept.
    by destruct (resume ws k geo (world s)).
  - destruct (waiting s !! i) as [[ws [? ?|? ? ?]]|]; by apply sockets_kept_same.
Qed.

Lemma ws_send_keeps_subscribed (ws : conn) (p : Payload.t) (w : World) :
  viewers_subscribed w -> viewers_subscribed (ws_send ws p w).
Proof.
  apply deliveries_keep_subscribed. split; [reflexivity|].
  intros ws'. apply subscriptions_ws_send.
Qed.

Lemma reject_keeps_subscribed (ws : conn) (p : Payload.t) (w : World) :
  viewers_subscribed w -> viewers_subscribed (close ws (ws_send ws p w)).
Proof.
  intros Hsubscribed.
  apply (step_keeps_subscribed unicode_L unicode_N MAX_KEEP_ALIVE streamsDirectory
           maxResolution maxFramerate (EvClose ws)).
  by apply ws_send_keeps_subscribed.
Qed.

Lemma ws_subscribe_keeps_subscribed (ws : conn) (topic : string) (w : World) :
  viewers_subscribed w -> viewers_subscribed (ws_subscribe ws topic w).
Proof.
  rewrite !viewers_subscribed_alt. intros Hsubscribed ws' client Hclient.
  destruct (Hsubscribed ws' client Hclient) as (joined & Hws & Hin).
  rewrite subscriptions_ws_subscribe, Hws. case_decide; cbn.
  - eexists. split; [reflexivity|]. apply elem_of_union. by right.
  - by exists joined.
Qed.

Lemma resume_keeps_subscribed (ws : conn) (k : Suspended) (geo : option string)
    (w : World) :
  viewers_subscribed w ->
  match k with
  | AwaitCountry data _ _ =>
      exists joined, subscriptions w ws = Some (joined, true)
                     /\ default "" (Data.stream data) ∈ joined
  | AwaitUsername _ _ => True
  end ->
  viewers_subscribed
    match resume ws k geo w with
    | Done o => world_of o
    | Suspend _ w' => w'
    end.
Proof.
  intros Hsubscribed Hready.
  destruct k as [data valid | data ip streamToken]; cbn [resume].
  - unfold subscribe_checked, reject, ws_close. destruct valid; cbn [negb world_of].
    + destruct (streams w !! default "" (Data.stream data)); cbn [world_of]; [|done].
      by apply ws_subscribe_keeps_subscribed.
    + by apply reject_keeps_subscribed.
  - unfold subscribe_register. cbn [world_of]. apply ws_send_keeps_subscribed.
    destruct Hready as (joined & Hws & Hin).
    apply viewers_subscribed_alt. intros ws' client Hclient.
    cbn [websocketClients with_websocketClients] in Hclient.
    rewrite lookup_insert in Hclient. case_decide; simplify_eq.
    + by exists joined.
    + by apply (proj1 (viewers_subscribed_alt w) Hsubscribed).
Qed.

Lemma turn_keeps_subscribed (t : Turn) (s : Server) :
  viewers_subscribed (world s) ->
  waiting_subscribed s ->
  registers_open t s ->
  viewers_subscribed (world (turn_ t s)).
Proof.
  intros Hsubscribed Hwaiting Hopen.
  destruct t as [ev | ws parsed now | i geo | i]; cbn [turn].
  - by apply step_keeps_subscribed.
  - pose proof (step_keeps_subscribed unicode_L unicode_N MAX_KEEP_ALIVE streamsDirectory
                  maxResolution maxFramerate (EvMessage ws parsed None now) (world s)
                  Hsubscribed) as Hstep.
    cbn [step] in Hstep.
    destruct (sockets (world s) !! ws) as [sock|]; [|done].
    destruct (isOpen sock); [|done].
    destruct (begin ws parsed now (world s)) as [o|k w'] eqn:Hbegin; cbn [world].
    + by rewrite (message_begin_done unicode_L unicode_N ws parsed None now (world s) o
                    Hbegin) in Hstep.
    + by apply message_begin_suspend in Hbegin as [-> _].
  - cbn [registers_open] in Hopen.
    destruct (waiting s !! i) as [[ws k]|] eqn:Hi; [|done].
    pose proof (resume_keeps_subscribed ws k geo (world s) Hsubscribed) as Hresume.
    assert (Hready : match k with
                     | AwaitCountry data _ _ =>
                         exists joined, subscriptions (world s) ws = Some (joined, true)
                                        /\ default "" (Data.stream data) ∈ joined
                     | AwaitUsername _ _ => True
                     end).
    { destruct k as [data valid | data ip streamToken]; [done|].
      destruct (Hwaiting ws _ (list_elem_of_lookup_2 _ _ _ Hi))
        as (joined & op & Hws & Hin).
      rewrite status_subscriptions, Hws in Hopen. cbn in Hopen. simplify_eq.
      exists joined. by split; [|apply Hin]. }
    specialize (Hresume Hready).
    by destruct (resume ws k geo (world s)).
  - by destruct (waiting s !! i) as [[ws [? ?|? ? ?]]|].
Qed.

Lemma waiting_extend (s : Server) (w' : World) (next : list (conn * Suspended)) :
  sockets_kept (world s) w' ->
  waiting_subscribed s ->
  (forall ws k, (ws, k) ∈ next ->
     (ws, k) ∈ waiting s
     \/ exists joined op, subscriptions w' ws = Some (joined, op)
          /\ match k with
             | AwaitCountry data _ _ => default "" (Data.stream data) ∈ joined
             | AwaitUsername _ _ => True
             end) ->
  waiting_subscribed (mkServer w' next).
Proof.
  intros Hkept Hwaiting Hnext ws k Hin. cbn [world waiting] in *.
  destruct (Hnext ws k Hin) as [Hold|(joined & op & Hws & Hnew)].
  - destruct (Hwaiting ws k Hold) as (joined & op & Hws & Hk).
    destruct (Hkept ws joined op Hws) as (joined' & op' & Hws' & Hmore).
    exists joined', op'. split; [done|].
    destruct k as [data valid | data ip streamToken]; [done|].
    intros Hop'. destruct (Hmore Hop') as [Hop Hsub]. apply Hsub. by apply Hk.
  - exists joined, op. split; [done|]. by destruct k.
Qed.

Lemma turn_keeps_waiting (t : Turn) (s : Server) :
  waiting_subscribed s -> waiting_subscribed (turn_ t s).
Proof.
  intros Hwaiting. pose proof (turn_sockets_kept t s) as Hkept.
  destruct t as [ev | ws parsed now | i geo | i]; cbn [turn] in *.
  - apply (waiting_extend s); [done | done | by left].
  - destruct (sockets (world s) !! ws) as [sock|] eqn:Hsock; [|done].
    destruct (isOpen sock); [|done].
    destruct (begin ws parsed now (world s)) as [o|k w'] eqn:Hbegin; cbn [world] in Hkept.
    + apply (waiting_extend s); [done | done | by left].
    + apply (waiting_extend s); [done | done |].
      intros ws' k' [Hold|Hnew%list_elem_of_singleton]%elem_of_app; [by left|].
      simplify_eq. right.
      apply message_begin_suspend in Hbegin as (-> & _ & data & valid & ->).
      exists (topics sock), (isOpen sock). split; [|done].
      unfold subscriptions. by rewrite Hsock.
  - destruct (waiting s !! i) as [[ws k]|] eqn:Hi; [|done].
    destruct (Hwaiting ws k (list_elem_of_lookup_2 _ _ _ Hi)) as (joined & op & Hws & _).
    destruct (resume ws k geo (world s)) as [o|k' w'] eqn:Hresume; cbn [world] in Hkept.
    + apply (waiting_extend s); [done | done |].
      intros ws' k' Hin. left. by apply list_elem_of_delete_inv in Hin.
    + apply (waiting_extend s); [done | done |].
      intros ws' k'' [Hold|Hnew%list_elem_of_singleton]%elem_of_app.
      * left. by apply list_elem_of_delete_inv in Hold.
      * simplify_eq. right.
        destruct k as [data valid | data ip streamToken]; cbn [resume] in Hresume;
          [|discriminate].
        unfold subscribe_checked in Hresume.
        destruct valid; cbn [negb] in Hresume; [|discriminate].
        destruct (streams (world s) !! default "" (Data.stream data)); [|discriminate].
        simplify_eq. rewrite subscriptions_ws_subscribe, decide_True, Hws by done.
        cbn. eexists _, _. split; [reflexivity|]. apply elem_of_union. left.
        by apply elem_of_singleton.
  - destruct (waiting s !! i) as [[ws [? ?|? ? ?]]|] eqn:Hi; try done.
    apply (waiting_extend s); [by apply sockets_kept_same | done |].
    intros ws' k' Hin. left. by apply list_elem_of_delete_inv in Hin.
Qed.

Lemma play_keeps_subscribed (turns : list Turn) :
  forall s,
    viewers_subscribed (world s) ->
    waiting_subscribed s ->
    registrations_open unicode_L unicode_N MAX_KEEP_ALIVE streamsDirectory
      maxResolution maxFramerate turns s ->
    viewers_subscribed (world (play_ turns s)).
Proof.
  induction turns as [|t rest IH]; intros s Hsubscribed Hwaiting Hopen; [done|].
  destruct Hopen as [Hnow Hlater].
  apply (IH (turn_ t s)); [by apply turn_keeps_subscribed | by apply turn_keeps_waiting | done].
Qed.

(** X18: every connection that has an entry in [websocketClients] is
    open and subscribed to the topic of the stream of its entry, also
    when subscriptions overlap with other events, as long as no
    subscription is registered on a connection that has been closed
    while it waited for its lookup.  What is true with no connection
    stays true along every such run of turns. *)
Theorem viewers_stay_subscribed (turns : list Turn) (w : World) :
  viewers_subscribed w ->
  registrations_open unicode_L unicode_N MAX_KEEP_ALIVE streamsDirectory
    maxResolution maxFramerate turns (mkServer w []) ->
  viewers_subscribed (world (play_ turns (mkServer w []))).
Proof.
  intros Hsubscribed Hopen. apply play_keeps_subscribed; [done | | done].
  intros ws k Hin. by apply elem_of_nil in Hin.
Qed.

End Turns.

(** ** Overlapping subscriptions, on the example deployment *)

(** The third connection sends a guess and then the host's token,
    before the lookup of the first subscription has answered. *)
Lemma overlapping_subscriptions_rewrite_host_witness :
  sockets example_world_3 !! 3%nat = Some (mkSocket "10.0.0.3" ∅ [] true)
  /\ websocketClients example_world_3 !! 3%nat = None
  /\ Data.stream subscribe_guess = Some "s1"
  /\ Data.stream subscribe_carol = Some "s1"
  /\ streams example_world_3 !! "s1" = Some example_stream
  /\ Data.token subscribe_guess <> Some (Stream.token example_stream)
  /\ Data.token subscribe_carol = Some (Stream.token example_stream)
  /\ Client.host <$> websocketClients
                       (world (example_play
                                 [Arrives 3%nat (Json subscribe_guess) 5;
                                  Resumes 0 None;
                                  Arrives 3%nat (Json subscribe_carol) 6;
                                  Resumes 1 None; Resumes 0 None]
                                 (mkServer example_world_3 []))) !! 3%nat
     = Some false
  /\ Client.host <$> websocketClients
                       (world (example_play
                                 [Arrives 3%nat (Json subscribe_guess) 5;
                                  Resumes 0 None;
                                  Arrives 3%nat (Json subscribe_carol) 6;
                                  Resumes 1 None; Resumes 0 None; Resumes 0 None]
                                 (mkServer example_world_3 []))) !! 3%nat
     = Some true.
Proof.
  do 5 (split; [reflexivity|]). split; [discriminate|]. split; [reflexivity|].
  exact (overlapping_subscriptions_rewrite_host ascii_letter ascii_digit
           (1 * 60 * 60 * 1000) "streams" (Utilities.maxResolution None)
           (Utilities.maxFramerate None) 3%nat subscribe_guess subscribe_carol
           None None 5 6 example_world_3 (mkSocket "10.0.0.3" ∅ [] true) "s1"
           example_stream eq_refl eq_refl eq_refl ltac:(discriminate) eq_refl eq_refl
           eq_refl eq_refl eq_refl eq_refl eq_refl ltac:(discriminate) eq_refl).
Defined.

(** A third connection subscribes while the host chats and the viewer
    leaves; its lookup answers while it is still open. *)
Lemma example_registrations_open :
  registrations_open ascii_letter ascii_digit (1 * 60 * 60 * 1000) "streams"
    (Utilities.maxResolution None) (Utilities.maxFramerate None)
    [Occurs (EvOpen 3%nat "10.0.0.3"); Arrives 3%nat (Json subscribe_carol) 5;
     Occurs (EvMessage 1%nat (Json chat_full) None 6); Resumes 0 None;
     Occurs (EvClose 2%nat); Resumes 0 None; Occurs (EvReaper 20)]
    (mkServer example_world []).
Proof. vm_compute. by repeat split. Qed.

Lemma viewers_stay_subscribed_witness :
  viewers_subscribed example_world
  /\ viewers_subscribed
       (world (example_play
                 [Occurs (EvOpen 3%nat "10.0.0.3"); Arrives 3%nat (Json subscribe_carol) 5;
                  Occurs (EvMessage 1%nat (Json chat_full) None 6); Resumes 0 None;
                  Occurs (EvClose 2%nat); Resumes 0 None; Occurs (EvReaper 20)]
                 (mkServer example_world []))).
Proof.
  split; [exact example_world_subscribed|].
  exact (viewers_stay_subscribed ascii_letter ascii_digit (1 * 60 * 60 * 1000) "streams"
           (Utilities.maxResolution None) (Utilities.maxFramerate None) _ example_world
           example_world_subscribed example_registrations_open).
Defined.

(** The condition is needed.  The third connection is closed while its
    subscription waits for the lookup: the [close] handler finds no
    entry to delete, and the subscription then stores one for the
    closed connection. *)
Example close_during_lookup_leaves_entry :
  let s := example_play
             [Occurs (EvOpen 3%nat "10.0.0.3"); Arrives 3%nat (Json subscribe_carol) 5;
              Resumes 0 None; Occurs (EvClose 3%nat); Resumes 0 None]
             (mkServer example_world []) in
  websocketClients (world s) !! 3%nat = Some example_guest
  /\ status (world s) 3%nat = Some false.
Proof. by vm_compute. Qed.

(** The subscription of the third connection is accepted. *)
Lemma subscription_or_closed_witness :
  websocketClients example_world_3 !! 3%nat = None
  /\ exists w',
       uninterrupted 3%nat None
         (message_begin ascii_letter ascii_digit 3%nat (Json subscribe_carol) 5
            example_world_3)
       = Returned w'
       /\ ((exists client, websocketClients w' !! 3%nat = Some client
                           /\ Some (Client.stream client) = Data.stream subscribe_carol
                           /\ is_Some (streams example_world_3 !! Client.stream client)
                           /\ status w' 3%nat = status example_world_3 3%nat)
           \/ (exists cause,
                 w' = close 3%nat
                        (ws_send 3%nat
                           (Payload.failure (Data.type subscribe_carol) cause)
                           example_world_3)
                 /\ websocketClients w' !! 3%nat = None
                 /\ status w' 3%nat = (fun _ => false) <$> status example_world_3 3%nat)).
Proof.
  split; [reflexivity|].
  exact (subscription_or_closed ascii_letter ascii_digit 3%nat (Json subscribe_carol)
           None 5 example_world_3 eq_refl).
Defined.

(** The process of the stream has ended; the host says something. *)
Lemma ended_stream_closes_witness :
  websocketClients example_ended !! 1%nat = Some example_host
  /\ streams example_ended !! Client.stream example_host = None
  /\ exists w',
       message_begin ascii_letter ascii_digit 1%nat (Json chat_full) 300 example_ended
       = Done (Returned w')
       /\ websocketClients w' !! 1%nat = None
       /\ status w' 1%nat = (fun _ => false) <$> status example_ended 1%nat.
Proof.
  do 2 (split; [reflexivity|]).
  destruct (ended_stream_closes ascii_letter ascii_digit 1%nat (Json chat_full) 300
              example_ended example_host eq_refl eq_refl)
    as (cause & w' & Hrun & _ & Hclient & Hstatus & _).
  exists w'. split; [exact Hrun|]. split; [exact Hclient | exact Hstatus].
Defined.
